(** * CLI-File-Organizer: the classification and transfer engine of
    [organizer.py], embedded in Rocq.

    Python values are modelled at the shape the program manipulates them:
    [str] as the [string] of its UTF-8 bytes, [pathlib.Path] objects as
    lists of components,
    decoded JSON documents as the inductive [json], the filesystem as an
    association list whose order is the order in which a directory scan
    yields its entries.  Exceptions are values of [exn]; a call that can raise
    returns a [result] together with the state reached when it stopped.
    Two functions of the Python runtime are parameters of the model: the
    case folding [str.lower] and the regex search [re.search]. *)

From Stdlib Require Import List String Ascii Bool Arith ZArith Lia.
From Stdlib Require Import DecimalString DecimalNat FinFun.
Import ListNotations.
Open Scope string_scope.
Open Scope list_scope.

(** ** Strings *)

Module Str.

(** [str.rfind('.')]: index of the last dot. *)
Fixpoint rfind_dot (s : string) : option nat :=
  match s with
  | EmptyString => None
  | String c s' =>
      match rfind_dot s' with
      | Some i => Some (S i)
      | None => if Ascii.eqb c "."%char then Some 0 else None
      end
  end.

(** [f"{counter}"] for a non-negative integer. *)
Definition of_nat (n : nat) : string := NilEmpty.string_of_uint (Nat.to_uint n).

(** [x in xs] for a list of strings. *)
Definition mem (x : string) (xs : list string) : bool :=
  existsb (String.eqb x) xs.

(** The characters of a string, as Python iterates over it: a byte that
    continues a UTF-8 sequence stays with the byte that starts it. *)
Definition continues (c : ascii) : bool :=
  let n := nat_of_ascii c in ((128 <=? n)%nat && (n <? 192)%nat)%bool.

Fixpoint chars (s : string) : list string :=
  match s with
  | EmptyString => []
  | String c s' =>
      match chars s' with
      | String d h :: t =>
          if continues d then String c (String d h) :: t
          else String c EmptyString :: String d h :: t
      | rest => String c EmptyString :: rest
      end
  end.

(** [s.split("/")]. *)
Fixpoint split_slash (s : string) : list string :=
  match s with
  | EmptyString => [EmptyString]
  | String c s' =>
      if Ascii.eqb c "/"%char then EmptyString :: split_slash s'
      else match split_slash s' with
           | h :: t => String c h :: t
           | [] => [String c EmptyString]
           end
  end.

Definition starts_with_slash (s : string) : bool :=
  match s with
  | String c _ => Ascii.eqb c "/"%char
  | EmptyString => false
  end.

End Str.

(** ** Paths *)

(** A path: its components below the root.  The working directory of the
    model is the root, so a relative text and the absolute one name the same
    path; nothing in the filesystem is a symbolic link. *)
Definition path := list string.

Module Path.

Definition eqb (p q : path) : bool :=
  if list_eq_dec string_dec p q then true else false.

(** [p.name]: the final component, empty for the root. *)
Definition name (p : path) : string := last p EmptyString.

(** [p.parent]; the root is its own parent. *)
Definition parent (p : path) : path := removelast p.

(** [Path(name).suffix] and [Path(name).stem]: the name is cut at its last
    dot unless that dot is the first or the last character. *)
Definition cut (nm : string) : option nat :=
  match Str.rfind_dot nm with
  | Some i => if ((0 <? i)%nat && (i <? String.length nm - 1)%nat)%bool then Some i else None
  | None => None
  end.

Definition suffix_of_name (nm : string) : string :=
  match cut nm with
  | Some i => substring i (String.length nm - i) nm
  | None => EmptyString
  end.

Definition stem_of_name (nm : string) : string :=
  match cut nm with
  | Some i => substring 0 i nm
  | None => nm
  end.

Definition suffix (p : path) : string := suffix_of_name (name p).
Definition stem (p : path) : string := stem_of_name (name p).

(** Components of a textual path: empty components and [.] are dropped. *)
Definition parts (s : string) : list string :=
  filter (fun c => negb (String.eqb c EmptyString || String.eqb c "."))
         (Str.split_slash s).

(** [Path(s)] for the text of a path: [..] stays a component. *)
Definition of_str (s : string) : path := parts s.

(** [p.resolve()]: without symbolic links each [..] steps back to the
    parent of what precedes it, and the root is its own parent. *)
Fixpoint resolve_from (base p : path) : path :=
  match p with
  | [] => base
  | c :: rest =>
      if String.eqb c ".." then resolve_from (removelast base) rest
      else resolve_from (base ++ [c]) rest
  end.

Definition resolve (p : path) : path := resolve_from [] p.

(** [str(p)]. *)
Definition to_str (p : path) : string :=
  match p with
  | [] => "/"
  | _ => fold_right (fun c acc => ("/" ++ c ++ acc)%string) EmptyString p
  end.

(** [p / s]: an absolute right operand replaces the left one. *)
Definition join (p : path) (s : string) : path :=
  if Str.starts_with_slash s then parts s else p ++ parts s.

(** [q] is [p] or an ancestor of [p]. *)
Fixpoint is_prefix (q p : path) : bool :=
  match q, p with
  | [], _ => true
  | a :: q', b :: p' => String.eqb a b && is_prefix q' p'
  | _ :: _, [] => false
  end.

(** The non-root ancestors of [p] and [p] itself, shortest first. *)
Fixpoint prefixes_from (base p : path) : list path :=
  match p with
  | [] => []
  | c :: p' => (base ++ [c]) :: prefixes_from (base ++ [c]) p'
  end.

Definition prefixes (p : path) : list path := prefixes_from [] p.

End Path.

(** ** JSON documents and Python exceptions *)

#[warnings="-register-all"]
Inductive json : Type :=
| JNull
| JBool (b : bool)
| JNum (z : Z)
| JStr (s : string)
| JArr (items : list json)
| JObj (fields : list (string * json)).

Inductive exn : Type :=
| FileNotFoundError
| NotADirectoryError
| IsADirectoryError
| FileExistsError
| SameFileError
| ShutilError
| JSONDecodeError
| KeyError
| UnicodeDecodeError
| TypeError
| AttributeError.

Inductive result (A : Type) : Type :=
| Ok (a : A)
| Raise (e : exn).
Arguments Ok {A} a.
Arguments Raise {A} e.

(** [IOError] is [OSError]: the filesystem exceptions. *)
Definition is_OSError (e : exn) : bool :=
  match e with
  | FileNotFoundError | NotADirectoryError | IsADirectoryError
  | FileExistsError | SameFileError | ShutilError => true
  | _ => false
  end.

Module Json.

Fixpoint get (k : string) (fields : list (string * json)) : option json :=
  match fields with
  | [] => None
  | (k', v) :: rest => if String.eqb k k' then Some v else get k rest
  end.

(** [for e in v]: the elements Python iterates over. *)
Definition iter (v : json) : result (list json) :=
  match v with
  | JArr items => Ok items
  | JStr s => Ok (map JStr (Str.chars s))
  | JObj fields => Ok (map (fun kv => JStr (fst kv)) fields)
  | _ => Raise TypeError
  end.

(** [reversed(v)]: lists, strings and dicts are reversible. *)
Definition reversed (v : json) : result (list json) :=
  match iter v with
  | Ok l => Ok (rev l)
  | Raise e => Raise e
  end.

(** [v[k]] for a string key. *)
Definition getitem (v : json) (k : string) : result json :=
  match v with
  | JObj fields =>
      match get k fields with
      | Some x => Ok x
      | None => Raise KeyError
      end
  | _ => Raise TypeError
  end.

Section Lower.

(** [str_lower s] is [s.lower()]. *)
Variable str_lower : string -> string.

(** [e.lower()]: only a string has the method. *)
Definition lower (v : json) : result string :=
  match v with
  | JStr s => Ok (str_lower s)
  | _ => Raise AttributeError
  end.

(** [[e.lower() for e in l]]. *)
Fixpoint lower_all (l : list json) : result (list string) :=
  match l with
  | [] => Ok []
  | e :: rest =>
      match lower e with
      | Raise x => Raise x
      | Ok s =>
          match lower_all rest with
          | Raise x => Raise x
          | Ok ss => Ok (s :: ss)
          end
      end
  end.

End Lower.

(** [Path(v)]: only a string is path-like. *)
Definition to_path (v : json) : result path :=
  match v with
  | JStr s => Ok (Path.of_str s)
  | _ => Raise TypeError
  end.

Definition eqb_str (v : json) (s : string) : bool :=
  match v with
  | JStr s' => String.eqb s' s
  | _ => false
  end.

End Json.

(** ** The filesystem *)

(** What a regular file holds: bytes that do not decode as UTF-8 (reading
    them as text raises [UnicodeDecodeError]), text that is not a JSON
    document ([json.load] raises [JSONDecodeError]), or the text of the JSON
    document [j]. *)
Inductive contents : Type :=
| Bytes (b : string)
| Text (s : string)
| Doc (j : json).

Inductive node : Type :=
| File (st_size : Z) (data : contents)
| Dir.

(** Entries in the order a directory scan yields them; the root directory is
    implicit and always present. *)
Definition filesystem := list (path * node).

Module Fs.

Fixpoint find (fs : filesystem) (p : path) : option node :=
  match fs with
  | [] => None
  | (q, n) :: rest => if Path.eqb q p then Some n else find rest p
  end.

Definition node_at (fs : filesystem) (p : path) : option node :=
  match p with
  | [] => Some Dir
  | _ => find fs p
  end.

(** [p.exists()], [p.is_dir()], [p.is_file()]. *)
Definition exists_ (fs : filesystem) (p : path) : bool :=
  match node_at fs p with Some _ => true | None => false end.

Definition is_dir (fs : filesystem) (p : path) : bool :=
  match node_at fs p with Some Dir => true | _ => false end.

Definition is_file (fs : filesystem) (p : path) : bool :=
  match node_at fs p with Some (File _ _) => true | _ => false end.

Definition remove (p : path) (fs : filesystem) : filesystem :=
  filter (fun e => negb (Path.eqb (fst e) p)) fs.

(** Writing an entry: a new entry goes to the end of the scan order, an
    existing one is replaced in place. *)
Fixpoint put (p : path) (n : node) (fs : filesystem) : filesystem :=
  match fs with
  | [] => [(p, n)]
  | (q, m) :: rest =>
      if Path.eqb q p then (q, n) :: rest else (q, m) :: put p n rest
  end.

(** [p.stat().st_size]; [None] stands for the [OSError] of a missing file.
    The size reported for a directory is never read: candidates are
    regular files. *)
Definition stat_size (fs : filesystem) (p : path) : option Z :=
  match node_at fs p with
  | Some (File sz _) => Some sz
  | Some Dir => Some 4096%Z
  | None => None
  end.

(** [p.iterdir()] and [p.rglob("*")]. *)
Definition iterdir (fs : filesystem) (p : path) : list path :=
  map fst (filter (fun e => match fst e with
                            | [] => false
                            | q => Path.eqb (Path.parent q) p
                            end) fs).

Definition rglob (fs : filesystem) (p : path) : list path :=
  map fst (filter (fun e => Path.is_prefix p (fst e)
                            && negb (Path.eqb (fst e) p)) fs).

(** [p.mkdir(parents=True, exist_ok=True)]: fails, creating nothing, when
    [p] or one of its ancestors is a regular file. *)
Definition mkdir_one (fs : filesystem) (q : path) : filesystem :=
  match node_at fs q with
  | None => put q Dir fs
  | Some _ => fs
  end.

Definition mkdir_parents (p : path) (fs : filesystem) : result filesystem :=
  if existsb (is_file fs) (Path.prefixes (Path.parent p)) then Raise NotADirectoryError
  else if is_file fs p then Raise FileExistsError
  else Ok (fold_left mkdir_one (Path.prefixes p) fs).

(** [os.rename(src, dst)] for a regular file [src]. *)
Definition rename_file (src dst : path) (fs : filesystem) : result filesystem :=
  match node_at fs src with
  | Some (File sz d) =>
      if Path.eqb src dst then Ok fs
      else if is_dir fs dst then Raise IsADirectoryError
      else if is_dir fs (Path.parent dst)
           then Ok (put dst (File sz d) (remove src fs))
           else if exists_ fs (Path.parent dst) then Raise NotADirectoryError
                else Raise FileNotFoundError
  | _ => Raise FileNotFoundError
  end.

(** Moving a directory: every entry below [src] is re-rooted at [dst]. *)
Definition reroot (src dst p : path) : path :=
  if Path.is_prefix src p then dst ++ skipn (List.length src) p else p.

Definition rename_dir (src dst : path) (fs : filesystem) : result filesystem :=
  if Path.eqb src dst then Ok fs
  else if Path.is_prefix src dst then Raise ShutilError
  else if exists_ fs dst then Raise FileExistsError
  else if is_dir fs (Path.parent dst)
       then Ok (map (fun e => (reroot src dst (fst e), snd e)) fs)
       else Raise FileNotFoundError.

(** [shutil.move(src, dst)]: a destination that is a directory receives the
    source under its own name. *)
Definition shutil_move (src dst : path) (fs : filesystem) : result filesystem :=
  let real_dst :=
    if is_dir fs dst && negb (Path.eqb src dst)
    then dst ++ [Path.name src] else dst in
  if is_dir fs dst && negb (Path.eqb src dst) && exists_ fs real_dst
  then Raise ShutilError
  else match node_at fs src with
       | Some (File _ _) => rename_file src real_dst fs
       | Some Dir =>
           match src with
           | [] => Raise ShutilError
           | _ => rename_dir src real_dst fs
           end
       | None => Raise FileNotFoundError
       end.

(** [shutil.copy2(src, dst)]. *)
Definition shutil_copy2 (src dst : path) (fs : filesystem) : result filesystem :=
  let real_dst := if is_dir fs dst then dst ++ [Path.name src] else dst in
  match node_at fs src with
  | Some (File sz d) =>
      if Path.eqb src real_dst then Raise SameFileError
      else if is_dir fs real_dst then Raise IsADirectoryError
      else if is_dir fs (Path.parent real_dst)
           then Ok (put real_dst (File sz d) fs)
           else if exists_ fs (Path.parent real_dst) then Raise NotADirectoryError
                else Raise FileNotFoundError
  | Some Dir => Raise IsADirectoryError
  | None => Raise FileNotFoundError
  end.

(** [p.unlink()]. *)
Definition unlink (p : path) (fs : filesystem) : result filesystem :=
  match node_at fs p with
  | Some (File _ _) => Ok (remove p fs)
  | Some Dir => Raise IsADirectoryError
  | None => Raise FileNotFoundError
  end.

(** [open(p, 'r')]: what the file at [p] holds. *)
Definition read (fs : filesystem) (p : path) : result contents :=
  match node_at fs p with
  | Some (File _ d) => Ok d
  | Some Dir => Raise IsADirectoryError
  | None =>
      if existsb (is_file fs) (Path.prefixes (Path.parent p))
      then Raise NotADirectoryError else Raise FileNotFoundError
  end.

End Fs.

(** ** Organizer state, console and exception handling *)

Inductive level : Type := DEBUG | INFO | WARNING | ERROR.

(** What the program prints or hands to its logger, one constructor per
    message of the source. *)
Inductive event : Type :=
| Print_dry_run (action : string) (file_path target_file : path)
| Print_done (operation : string) (name category : string)
| Print_log_saved (log_file : string)
| Print_would_undo (destination source : json)
| Print_undone (name : string) (parent : path)
| Print_removed_copy (destination : json)
| Log_found (lv : level) (count : nat)
| Log_dry_run (lv : level) (action : string) (file_path target_file : path)
| Log_done (lv : level) (operation : string) (file_path target_file : path)
| Log_error_processing (lv : level) (file_path : path) (e : exn)
| Log_invalid_regex (lv : level) (pattern : string)
| Log_config_loaded (lv : level) (config_file : string)
| Log_config_not_found (lv : level) (config_file : string)
| Log_config_error (lv : level) (e : exn)
| Log_log_saved (lv : level) (log_file : string)
| Log_save_error (lv : level) (e : exn)
| Log_undo_error (lv : level) (e : exn)
| Log_undone_total (lv : level) (count : Z)
| Log_read_error (lv : level) (e : exn).

(** The [FileOrganizer] object together with the world it acts on. *)
Record state : Type := mkState {
  file_types : json;
  operations_log : list json;
  fs : filesystem;
  clock : nat;
  console : list event
}.

Definition emit (ev : event) (s : state) : state :=
  mkState (file_types s) (operations_log s) (fs s) (clock s) (console s ++ [ev]).

Definition set_fs (f : filesystem) (s : state) : state :=
  mkState (file_types s) (operations_log s) f (clock s) (console s).

Definition set_file_types (t : json) (s : state) : state :=
  mkState t (operations_log s) (fs s) (clock s) (console s).

(** [datetime.now().isoformat()]: the reading of the clock, which advances. *)
Definition now_isoformat (s : state) : string * state :=
  (Str.of_nat (clock s),
   mkState (file_types s) (operations_log s) (fs s) (S (clock s)) (console s)).

Definition append_operation (r : json) (s : state) : state :=
  mkState (file_types s) (operations_log s ++ [r]) (fs s) (clock s) (console s).

(** An entry of the tuple after [except]: an exception class, given by the
    exceptions it covers, or some other object. *)
Inductive except_entry : Type :=
| Catches (covers : exn -> bool)
| Not_an_exception_class.

Definition is_exception_class (c : except_entry) : bool :=
  match c with Catches _ => true | Not_an_exception_class => false end.

Definition covers_exn (e : exn) (c : except_entry) : bool :=
  match c with Catches f => f e | Not_an_exception_class => false end.

(** Matching a raised exception against an [except (...)] clause: Python
    first checks that every entry is an exception class and raises
    [TypeError] otherwise. *)
Definition except_match (clause : list except_entry) (e : exn) : result bool :=
  if forallb is_exception_class clause then Ok (existsb (covers_exn e) clause)
  else Raise TypeError.

Definition exn_eqb (a b : exn) : bool :=
  match a, b with
  | FileNotFoundError, FileNotFoundError | NotADirectoryError, NotADirectoryError
  | IsADirectoryError, IsADirectoryError | FileExistsError, FileExistsError
  | SameFileError, SameFileError | ShutilError, ShutilError
  | JSONDecodeError, JSONDecodeError | KeyError, KeyError
  | UnicodeDecodeError, UnicodeDecodeError
  | TypeError, TypeError | AttributeError, AttributeError => true
  | _, _ => false
  end.

(** ** The category table *)

Definition table := list (string * list string).

Definition json_of_table (t : table) : json :=
  JObj (map (fun ce => (fst ce, JArr (map JStr (snd ce)))) t).

Definition DEFAULT_FILE_TYPES : table :=
  [ ("Images", [".jpg"; ".jpeg"; ".png"; ".gif"; ".bmp"; ".svg"; ".webp"; ".tiff"; ".ico"]);
    ("Documents", [".pdf"; ".docx"; ".txt"; ".rtf"; ".odt"; ".pages"; ".doc"]);
    ("Videos", [".mp4"; ".mov"; ".avi"; ".mkv"; ".wmv"; ".flv"; ".webm"; ".m4v"]);
    ("Audio", [".mp3"; ".wav"; ".flac"; ".aac"; ".ogg"; ".wma"; ".m4a"]);
    ("Archives", [".zip"; ".tar.gz"; ".rar"; ".7z"; ".tar"; ".gz"; ".bz2"]);
    ("Code", [".py"; ".js"; ".html"; ".css"; ".java"; ".cpp"; ".c"; ".h"; ".php"; ".rb"]);
    ("Spreadsheets", [".xlsx"; ".xls"; ".csv"; ".ods"; ".numbers"]);
    ("Presentations", [".pptx"; ".ppt"; ".odp"; ".key"]);
    ("Executables", [".exe"; ".msi"; ".dmg"; ".pkg"; ".deb"; ".rpm"; ".app"]);
    ("Fonts", [".ttf"; ".otf"; ".woff"; ".woff2"; ".eot"]) ].

(** [FileOrganizer()] over a given filesystem. *)
Definition init (f : filesystem) : state :=
  mkState (json_of_table DEFAULT_FILE_TYPES) [] f 0 [].

(** [json.load(f)] on a file opened with [encoding='utf-8']. *)
Definition json_load (d : contents) : result json :=
  match d with
  | Bytes _ => Raise UnicodeDecodeError
  | Text _ => Raise JSONDecodeError
  | Doc j => Ok j
  end.

(** [load_config]: the handler tuple names [json.JSONDecoder], which is not
    an exception class, next to [IOError]. *)
Definition load_config_clause : list except_entry :=
  [Not_an_exception_class; Catches is_OSError].

Definition load_config_body (config_file : string) (s : state) : result bool * state :=
  let config_path := Path.of_str config_file in
  if Fs.exists_ (fs s) config_path then
    match Fs.read (fs s) config_path with
    | Raise e => (Raise e, s)
    | Ok d =>
        match json_load d with
        | Raise e => (Raise e, s)
        | Ok j =>
            (Ok true, emit (Log_config_loaded INFO config_file) (set_file_types j s))
        end
    end
  else (Ok false, emit (Log_config_not_found WARNING config_file) s).

Definition load_config (config_file : string) (s : state) : result bool * state :=
  match load_config_body config_file s with
  | (Ok b, s') => (Ok b, s')
  | (Raise e, s') =>
      match except_match load_config_clause e with
      | Ok true => (Ok false, emit (Log_config_error ERROR e) s')
      | Ok false => (Raise e, s')
      | Raise e' => (Raise e', s')
      end
  end.

Section Resolver.

Variable str_lower : string -> string.

(** [get_category]. *)
Fixpoint get_category_items (items : list (string * json)) (ext_lower : string)
  : result string :=
  match items with
  | [] => Ok "Other"
  | (category, extensions) :: rest =>
      match Json.iter extensions with
      | Raise e => Raise e
      | Ok l =>
          match Json.lower_all str_lower l with
          | Raise e => Raise e
          | Ok ls =>
              if Str.mem ext_lower ls then Ok category
              else get_category_items rest ext_lower
          end
      end
  end.

Definition get_category (types : json) (file_extension : string) : result string :=
  let ext_lower := str_lower file_extension in
  match types with
  | JObj items => get_category_items items ext_lower
  | _ => Raise AttributeError
  end.

End Resolver.

(** ** Collision-free names *)

(** The [while True] loop of [get_unique_filename], run for at most [fuel]
    counters. *)
Fixpoint probe (fuel : nat) (f : filesystem) (parent : path) (stem suffix : string)
  (counter : nat) : option path :=
  match fuel with
  | O => None
  | S fuel' =>
      let new_name := (stem ++ "_" ++ Str.of_nat counter ++ suffix)%string in
      let new_path := parent ++ [new_name] in
      if negb (Fs.exists_ f new_path) then Some new_path
      else probe fuel' f parent stem suffix (S counter)
  end.

(** [get_unique_filename]: one more probe than the filesystem has entries
    always finds a free name ([probe_finds]), so the fallback is never
    taken. *)
Definition get_unique_filename (f : filesystem) (target_path : path) : path :=
  if negb (Fs.exists_ f target_path) then target_path
  else match probe (S (List.length f)) f (Path.parent target_path)
               (Path.stem target_path) (Path.suffix target_path) 1 with
       | Some p => p
       | None => target_path
       end.

(** ** Filters and the transfer engine *)

Record options : Type := mkOptions {
  dry_run : bool;
  recursive : bool;
  copy_files : bool;
  pattern : option string;
  exclude_pattern : option string;
  min_size : option Z;
  max_size : option Z
}.

(** [organize_files(source, destination)] called without keyword options. *)
Definition default_options : options :=
  mkOptions false false false None None None None.

(** The local counters of [organize_files]. *)
Record counters : Type := mkCounters {
  files_processed : Z;
  files_moved : Z
}.

(** Truthiness of an optional string: [None] and the empty string are false. *)
Definition truthy (p : option string) : bool :=
  match p with
  | Some (String _ _) => true
  | _ => false
  end.

(** [check_file_size]: a size that cannot be read passes. *)
Definition check_file_size (f : filesystem) (file_path : path)
  (min max : option Z) : bool :=
  match Fs.stat_size f file_path with
  | Some file_size =>
      if match min with Some m => (file_size <? m)%Z | None => false end then false
      else if match max with Some m => (file_size >? m)%Z | None => false end then false
      else true
  | None => true
  end.

Section Engine.

(** The regex engine: [re_search pattern filename] is
    [bool(re.search(pattern, filename, re.IGNORECASE))], and [None] when the
    pattern does not compile ([re.error]). *)
Variable re_search : string -> string -> option bool.

(** The case folding [str.lower]. *)
Variable str_lower : string -> string.

(** [matches_pattern]. *)
Definition matches_pattern (filename : string) (pat : option string) (s : state)
  : bool * state :=
  match pat with
  | Some (String _ _ as p) =>
      match re_search p filename with
      | Some b => (b, s)
      | None => (true, emit (Log_invalid_regex WARNING p) s)
      end
  | _ => (true, s)
  end.

(** The ledger entry appended for one transfer. *)
Definition transfer_record (timestamp : string) (copy : bool)
  (file_path target_file : path) (file_category : string) : json :=
  JObj [ ("timestamp", JStr timestamp);
         ("operation", JStr (if copy then "copy" else "move"));
         ("source", JStr (Path.to_str file_path));
         ("destination", JStr (Path.to_str target_file));
         ("category", JStr file_category) ].

(** The transfer itself, the [else] branch of the dry-run test. *)
Definition transfer (o : options) (file_path target_dir target_file : path)
  (file_category : string) (c : counters) (s : state)
  : result unit * counters * state :=
  match Fs.mkdir_parents target_dir (fs s) with
  | Raise e => (Raise e, c, s)
  | Ok f1 =>
      let s1 := set_fs f1 s in
      match (if copy_files o then Fs.shutil_copy2 file_path target_file f1
             else Fs.shutil_move file_path target_file f1) with
      | Raise e => (Raise e, c, s1)
      | Ok f2 =>
          let operation := if copy_files o then "copied" else "moved" in
          let (ts, s2) := now_isoformat (set_fs f2 s1) in
          let s3 := append_operation
                      (transfer_record ts (copy_files o) file_path target_file
                                       file_category) s2 in
          let c' := mkCounters (files_processed c) (files_moved c + 1) in
          (Ok tt, c',
           emit (Log_done INFO operation file_path target_file)
                (emit (Print_done operation (Path.name file_path) file_category) s3))
      end
  end.

(** The body of the [try] for one candidate. *)
Definition process_file (o : options) (dest_path file_path : path)
  (c : counters) (s : state) : result unit * counters * state :=
  let (m, s1) := matches_pattern (Path.name file_path) (pattern o) s in
  if negb m then (Ok tt, c, s1)
  else
    let (x, s2) := if truthy (exclude_pattern o)
                   then matches_pattern (Path.name file_path) (exclude_pattern o) s1
                   else (false, s1) in
    if x then (Ok tt, c, s2)
    else if negb (check_file_size (fs s2) file_path (min_size o) (max_size o))
    then (Ok tt, c, s2)
    else
      let c1 := mkCounters (files_processed c + 1) (files_moved c) in
      let file_extension := Path.suffix file_path in
      match get_category str_lower (file_types s2) file_extension with
      | Raise e => (Raise e, c1, s2)
      | Ok file_category =>
          let target_dir := Path.join dest_path file_category in
          let target_file :=
            get_unique_filename (fs s2) (target_dir ++ [Path.name file_path]) in
          if dry_run o then
            let action := if copy_files o then "copy" else "move" in
            (Ok tt, c1,
             emit (Log_dry_run DEBUG action file_path target_file)
                  (emit (Print_dry_run action file_path target_file) s2))
          else transfer o file_path target_dir target_file file_category c1 s2
      end.

(** One iteration of the loop: the [try] body under [except Exception]. *)
Definition organize_step (o : options) (dest_path : path)
  (acc : counters * state) (file_path : path) : counters * state :=
  match process_file o dest_path file_path (fst acc) (snd acc) with
  | (Ok _, c, s) => (c, s)
  | (Raise e, c, s) => (c, emit (Log_error_processing ERROR file_path e) s)
  end.

Definition organize_loop (o : options) (dest_path : path) (files : list path)
  (acc : counters * state) : counters * state :=
  fold_left (organize_step o dest_path) files acc.

(** The candidates, fixed before the loop starts. *)
Definition candidates (o : options) (src_path : path) (f : filesystem) : list path :=
  filter (Fs.is_file f)
         (if recursive o then Fs.rglob f src_path else Fs.iterdir f src_path).

(** [organize_files]. *)
Definition organize_files (source destination : string) (o : options) (s : state)
  : result (Z * Z) * state :=
  let src_path := Path.resolve (Path.of_str source) in
  let dest_path := Path.resolve (Path.of_str destination) in
  if negb (Fs.exists_ (fs s) src_path) then (Raise FileNotFoundError, s)
  else if negb (Fs.is_dir (fs s) src_path) then (Raise NotADirectoryError, s)
  else
    let files := candidates o src_path (fs s) in
    let s0 := emit (Log_found INFO (List.length files)) s in
    let (c, s') := organize_loop o dest_path files (mkCounters 0 0, s0) in
    (Ok (files_processed c, files_moved c), s').

End Engine.

(** ** The ledger on disk and the undo engine *)

(** [open(p, 'w')] and writing the document [j].  The byte length of the
    text [json.dump] produces is stood for by [dump_size j], the number of
    top-level entries; no property below reads it. *)
Definition dump_size (j : json) : Z :=
  match j with
  | JObj fields => Z.of_nat (List.length fields)
  | JArr items => Z.of_nat (List.length items)
  | _ => 1%Z
  end.

Definition write_doc (p : path) (j : json) (f : filesystem) : result filesystem :=
  if Fs.is_dir f p then Raise IsADirectoryError
  else if Fs.is_dir f (Path.parent p) then Ok (Fs.put p (File (dump_size j) (Doc j)) f)
  else if Fs.exists_ f (Path.parent p) then Raise NotADirectoryError
  else Raise FileNotFoundError.

Definition save_undo_log_clause : list except_entry := [Catches is_OSError].

(** [save_undo_log]. *)
Definition save_undo_log (log_file : string) (s : state) : result unit * state :=
  match operations_log s with
  | [] => (Ok tt, s)
  | _ =>
      let (ts, s1) := now_isoformat s in
      let log_data :=
        JObj [ ("session_info",
                JObj [ ("timestamp", JStr ts);
                       ("total_operations",
                        JNum (Z.of_nat (List.length (operations_log s)))) ]);
               ("operations", JArr (operations_log s)) ] in
      match write_doc (Path.of_str log_file) log_data (fs s1) with
      | Ok f' =>
          (Ok tt, emit (Print_log_saved log_file)
                       (emit (Log_log_saved INFO log_file) (set_fs f' s1)))
      | Raise e =>
          match except_match save_undo_log_clause e with
          | Ok true => (Ok tt, emit (Log_save_error ERROR e) s1)
          | Ok false => (Raise e, s1)
          | Raise e' => (Raise e', s1)
          end
      end
  end.

(** The inner [try] of [undo_operations] for one record, outside dry-run. *)
Definition undo_move (destination source : json) (s : state) : result unit * state :=
  match Json.to_path source with
  | Raise e => (Raise e, s)
  | Ok src =>
      match Fs.mkdir_parents (Path.parent src) (fs s) with
      | Raise e => (Raise e, s)
      | Ok f1 =>
          match Json.to_path destination with
          | Raise e => (Raise e, set_fs f1 s)
          | Ok dst =>
              match Fs.shutil_move dst src f1 with
              | Raise e => (Raise e, set_fs f1 s)
              | Ok f2 =>
                  (Ok tt, emit (Print_undone (Path.name dst) (Path.parent src))
                               (set_fs f2 s))
              end
          end
      end
  end.

Definition undo_copy (destination : json) (s : state) : result unit * state :=
  match Json.to_path destination with
  | Raise e => (Raise e, s)
  | Ok dst =>
      match Fs.unlink dst (fs s) with
      | Raise e => (Raise e, s)
      | Ok f1 => (Ok tt, emit (Print_removed_copy destination) (set_fs f1 s))
      end
  end.

(** [Path(destination).exists()]. *)
Definition destination_exists (destination : json) (s : state) : result bool :=
  match Json.to_path destination with
  | Raise e => Raise e
  | Ok dst => Ok (Fs.exists_ (fs s) dst)
  end.

(** The [if]/[elif] under the inner [try]; [Ok true] when the record was
    undone and is counted. *)
Definition undo_try (op_type destination source : json) (s : state)
  : result bool * state :=
  let copy_branch :=
    if Json.eqb_str op_type "copy" then
      match destination_exists destination s with
      | Raise e => (Raise e, s)
      | Ok true =>
          match undo_copy destination s with
          | (Ok _, s') => (Ok true, s')
          | (Raise e, s') => (Raise e, s')
          end
      | Ok false => (Ok false, s)
      end
    else (Ok false, s) in
  if Json.eqb_str op_type "move" then
    match destination_exists destination s with
    | Raise e => (Raise e, s)
    | Ok true =>
        match undo_move destination source s with
        | (Ok _, s') => (Ok true, s')
        | (Raise e, s') => (Raise e, s')
        end
    | Ok false => copy_branch
    end
  else copy_branch.

(** One record outside dry-run: the inner [try] under [except Exception]. *)
Definition undo_record (op_type destination source : json) (count : Z) (s : state)
  : Z * state :=
  match undo_try op_type destination source s with
  | (Ok true, s') => ((count + 1)%Z, s')
  | (Ok false, s') => (count, s')
  | (Raise e, s') => (count, emit (Log_undo_error ERROR e) s')
  end.

(** The [for operation in reversed(operations)] loop, given the records in
    the order they are visited. *)
Fixpoint undo_loop (dry : bool) (ops : list json) (count : Z) (s : state)
  : result Z * state :=
  match ops with
  | [] => (Ok count, s)
  | operation :: rest =>
      match Json.getitem operation "source" with
      | Raise e => (Raise e, s)
      | Ok source =>
          match Json.getitem operation "destination" with
          | Raise e => (Raise e, s)
          | Ok destination =>
              match Json.getitem operation "operation" with
              | Raise e => (Raise e, s)
              | Ok op_type =>
                  if dry then
                    undo_loop dry rest count
                              (emit (Print_would_undo destination source) s)
                  else
                    let (count', s') :=
                      undo_record op_type destination source count s in
                    undo_loop dry rest count' s'
              end
          end
      end
  end.

(** [log_data.get('operations', [])]. *)
Definition get_operations (log_data : json) : result json :=
  match log_data with
  | JObj fields =>
      match Json.get "operations" fields with
      | Some v => Ok v
      | None => Ok (JArr [])
      end
  | _ => Raise AttributeError
  end.

(** The outer [try] body of [undo_operations]. *)
Definition undo_body (log_file : string) (dry : bool) (s : state)
  : result Z * state :=
  match Fs.read (fs s) (Path.of_str log_file) with
  | Raise e => (Raise e, s)
  | Ok d =>
      match json_load d with
      | Raise e => (Raise e, s)
      | Ok log_data =>
          match get_operations log_data with
          | Raise e => (Raise e, s)
          | Ok operations =>
              match Json.reversed operations with
              | Raise e => (Raise e, s)
              | Ok ops =>
                  match undo_loop dry ops 0%Z s with
                  | (Raise e, s') => (Raise e, s')
                  | (Ok undone_count, s') =>
                      (Ok undone_count,
                       if dry then s'
                       else emit (Log_undone_total INFO undone_count) s')
                  end
              end
          end
      end
  end.

Definition undo_clause : list except_entry :=
  [ Catches (exn_eqb FileNotFoundError);
    Catches (exn_eqb JSONDecodeError);
    Catches (exn_eqb KeyError) ].

(** [undo_operations]. *)
Definition undo_operations (log_file : string) (dry : bool) (s : state)
  : result Z * state :=
  match undo_body log_file dry s with
  | (Ok n, s') => (Ok n, s')
  | (Raise e, s') =>
      match except_match undo_clause e with
      | Ok true => (Ok 0%Z, emit (Log_read_error ERROR e) s')
      | Ok false => (Raise e, s')
      | Raise e' => (Raise e', s')
      end
  end.

(** ** Vocabulary of the properties *)

(** The extension list of a table entry holds [ext] up to case: some
    element has the case folding of [ext]. *)
Definition owns (str_lower : string -> string) (ext : string)
  (entry : string * list string) : bool :=
  existsb (fun e => String.eqb (str_lower e) (str_lower ext)) (snd entry).

(** The resolver as the specification words it: the first entry, in table
    order, that owns the extension; the sentinel otherwise. *)
Definition resolve (str_lower : string -> string) (t : table) (ext : string) : string :=
  match List.find (owns str_lower ext) t with
  | Some entry => fst entry
  | None => "Other"
  end.

(** A case folding for the worked examples: [str.lower] on ASCII text,
    where it turns the letters [A]-[Z] into [a]-[z] and nothing else. *)
Definition lower_char (c : ascii) : ascii :=
  let n := nat_of_ascii c in
  if ((65 <=? n)%nat && (n <=? 90)%nat)%bool then ascii_of_nat (n + 32) else c.

Fixpoint lower_plain (s : string) : string :=
  match s with
  | EmptyString => EmptyString
  | String c s' => String (lower_char c) (lower_plain s')
  end.

(** The [N]-th candidate probed for [target_path]: [parent/stem_N+suffix]. *)
Definition numbered (target_path : path) (N : nat) : path :=
  Path.parent target_path
    ++ [(Path.stem target_path ++ "_" ++ Str.of_nat N ++ Path.suffix target_path)%string].

(** A regex engine for the worked examples: the fragment of [re.search] on
    patterns made of plain characters, which match when they occur in the
    name up to letter case.  The pattern ["("], an unbalanced parenthesis,
    does not compile. *)
Definition re_search_plain (p filename : string) : option bool :=
  if String.eqb p "(" then None
  else Some (match String.index 0 (lower_plain p) (lower_plain filename) with
             | Some _ => true
             | None => false
             end).

(** The second scenario of the specification, and variations on it. *)
Definition two_files : filesystem :=
  [ (["src"], Dir);
    (["src"; "photo.jpg"], File 2000 (Text "photo"));
    (["src"; "notes.txt"], File 500 (Text "notes")) ].

Definition exclude_unbalanced : options :=
  mkOptions false false false None (Some "(") None None.

Definition broken_config : filesystem :=
  [ (["cfg.json"], File 1 (Text "{")) ].

(** A ledger entry is a JSON object; a complete one carries the three
    fields the undo engine reads. *)
Definition is_record (r : json) : bool :=
  match r with JObj _ => true | _ => false end.

Definition field (r : json) (k : string) : json :=
  match Json.getitem r k with Ok v => v | Raise _ => JNull end.

Definition complete_record (r : json) : bool :=
  match Json.getitem r "source", Json.getitem r "destination",
        Json.getitem r "operation" with
  | Ok _, Ok _, Ok _ => true
  | _, _, _ => false
  end.







(** The world after the two files of the scenario were moved to [/out]. *)
Definition moved_world : filesystem :=
  [ (["src"], Dir); (["out"], Dir); (["out"; "Images"], Dir);
    (["out"; "Images"; "photo.jpg"], File 2000 (Text "photo"));
    (["out"; "Documents"], Dir);
    (["out"; "Documents"; "notes.txt"], File 500 (Text "notes")) ].

Definition photo_record : json :=
  JObj [ ("timestamp", JStr "0"); ("operation", JStr "move");
         ("source", JStr "/src/photo.jpg");
         ("destination", JStr "/out/Images/photo.jpg");
         ("category", JStr "Images") ].

(** The same world after a copy instead: the originals are still there. *)
Definition copied_world : filesystem :=
  [ (["src"], Dir);
    (["src"; "photo.jpg"], File 2000 (Text "photo"));
    (["src"; "notes.txt"], File 500 (Text "notes"));
    (["out"], Dir); (["out"; "Images"], Dir);
    (["out"; "Images"; "photo.jpg"], File 2000 (Text "photo"));
    (["out"; "Documents"], Dir);
    (["out"; "Documents"; "notes.txt"], File 500 (Text "notes")) ].

Definition notes_copy_record : json :=
  JObj [ ("timestamp", JStr "1"); ("operation", JStr "copy");
         ("source", JStr "/src/notes.txt");
         ("destination", JStr "/out/Documents/notes.txt");
         ("category", JStr "Documents") ].

(** The ledger of the move of [photo.jpg], on disk, after the source
    directory was replaced by a regular file. *)
Definition photo_ledger : json :=
  JObj [ ("session_info", JObj [("timestamp", JStr "1"); ("total_operations", JNum 1)]);
         ("operations", JArr [photo_record]) ].

Definition source_taken : filesystem :=
  [ (["src"], File 1 (Text "x"));
    (["out"], Dir); (["out"; "Images"], Dir);
    (["out"; "Images"; "photo.jpg"], File 2000 (Text "photo"));
    (["log.json"], File 2 (Doc photo_ledger)) ].



(** The scenario with a regular file where the [Images] directory should
    go: the transfer of [photo.jpg] fails. *)
Definition blocked_world : filesystem :=
  [ (["src"], Dir);
    (["src"; "photo.jpg"], File 2000 (Text "photo"));
    (["src"; "notes.txt"], File 500 (Text "notes"));
    (["out"], Dir);
    (["out"; "Images"], File 1 (Text "x")) ].

(** A destination where [a.txt], and then also [a_1.txt], is taken. *)
Definition taken_once : filesystem :=
  [ (["dest"], Dir); (["dest"; "a.txt"], File 1 (Text "a")) ].

Definition taken_twice : filesystem :=
  [ (["dest"], Dir); (["dest"; "a.txt"], File 1 (Text "a"));
    (["dest"; "a_1.txt"], File 1 (Text "b")) ].

(** The actions a dry run reports, read off the console, and the actions a
    live run executed, read off the ledger. *)
Definition planned (evs : list event) : list (path * path) :=
  flat_map (fun ev => match ev with
                      | Print_dry_run _ file_path target_file => [(file_path, target_file)]
                      | _ => []
                      end) evs.

Definition executed (ledger : list json) : list (json * json) :=
  map (fun r => (field r "source", field r "destination")) ledger.

Definition as_text (a : path * path) : json * json :=
  (JStr (Path.to_str (fst a)), JStr (Path.to_str (snd a))).

(** The candidate passes the three filters. *)
Definition passes (re_search : string -> string -> option bool) (o : options)
  (f : filesystem) (file_path : path) : bool :=
  match pattern o with
  | Some (String _ _ as p) =>
      match re_search p (Path.name file_path) with Some b => b | None => true end
  | _ => true
  end
  && negb (match exclude_pattern o with
           | Some (String _ _ as p) =>
               match re_search p (Path.name file_path) with Some b => b | None => true end
           | _ => false
           end)
  && check_file_size f file_path (min_size o) (max_size o).

(** What a dry run announces for one candidate: the target uniquified
    against the filesystem as it stands. *)
Definition intended (re_search : string -> string -> option bool)
  (str_lower : string -> string) (o : options)
  (types : json) (f : filesystem) (dest_path file_path : path)
  : list (path * path) :=
  if passes re_search o f file_path then
    match get_category str_lower types (Path.suffix file_path) with
    | Ok cat =>
        [(file_path,
          get_unique_filename f (Path.join dest_path cat ++ [Path.name file_path]))]
    | Raise _ => []
    end
  else [].

Definition set_dry_run (b : bool) (o : options) : options :=
  mkOptions b (recursive o) (copy_files o) (pattern o) (exclude_pattern o)
            (min_size o) (max_size o).

(** Two files of the same name in two subdirectories, organised recursively. *)
Definition same_names : filesystem :=
  [ (["s"], Dir); (["s"; "x"], Dir); (["s"; "y"], Dir);
    (["s"; "x"; "a.txt"], File 1 (Text "1"));
    (["s"; "y"; "a.txt"], File 2 (Text "2")) ].

Definition recursive_options : options :=
  mkOptions false true false None None None None.

(** A directory organised into itself, holding a file named like a category. *)
Definition in_place : filesystem :=
  [ (["s"], Dir);
    (["s"; "Images"], File 7 (Text "x"));
    (["s"; "a.jpg"], File 9 (Text "y")) ].

(** Organise, persist the ledger, undo. *)
Definition round_trip (re_search : string -> string -> option bool)
  (str_lower : string -> string)
  (source destination log_file : string) (o : options) (s : state)
  : result Z * state :=
  let s1 := snd (organize_files re_search str_lower source destination o s) in
  undo_operations log_file false (snd (save_undo_log log_file s1)).

(** Names as a filesystem has them: not empty, not [.], without a slash. *)
Fixpoint no_slash (s : string) : bool :=
  match s with
  | EmptyString => true
  | String c s' => negb (Ascii.eqb c "/"%char) && no_slash s'
  end.

Definition proper (c : string) : bool :=
  negb (String.eqb c EmptyString || String.eqb c ".") && no_slash c.

Definition proper_path (p : path) : bool := forallb proper p.

(** A category table whose category names can name a directory. *)
Definition simple_table (t : table) : bool :=
  forallb (fun entry => proper (fst entry)) t.

Fixpoint distinct (l : list path) : bool :=
  match l with
  | [] => true
  | p :: rest => negb (existsb (Path.eqb p) rest) && distinct rest
  end.

(** A filesystem as a real one is: one entry per path, proper names, and
    every entry inside directories. *)
Definition well_formed (f : filesystem) : bool :=
  distinct (map fst f)
  && forallb (fun e => negb (Path.eqb (fst e) [])
                       && proper_path (fst e)
                       && forallb (Fs.is_dir f) (Path.prefixes (Path.parent (fst e)))) f.

(** [q] is [p] or lies above it. *)
Definition ancestor_of (q p : path) : Prop := exists rest, p = q ++ rest.

(** The paths where a run may create directories: a category directory of
    the destination, or something above one. *)
Definition category_dir (dest_path p : path) : Prop :=
  p <> [] /\ exists c, ancestor_of p (dest_path ++ [c]).

(** [g] holds everything [f] holds, unchanged, and maybe something more at
    paths allowed by [X] where [f] holds nothing. *)
Definition extends_at (X : path -> Prop) (f g : filesystem) : Prop :=
  forall p, Fs.node_at g p = Fs.node_at f p \/ (Fs.node_at f p = None /\ X p).

(** A move without filters, as the round-trip property assumes. *)
Definition plain_move (o : options) : Prop :=
  dry_run o = false /\ copy_files o = false /\ pattern o = None
  /\ exclude_pattern o = None /\ min_size o = None /\ max_size o = None.

(** The category directory chosen for a candidate under a typed table. *)
Definition category_dir_of (str_lower : string -> string) (t : table)
  (dest_path file_path : path) : path :=
  dest_path ++ [resolve str_lower t (Path.suffix file_path)].

(** What the round trip needs of a candidate: a regular file with a proper
    path, inside directories, away from the paths where extras may sit. *)
Definition candidate_ok (X : path -> Prop) (f : filesystem) (g : path) : Prop :=
  (exists sz d, Fs.node_at f g = Some (File sz d))
  /\ proper_path g = true
  /\ (forall q, In q (Path.prefixes (Path.parent g)) -> Fs.node_at f q = Some Dir)
  /\ ~ X g.

(** A path two levels below the destination: where transferred files go. *)
Definition transferred_path (dest_path p : path) : Prop :=
  exists c x, p = dest_path ++ [c; x].

(** ** Further vocabulary *)


(** A configuration file holding a two-category table. *)
Definition custom_table : table :=
  [ ("Pictures", [".JPG"; ".png"]); ("Texts", [".txt"]) ].

Definition configured_world : filesystem :=
  [ (["cfg.json"], File 2 (Doc (json_of_table custom_table)));
    (["src"], Dir);
    (["src"; "photo.jpg"], File 2000 (Text "photo")) ].

Definition dry_options : options :=
  mkOptions true false false None None None None.

Definition copy_options : options :=
  mkOptions false false true None None None None.


(** A ledger on disk whose middle record lost its [destination]. *)
Definition damaged_record : json :=
  JObj [ ("timestamp", JStr "1"); ("operation", JStr "move");
         ("source", JStr "/src/notes.txt"); ("category", JStr "Documents") ].

Definition damaged_world : filesystem :=
  moved_world
  ++ [ (["log.json"],
        File 2 (Doc (JObj [ ("operations",
                             JArr [notes_copy_record; damaged_record; photo_record]) ]))) ].

(** The outcome of one iteration on a candidate that is a regular file:
    either nothing is transferred, and then the ledger, the transferred
    counter and the filesystem stand; or the category directory is made and
    the file is transferred to a free name inside it, and then one record is
    appended, no entry other than the candidate is changed, and the
    candidate stays exactly when the run copies. *)
Inductive step_outcome (str_lower : string -> string) (o : options)
  (dest_path g : path) (sz : Z) (d : contents)
  (moved : Z) (s : state) (moved' : Z) (s' : state) : Prop :=
| step_kept :
    operations_log s' = operations_log s ->
    moved' = moved ->
    (forall p n, Fs.node_at (fs s) p = Some n -> Fs.node_at (fs s') p = Some n) ->
    (forall p, Fs.node_at (fs s) p = None ->
               Fs.node_at (fs s') p = None \/ Fs.node_at (fs s') p = Some Dir) ->
    fs s' = fs s ->
    step_outcome str_lower o dest_path g sz d moved s moved' s'
| step_transferred (r : json) (target : path) :
    dry_run o = false ->
    operations_log s' = operations_log s ++ [r] ->
    moved' = (moved + 1)%Z ->
    field r "source" = JStr (Path.to_str g) ->
    field r "destination" = JStr (Path.to_str target) ->
    field r "operation" = JStr (if copy_files o then "copy" else "move") ->
    Fs.node_at (fs s) target = None ->
    Fs.node_at (fs s') target = Some (File sz d) ->
    Fs.node_at (fs s') g = (if copy_files o then Some (File sz d) else None) ->
    (forall p n, p <> g -> Fs.node_at (fs s) p = Some n ->
                 Fs.node_at (fs s') p = Some n) ->
    (forall p, p <> target -> Fs.node_at (fs s) p = None ->
               Fs.node_at (fs s') p = None \/ Fs.node_at (fs s') p = Some Dir) ->
    (exists cat x f1,
        get_category str_lower (file_types s) (Path.suffix g) = Ok cat
        /\ target = Path.join dest_path cat ++ [x]
        /\ (proper (Path.name g) = true -> proper x = true)
        /\ Fs.mkdir_parents (Path.join dest_path cat) (fs s) = Ok f1
        /\ fs s' = (if copy_files o then Fs.put target (File sz d) f1
                   else Fs.put target (File sz d) (Fs.remove g f1))) ->
    step_outcome str_lower o dest_path g sz d moved s moved' s'.

(** * Properties *)

(** ** Strings and paths *)

Lemma string_append_length (a b : string) :
  String.length (a ++ b)%string = String.length a + String.length b.
Proof.
  induction a as [|c a IH]; simpl; [reflexivity | now rewrite IH].
Qed.

Lemma string_append_inv_head (a x y : string) :
  (a ++ x)%string = (a ++ y)%string -> x = y.
Proof.
  induction a as [|c a IH]; simpl; intros H; [exact H|].
  injection H as H. now apply IH.
Qed.

Lemma string_append_inv_tail (s x y : string) :
  (x ++ s)%string = (y ++ s)%string -> x = y.
Proof.
  revert y. induction x as [|c x IH]; intros [|d y] H; simpl in H.
  - reflexivity.
  - apply (f_equal String.length) in H. simpl in H.
    rewrite string_append_length in H. lia.
  - apply (f_equal String.length) in H. simpl in H.
    rewrite string_append_length in H. lia.
  - injection H as Hc H. subst d. f_equal. now apply IH.
Qed.

Lemma of_nat_inj (a b : nat) : Str.of_nat a = Str.of_nat b -> a = b.
Proof.
  unfold Str.of_nat. intros H.
  apply (f_equal NilEmpty.uint_of_string) in H.
  rewrite !NilEmpty.usu in H. injection H as H.
  apply (f_equal Nat.of_uint) in H. now rewrite !Unsigned.of_to in H.
Qed.

Lemma path_eqb_eq (p q : path) : Path.eqb p q = true <-> p = q.
Proof.
  unfold Path.eqb. destruct (list_eq_dec string_dec p q); split; congruence.
Qed.

Lemma path_eqb_refl (p : path) : Path.eqb p p = true.
Proof. now apply path_eqb_eq. Qed.

Lemma path_eqb_neq (p q : path) : Path.eqb p q = false <-> p <> q.
Proof.
  unfold Path.eqb. destruct (list_eq_dec string_dec p q); split; congruence.
Qed.

Lemma numbered_inj (t : path) (a b : nat) : numbered t a = numbered t b -> a = b.
Proof.
  unfold numbered. intros H. apply app_inv_head in H. injection H as H.
  apply string_append_inv_head in H. simpl in H. injection H as H.
  apply string_append_inv_tail in H. now apply of_nat_inj.
Qed.

(** ** The category resolver *)

Section Resolver_facts.

Variable str_lower : string -> string.

Lemma lower_all_strings (l : list string) :
  Json.lower_all str_lower (map JStr l) = Ok (map str_lower l).
Proof.
  induction l as [|e l IH]; simpl; [reflexivity | now rewrite IH].
Qed.

Lemma mem_lower_owns (ext category : string) (exts : list string) :
  Str.mem (str_lower ext) (map str_lower exts) = owns str_lower ext (category, exts).
Proof.
  unfold Str.mem, owns. simpl. induction exts as [|e l IH]; simpl; [reflexivity|].
  rewrite IH. f_equal. apply String.eqb_sym.
Qed.

Lemma get_category_items_resolve (t : table) (ext : string) :
  get_category_items str_lower
    (map (fun ce => (fst ce, JArr (map JStr (snd ce)))) t) (str_lower ext)
  = Ok (resolve str_lower t ext).
Proof.
  unfold resolve. induction t as [|[c exts] t IH]; simpl; [reflexivity|].
  rewrite lower_all_strings, (mem_lower_owns ext c exts).
  destruct (owns str_lower ext (c, exts)); [reflexivity | exact IH].
Qed.

Lemma owns_lower (a b : string) (entry : string * list string) :
  str_lower a = str_lower b -> owns str_lower a entry = owns str_lower b entry.
Proof. unfold owns. now intros ->. Qed.

Lemma get_category_resolve (t : table) (ext : string) :
  get_category str_lower (json_of_table t) ext = Ok (resolve str_lower t ext).
Proof. unfold get_category, json_of_table. apply get_category_items_resolve. Qed.

Lemma resolve_lower (t : table) (a b : string) :
  str_lower a = str_lower b -> resolve str_lower t a = resolve str_lower t b.
Proof.
  intros Hl. unfold resolve.
  replace (List.find (owns str_lower a) t) with (List.find (owns str_lower b) t);
    [reflexivity|].
  induction t as [|e t IH]; simpl; [reflexivity|].
  rewrite (owns_lower a b e Hl). destruct (owns str_lower b e); [reflexivity | exact IH].
Qed.

End Resolver_facts.

Lemma find_first {A : Type} (f : A -> bool) (l : list A) (x : A) :
  List.find f l = Some x ->
  exists pre post, l = pre ++ x :: post /\ f x = true /\ forallb (fun y => negb (f y)) pre = true.
Proof.
  induction l as [|a l IH]; simpl; [discriminate|].
  destruct (f a) eqn:Ha.
  - intros [= ->]. now exists [], l.
  - intros H. destruct (IH H) as (pre & post & -> & Hx & Hpre).
    exists (a :: pre), post. simpl. now rewrite Ha, Hpre.
Qed.

Lemma find_none_forallb {A : Type} (f : A -> bool) (l : list A) :
  List.find f l = None -> forallb (fun y => negb (f y)) l = true.
Proof.
  induction l as [|a l IH]; simpl; [reflexivity|].
  destruct (f a); [discriminate | exact IH].
Qed.

(** C4. Whatever the case folding [str.lower] of the runtime is,
    [get_category] is total on every category table and every extension
    string, and raises nothing: it returns the first category, in table
    order, one of whose extensions has the case folding of the input, and
    ["Other"] when no category has one.  The comparison is between case
    foldings on both sides, so two spellings with the same case folding
    resolve identically, as [.JPG] and [.jpg] do, and an extension resolves
    to the category that lists any spelling of it, unless an earlier category
    lists one too. *)
Theorem get_category_first_match (str_lower : string -> string) (t : table)
  (ext : string) :
  get_category str_lower (json_of_table t) ext = Ok (resolve str_lower t ext)
  /\ ((exists pre category exts post,
         t = pre ++ (category, exts) :: post
         /\ (exists e, In e exts /\ str_lower e = str_lower ext)
         /\ (forall c es e, In (c, es) pre -> In e es -> str_lower e <> str_lower ext)
         /\ get_category str_lower (json_of_table t) ext = Ok category)
      \/ ((forall c es e, In (c, es) t -> In e es -> str_lower e <> str_lower ext)
          /\ get_category str_lower (json_of_table t) ext = Ok "Other"))
  /\ (forall ext', str_lower ext' = str_lower ext ->
        get_category str_lower (json_of_table t) ext'
        = get_category str_lower (json_of_table t) ext)
  /\ (str_lower ".JPG" = str_lower ".jpg" ->
      get_category str_lower (json_of_table t) ".JPG"
      = get_category str_lower (json_of_table t) ".jpg").
Proof.
  assert (Hres := get_category_resolve str_lower t).
  assert (Hnot : forall l : table,
            forallb (fun e => negb (owns str_lower ext e)) l = true ->
            forall c es e, In (c, es) l -> In e es -> str_lower e <> str_lower ext).
  { intros l Hl c es e Hin He Heq. rewrite forallb_forall in Hl.
    specialize (Hl _ Hin). apply negb_true_iff in Hl.
    unfold owns in Hl. cbn [snd] in Hl.
    assert (Hex : existsb (fun e0 => String.eqb (str_lower e0) (str_lower ext)) es = true).
    { apply existsb_exists. exists e. split; [exact He|]. now apply String.eqb_eq. }
    congruence. }
  split; [apply Hres|]. split; [|split].
  - rewrite Hres. unfold resolve.
    destruct (List.find (owns str_lower ext) t) as [[c exts]|] eqn:Hf.
    + left. destruct (find_first _ _ _ Hf) as (pre & post & Ht & Ho & Hpre).
      exists pre, c, exts, post. split; [exact Ht|]. split; [|split].
      * unfold owns in Ho. cbn [snd] in Ho. apply existsb_exists in Ho.
        destruct Ho as (e & He & Heq). exists e. split; [exact He|].
        now apply String.eqb_eq.
      * now apply Hnot.
      * reflexivity.
    + right. split; [|reflexivity]. apply Hnot. now apply find_none_forallb.
  - intros ext' Hl. rewrite !Hres. f_equal. now apply resolve_lower.
  - intros Hl. rewrite !Hres. f_equal. now apply resolve_lower.
Qed.

Lemma get_category_first_match_witness :
  get_category lower_plain (json_of_table DEFAULT_FILE_TYPES) ".JPG"
  = get_category lower_plain (json_of_table DEFAULT_FILE_TYPES) ".jpg".
Proof.
  apply (proj2 (proj2 (proj2
           (get_category_first_match lower_plain DEFAULT_FILE_TYPES ".jpg")))).
  reflexivity.
Defined.

Example get_category_known :
  get_category lower_plain (json_of_table DEFAULT_FILE_TYPES) ".JPG" = Ok "Images".
Proof. reflexivity. Qed.

Example get_category_unknown :
  get_category lower_plain (json_of_table DEFAULT_FILE_TYPES) ".xyz" = Ok "Other".
Proof. reflexivity. Qed.

(** ** The collision-free namer *)

Lemma find_some_in (f : filesystem) (p : path) (n : node) :
  Fs.find f p = Some n -> In p (map fst f).
Proof.
  induction f as [|[q m] f IH]; simpl; [discriminate|].
  destruct (Path.eqb q p) eqn:E.
  - apply path_eqb_eq in E. auto.
  - intros H. right. now apply IH.
Qed.

Lemma exists_in (f : filesystem) (p : path) :
  p <> [] -> Fs.exists_ f p = true -> In p (map fst f).
Proof.
  unfold Fs.exists_, Fs.node_at. destruct p as [|c p]; [congruence|].
  intros _. destruct (Fs.find f (c :: p)) eqn:E; [|discriminate].
  intros _. eapply find_some_in; eauto.
Qed.

Lemma numbered_nonroot (t : path) (N : nat) : numbered t N <> [].
Proof. unfold numbered. intros H. now apply app_eq_nil in H as [_ H]. Qed.

Lemma probe_step (fuel : nat) (f : filesystem) (t : path) (c : nat) :
  probe (S fuel) f (Path.parent t) (Path.stem t) (Path.suffix t) c
  = if negb (Fs.exists_ f (numbered t c)) then Some (numbered t c)
    else probe fuel f (Path.parent t) (Path.stem t) (Path.suffix t) (S c).
Proof. reflexivity. Qed.

Lemma probe_some (fuel : nat) (f : filesystem) (t : path) (c : nat) (p : path) :
  probe fuel f (Path.parent t) (Path.stem t) (Path.suffix t) c = Some p ->
  exists N, c <= N < c + fuel /\ p = numbered t N
            /\ Fs.exists_ f (numbered t N) = false
            /\ forall k, c <= k < N -> Fs.exists_ f (numbered t k) = true.
Proof.
  revert c. induction fuel as [|fuel IH]; intros c; [discriminate|].
  rewrite probe_step.
  destruct (Fs.exists_ f (numbered t c)) eqn:E; simpl.
  - intros H. destruct (IH _ H) as (N & HN & Hp & Hfree & Hocc).
    exists N. split; [lia|]. split; [exact Hp|]. split; [exact Hfree|].
    intros k Hk. destruct (Nat.eq_dec k c) as [->|]; [exact E|]. apply Hocc. lia.
  - intros [= <-]. exists c. split; [lia|]. split; [reflexivity|]. split; [exact E|].
    intros k Hk. lia.
Qed.

Lemma probe_none (fuel : nat) (f : filesystem) (t : path) (c : nat) :
  probe fuel f (Path.parent t) (Path.stem t) (Path.suffix t) c = None ->
  forall k, c <= k < c + fuel -> Fs.exists_ f (numbered t k) = true.
Proof.
  revert c. induction fuel as [|fuel IH]; intros c; [intros _ k Hk; lia|].
  rewrite probe_step.
  destruct (Fs.exists_ f (numbered t c)) eqn:E; simpl; [|discriminate].
  intros H k Hk. destruct (Nat.eq_dec k c) as [->|]; [exact E|]. apply (IH _ H). lia.
Qed.

(** The loop terminates: among [S (length f)] distinct candidates one is
    absent from the filesystem. *)
Lemma probe_finds (f : filesystem) (t : path) (c : nat) :
  exists p, probe (S (List.length f)) f (Path.parent t) (Path.stem t) (Path.suffix t) c
            = Some p.
Proof.
  destruct (probe (S (List.length f)) f (Path.parent t) (Path.stem t)
                  (Path.suffix t) c) as [p|] eqn:E; [now exists p|].
  exfalso. pose proof (probe_none _ _ _ _ E) as Hocc.
  set (cands := map (numbered t) (seq c (S (List.length f)))).
  assert (Hnd : NoDup cands).
  { apply Injective_map_NoDup; [|apply seq_NoDup].
    intros a b. apply numbered_inj. }
  assert (Hincl : incl cands (map fst f)).
  { intros p Hp. apply in_map_iff in Hp as (k & <- & Hk). apply in_seq in Hk.
    apply exists_in; [apply numbered_nonroot | apply Hocc; lia]. }
  pose proof (NoDup_incl_length Hnd Hincl) as Hlen.
  unfold cands in Hlen. rewrite length_map, length_seq, length_map in Hlen. lia.
Qed.

Lemma probe_reaches (f : filesystem) (t : path) (N fuel c : nat) :
  c <= N < c + fuel ->
  Fs.exists_ f (numbered t N) = false ->
  (forall k, c <= k < N -> Fs.exists_ f (numbered t k) = true) ->
  probe fuel f (Path.parent t) (Path.stem t) (Path.suffix t) c = Some (numbered t N).
Proof.
  revert c. induction fuel as [|fuel IH]; intros c Hc Hfree Hocc; [lia|].
  rewrite probe_step. destruct (Nat.eq_dec c N) as [->|Hne].
  - now rewrite Hfree.
  - rewrite Hocc by lia. simpl. apply IH; [lia | exact Hfree |].
    intros k Hk. apply Hocc. lia.
Qed.

(** More fuel than that changes nothing: the bound is not felt. *)
Lemma probe_fuel_irrelevant (fuel : nat) (f : filesystem) (t : path) (c : nat) :
  List.length f < fuel ->
  probe fuel f (Path.parent t) (Path.stem t) (Path.suffix t) c
  = probe (S (List.length f)) f (Path.parent t) (Path.stem t) (Path.suffix t) c.
Proof.
  intros Hfuel. destruct (probe_finds f t c) as (p & Hp). rewrite Hp.
  destruct (probe_some _ _ _ _ _ Hp) as (N & HN & -> & Hfree & Hocc).
  apply probe_reaches; [lia | exact Hfree | exact Hocc].
Qed.

(** C3. [get_unique_filename] returns its argument unchanged when nothing
    exists there; otherwise it terminates with [parent/stem_N+suffix] for the
    least [N >= 1] whose candidate does not exist.  As a function of the
    filesystem state and the path it is deterministic. *)
Theorem get_unique_filename_least (f : filesystem) (target_path : path) :
  (Fs.exists_ f target_path = false ->
     get_unique_filename f target_path = target_path)
  /\ (Fs.exists_ f target_path = true ->
        exists N, 1 <= N
          /\ get_unique_filename f target_path = numbered target_path N
          /\ Fs.exists_ f (numbered target_path N) = false
          /\ forall k, 1 <= k < N -> Fs.exists_ f (numbered target_path k) = true)
  /\ (forall f', f' = f ->
        get_unique_filename f' target_path = get_unique_filename f target_path).
Proof.
  unfold get_unique_filename. split; [|split].
  - now intros ->.
  - intros ->. cbn [negb]. destruct (probe_finds f target_path 1) as (p & Hp).
    rewrite Hp. destruct (probe_some _ _ _ _ _ Hp) as (N & HN & -> & Hfree & Hocc).
    exists N. split; [lia|]. split; [reflexivity|]. split; [exact Hfree|].
    intros k Hk. apply Hocc. lia.
  - now intros f' ->.
Qed.

Lemma get_unique_filename_least_witness :
  get_unique_filename two_files ["out"; "a.txt"] = ["out"; "a.txt"]
  /\ exists N, 1 <= N
       /\ get_unique_filename taken_twice ["dest"; "a.txt"]
          = numbered ["dest"; "a.txt"] N
       /\ Fs.exists_ taken_twice (numbered ["dest"; "a.txt"] N) = false
       /\ forall k, 1 <= k < N ->
                    Fs.exists_ taken_twice (numbered ["dest"; "a.txt"] k) = true.
Proof.
  split.
  - apply (proj1 (get_unique_filename_least two_files ["out"; "a.txt"])). reflexivity.
  - apply (proj1 (proj2 (get_unique_filename_least taken_twice ["dest"; "a.txt"]))).
    reflexivity.
Defined.

Example get_unique_filename_first :
  get_unique_filename taken_once ["dest"; "a.txt"] = ["dest"; "a_1.txt"].
Proof. reflexivity. Qed.

Example get_unique_filename_second :
  get_unique_filename taken_twice ["dest"; "a.txt"] = ["dest"; "a_2.txt"].
Proof. reflexivity. Qed.

(** ** The filesystem operations *)

Lemma find_put_eq (f : filesystem) (p : path) (n : node) :
  Fs.find (Fs.put p n f) p = Some n.
Proof.
  induction f as [|[q m] f IH]; simpl.
  - now rewrite path_eqb_refl.
  - destruct (Path.eqb q p) eqn:E; simpl; rewrite E; [reflexivity | exact IH].
Qed.

Lemma find_put_ne (f : filesystem) (p q : path) (n : node) :
  p <> q -> Fs.find (Fs.put p n f) q = Fs.find f q.
Proof.
  intros Hne. induction f as [|[r m] f IH]; simpl.
  - apply path_eqb_neq in Hne. now rewrite Hne.
  - destruct (Path.eqb r p) eqn:E; simpl.
    + apply path_eqb_eq in E. subst r. apply path_eqb_neq in Hne. now rewrite Hne.
    + destruct (Path.eqb r q); [reflexivity | exact IH].
Qed.

Lemma find_remove_eq (f : filesystem) (p : path) : Fs.find (Fs.remove p f) p = None.
Proof.
  induction f as [|[q m] f IH]; simpl; [reflexivity|].
  destruct (Path.eqb q p) eqn:E; simpl; [exact IH | now rewrite E].
Qed.

Lemma find_remove_ne (f : filesystem) (p q : path) :
  p <> q -> Fs.find (Fs.remove p f) q = Fs.find f q.
Proof.
  intros Hne. induction f as [|[r m] f IH]; simpl; [reflexivity|].
  destruct (Path.eqb r p) eqn:E; simpl.
  - apply path_eqb_eq in E. subst r. apply path_eqb_neq in Hne. now rewrite Hne.
  - destruct (Path.eqb r q); [reflexivity | exact IH].
Qed.

Lemma node_at_put_eq (f : filesystem) (p : path) (n : node) :
  p <> [] -> Fs.node_at (Fs.put p n f) p = Some n.
Proof. destruct p; [congruence|]. intros _. apply find_put_eq. Qed.

Lemma node_at_put_ne (f : filesystem) (p q : path) (n : node) :
  p <> q -> Fs.node_at (Fs.put p n f) q = Fs.node_at f q.
Proof. intros H. destruct q; [reflexivity|]. now apply find_put_ne. Qed.

Lemma node_at_remove_eq (f : filesystem) (p : path) :
  p <> [] -> Fs.node_at (Fs.remove p f) p = None.
Proof. destruct p; [congruence|]. intros _. apply find_remove_eq. Qed.

Lemma node_at_remove_ne (f : filesystem) (p q : path) :
  p <> q -> Fs.node_at (Fs.remove p f) q = Fs.node_at f q.
Proof. intros H. destruct q; [reflexivity|]. now apply find_remove_ne. Qed.

(** Creating directories leaves every existing entry as it is. *)
Lemma mkdir_one_keeps (f : filesystem) (q p : path) (n : node) :
  Fs.node_at f p = Some n -> Fs.node_at (Fs.mkdir_one f q) p = Some n.
Proof.
  intros H. unfold Fs.mkdir_one. destruct (Fs.node_at f q) eqn:E; [exact H|].
  rewrite node_at_put_ne; [exact H|]. intros ->. congruence.
Qed.

Lemma mkdir_fold_keeps (qs : list path) (f : filesystem) (p : path) (n : node) :
  Fs.node_at f p = Some n -> Fs.node_at (fold_left Fs.mkdir_one qs f) p = Some n.
Proof.
  revert f. induction qs as [|q qs IH]; intros f H; simpl; [exact H|].
  apply IH. now apply mkdir_one_keeps.
Qed.

(** What directory creation adds is a directory, at one of the paths asked. *)
Lemma mkdir_one_new (f : filesystem) (q p : path) :
  Fs.node_at f p = None ->
  Fs.node_at (Fs.mkdir_one f q) p = None
  \/ (p = q /\ Fs.node_at (Fs.mkdir_one f q) p = Some Dir).
Proof.
  intros H. unfold Fs.mkdir_one. destruct (Fs.node_at f q) eqn:E; [now left|].
  destruct (list_eq_dec string_dec q p) as [->|Hne].
  - right. split; [reflexivity|]. apply node_at_put_eq. intros ->. discriminate.
  - left. now rewrite node_at_put_ne.
Qed.

Lemma mkdir_fold_new (qs : list path) (f : filesystem) (p : path) :
  Fs.node_at f p = None ->
  Fs.node_at (fold_left Fs.mkdir_one qs f) p = None
  \/ (In p qs /\ Fs.node_at (fold_left Fs.mkdir_one qs f) p = Some Dir).
Proof.
  revert f. induction qs as [|q qs IH]; intros f H; simpl; [now left|].
  destruct (mkdir_one_new f q p H) as [Hn|[-> Hd]].
  - destruct (IH _ Hn) as [?|[? ?]]; [now left | right; auto].
  - right. split; [now left|]. now apply mkdir_fold_keeps.
Qed.

Lemma mkdir_parents_keeps (p : path) (f f' : filesystem) (q : path) (n : node) :
  Fs.mkdir_parents p f = Ok f' -> Fs.node_at f q = Some n -> Fs.node_at f' q = Some n.
Proof.
  unfold Fs.mkdir_parents.
  destruct (existsb _ _); [discriminate|]. destruct (Fs.is_file f p); [discriminate|].
  intros [= <-]. apply mkdir_fold_keeps.
Qed.

Lemma mkdir_parents_new (p : path) (f f' : filesystem) (q : path) :
  Fs.mkdir_parents p f = Ok f' -> Fs.node_at f q = None ->
  Fs.node_at f' q = None \/ (In q (Path.prefixes p) /\ Fs.node_at f' q = Some Dir).
Proof.
  unfold Fs.mkdir_parents.
  destruct (existsb _ _); [discriminate|]. destruct (Fs.is_file f p); [discriminate|].
  intros [= <-]. apply mkdir_fold_new.
Qed.

Lemma mkdir_parents_raise (p : path) (f : filesystem) (e : exn) :
  Fs.mkdir_parents p f = Raise e -> e = NotADirectoryError \/ e = FileExistsError.
Proof.
  unfold Fs.mkdir_parents.
  destruct (existsb _ _); [intros [= <-]; now left|].
  destruct (Fs.is_file f p); [intros [= <-]; now right | discriminate].
Qed.

Lemma prefixes_from_last (base p : path) :
  p <> [] -> In (base ++ p) (Path.prefixes_from base p).
Proof.
  revert base. induction p as [|c p IH]; intros base Hp; [congruence|]. simpl.
  destruct p as [|d p]; [now left|]. right.
  replace (base ++ c :: d :: p) with ((base ++ [c]) ++ d :: p)
    by now rewrite <- app_assoc.
  apply IH. discriminate.
Qed.

Lemma prefixes_self (p : path) : p <> [] -> In p (Path.prefixes p).
Proof. intros Hp. exact (prefixes_from_last [] p Hp). Qed.

Lemma prefixes_from_shape (base p q : path) :
  In q (Path.prefixes_from base p) ->
  exists a b, p = a ++ b /\ a <> [] /\ q = base ++ a.
Proof.
  revert base. induction p as [|c p IH]; intros base; simpl; [tauto|].
  intros [<-|H].
  - exists [c], p. repeat split; auto. discriminate.
  - destruct (IH _ H) as (a & b & -> & Ha & ->).
    exists (c :: a), b. repeat split; [discriminate | now rewrite <- app_assoc].
Qed.

Lemma prefixes_shape (p q : path) :
  In q (Path.prefixes p) -> exists a b, p = a ++ b /\ a <> [] /\ q = a.
Proof. intros H. exact (prefixes_from_shape [] p q H). Qed.

Lemma prefixes_nonroot (p q : path) : In q (Path.prefixes p) -> q <> [].
Proof. intros H. destruct (prefixes_shape _ _ H) as (a & b & _ & Ha & ->). exact Ha. Qed.

Lemma prefixes_length (p q : path) :
  In q (Path.prefixes p) -> List.length q <= List.length p.
Proof.
  intros H. destruct (prefixes_shape _ _ H) as (a & b & -> & _ & ->).
  rewrite length_app. lia.
Qed.

Lemma is_file_mkdir_one (f : filesystem) (q p : path) :
  Fs.is_file (Fs.mkdir_one f q) p = Fs.is_file f p.
Proof.
  unfold Fs.is_file. destruct (Fs.node_at f p) as [n|] eqn:E.
  - now rewrite (mkdir_one_keeps f q p n E).
  - destruct (mkdir_one_new f q p E) as [->|[_ ->]]; reflexivity.
Qed.

Lemma mkdir_fold_dir (qs : list path) (f : filesystem) (q : path) :
  In q qs -> q <> [] ->
  (forall q', In q' qs -> Fs.is_file f q' = false) ->
  Fs.node_at (fold_left Fs.mkdir_one qs f) q = Some Dir.
Proof.
  revert f. induction qs as [|q0 qs IH]; intros f Hin Hq Hnf; [destruct Hin|].
  simpl. destruct (list_eq_dec string_dec q0 q) as [->|Hne].
  - apply mkdir_fold_keeps. unfold Fs.mkdir_one.
    specialize (Hnf q (or_introl eq_refl)). unfold Fs.is_file in Hnf.
    destruct (Fs.node_at f q) as [[sz d|]|] eqn:E; try discriminate; auto.
    now apply node_at_put_eq.
  - destruct Hin as [?|Hin]; [congruence|]. apply IH; auto.
    intros q' Hq'. rewrite is_file_mkdir_one. apply Hnf. now right.
Qed.

Lemma prefixes_from_app (base a rest : path) :
  a <> [] -> In (base ++ a) (Path.prefixes_from base (a ++ rest)).
Proof.
  revert base. induction a as [|x a IH]; intros base Ha; [congruence|]. simpl.
  destruct a as [|y a]; [now left|]. right.
  replace (base ++ x :: y :: a) with ((base ++ [x]) ++ y :: a)
    by now rewrite <- app_assoc.
  apply IH. discriminate.
Qed.

Lemma prefixes_app (a rest : path) : a <> [] -> In a (Path.prefixes (a ++ rest)).
Proof. intros Ha. exact (prefixes_from_app [] a rest Ha). Qed.

Lemma parent_last (p : path) (c : string) : Path.parent (p ++ [c]) = p.
Proof. unfold Path.parent. apply removelast_last. Qed.

Lemma name_last (p : path) (c : string) : Path.name (p ++ [c]) = c.
Proof. unfold Path.name. apply last_last. Qed.

Lemma prefixes_parent (p q : path) :
  In q (Path.prefixes (Path.parent p)) -> In q (Path.prefixes p).
Proof.
  destruct (list_eq_dec string_dec p []) as [->|Hp]; [auto|].
  destruct (exists_last Hp) as (p0 & c & ->). rewrite parent_last.
  intros H. destruct (prefixes_shape _ _ H) as (a & b & -> & Ha & ->).
  rewrite <- app_assoc. now apply prefixes_app.
Qed.

(** Directory creation succeeds unless a regular file is in the way, and
    then the directory exists. *)
Lemma mkdir_parents_ok (p : path) (f : filesystem) :
  (forall q, In q (Path.prefixes p) -> Fs.is_file f q = false) ->
  exists f', Fs.mkdir_parents p f = Ok f' /\ Fs.is_dir f' p = true.
Proof.
  intros Hnf. unfold Fs.mkdir_parents.
  assert (Hpar : existsb (Fs.is_file f) (Path.prefixes (Path.parent p)) = false).
  { apply not_true_is_false. intros H. apply existsb_exists in H as (q & Hq & Hfile).
    rewrite Hnf in Hfile; [discriminate|]. now apply prefixes_parent. }
  rewrite Hpar. destruct (list_eq_dec string_dec p []) as [->|Hp].
  - simpl. exists f. split; reflexivity.
  - rewrite (Hnf p (prefixes_self p Hp)).
    eexists. split; [reflexivity|]. unfold Fs.is_dir.
    rewrite (mkdir_fold_dir (Path.prefixes p) f p); auto. now apply prefixes_self.
Qed.

(** ** Preconditions, configuration and filters *)

Lemma resolve_from_app (base p q : path) :
  Path.resolve_from base (p ++ q) = Path.resolve_from (Path.resolve_from base p) q.
Proof.
  revert base. induction p as [|c p IH]; intros base; simpl; [reflexivity|].
  destruct (String.eqb c ".."); apply IH.
Qed.

(** A path without [..] resolves to itself. *)
Lemma resolve_plain (p : path) :
  forallb (fun c => negb (String.eqb c "..")) p = true -> Path.resolve p = p.
Proof.
  unfold Path.resolve. change p with ([] ++ p) at 3. generalize (@nil string) as base.
  induction p as [|c p IH]; intros base H; simpl in *.
  - now rewrite app_nil_r.
  - apply andb_true_iff in H. destruct H as [Hc Hp]. apply negb_true_iff in Hc.
    rewrite Hc, (IH _ Hp), <- app_assoc. reflexivity.
Qed.

(** C8. The source is tested after [resolve()].  When the resolved source
    does not exist [organize_files] raises [FileNotFoundError]; when it
    exists without being a directory it raises [NotADirectoryError].  Either
    way nothing has happened yet: the state (filesystem, ledger, console) is
    the one the call started from and no counters are returned.  These are
    the only ways [organize_files] raises. *)
Theorem organize_files_preconditions (re_search : string -> string -> option bool)
  (str_lower : string -> string)
  (source destination : string) (o : options) (s : state) :
  (Fs.exists_ (fs s) (Path.resolve (Path.of_str source)) = false ->
     organize_files re_search str_lower source destination o s
     = (Raise FileNotFoundError, s))
  /\ (Fs.exists_ (fs s) (Path.resolve (Path.of_str source)) = true ->
      Fs.is_dir (fs s) (Path.resolve (Path.of_str source)) = false ->
      organize_files re_search str_lower source destination o s
      = (Raise NotADirectoryError, s))
  /\ (forall e,
        fst (organize_files re_search str_lower source destination o s) = Raise e ->
        snd (organize_files re_search str_lower source destination o s) = s
        /\ ((e = FileNotFoundError
             /\ Fs.exists_ (fs s) (Path.resolve (Path.of_str source)) = false)
            \/ (e = NotADirectoryError
                /\ Fs.exists_ (fs s) (Path.resolve (Path.of_str source)) = true
                /\ Fs.is_dir (fs s) (Path.resolve (Path.of_str source)) = false))).
Proof.
  unfold organize_files. split; [|split].
  - now intros ->.
  - now intros -> ->.
  - intros e.
    destruct (Fs.exists_ (fs s) (Path.resolve (Path.of_str source))); cbn [negb].
    + destruct (Fs.is_dir (fs s) (Path.resolve (Path.of_str source))); cbn [negb].
      * destruct (organize_loop _ _ _ _ _ _) as [c s']. discriminate.
      * cbn [fst snd]. intros [= <-]. split; [reflexivity|]. right. auto.
    + cbn [fst snd]. intros [= <-]. split; [reflexivity|]. left. auto.
Qed.

Lemma organize_files_preconditions_witness :
  organize_files re_search_plain lower_plain "/src/../nowhere" "/out" default_options
                 (init two_files)
    = (Raise FileNotFoundError, init two_files)
  /\ organize_files re_search_plain lower_plain "/src/photo.jpg" "/out" default_options
                    (init two_files)
    = (Raise NotADirectoryError, init two_files).
Proof.
  split.
  - apply (organize_files_preconditions re_search_plain lower_plain "/src/../nowhere"
             "/out" default_options (init two_files)). reflexivity.
  - apply (organize_files_preconditions re_search_plain lower_plain "/src/photo.jpg"
             "/out" default_options (init two_files)); reflexivity.
Defined.

(** A source that names an existing directory through [..] is organised. *)
Example organize_files_resolves_source :
  fst (organize_files re_search_plain lower_plain "/nowhere/../src" "/out"
                      default_options (init two_files))
  = Ok (2%Z, 2%Z).
Proof. vm_compute. reflexivity. Qed.

(** [load_config] on a missing file: the documented fail-soft path. *)
Lemma load_config_missing (config_file : string) (s : state) :
  Fs.exists_ (fs s) (Path.of_str config_file) = false ->
  load_config config_file s
  = (Ok false, emit (Log_config_not_found WARNING config_file) s).
Proof. unfold load_config, load_config_body. now intros ->. Qed.

(** C9, at the failing input.  Whatever exception the body of [load_config]
    raises (a file that is not JSON, or one that cannot be read), matching it
    against the handler tuple raises [TypeError], which leaves [load_config]:
    the call does not return [False].  The category table is untouched. *)
Theorem load_config_failure_escapes (config_file : string) (s : state) (e : exn) :
  fst (load_config_body config_file s) = Raise e ->
  fst (load_config config_file s) = Raise TypeError
  /\ file_types (snd (load_config config_file s)) = file_types s.
Proof.
  intros H. unfold load_config.
  assert (Hs : snd (load_config_body config_file s) = s).
  { revert H. unfold load_config_body.
    destruct (Fs.exists_ (fs s) (Path.of_str config_file)); [|discriminate].
    destruct (Fs.read (fs s) (Path.of_str config_file)) as [[b|t|j]|e']; simpl;
      try reflexivity. discriminate. }
  destruct (load_config_body config_file s) as [[b|e'] s'];
    simpl in H, Hs; [discriminate|]. subst s'. split; reflexivity.
Qed.

Lemma load_config_failure_escapes_witness :
  fst (load_config "/cfg.json" (init broken_config)) = Raise TypeError
  /\ file_types (snd (load_config "/cfg.json" (init broken_config)))
     = json_of_table DEFAULT_FILE_TYPES.
Proof.
  apply (load_config_failure_escapes "/cfg.json" (init broken_config) JSONDecodeError).
  reflexivity.
Defined.

(** [matches_pattern] on a pattern that does not compile: the answer is
    [True], with a warning. *)
Lemma matches_pattern_invalid (re_search : string -> string -> option bool)
  (filename p : string) (s : state) :
  p <> EmptyString -> re_search p filename = None ->
  matches_pattern re_search filename (Some p) s
  = (true, emit (Log_invalid_regex WARNING p) s).
Proof.
  intros Hp Hre. unfold matches_pattern. destruct p; [congruence|]. now rewrite Hre.
Qed.

(** C7, at the failing input.  An exclude pattern that does not compile
    rejects the file: the candidate is skipped before it is counted, exactly
    as if the pattern had matched. *)
Theorem invalid_exclude_pattern_rejects (re_search : string -> string -> option bool)
  (str_lower : string -> string)
  (o : options) (dest_path file_path : path) (p : string) (c : counters) (s : state) :
  pattern o = None ->
  exclude_pattern o = Some p -> p <> EmptyString ->
  re_search p (Path.name file_path) = None ->
  process_file re_search str_lower o dest_path file_path c s
  = (Ok tt, c, emit (Log_invalid_regex WARNING p) s).
Proof.
  intros Hpat Hex Hp Hre. unfold process_file, matches_pattern. rewrite Hpat, Hex.
  destruct p as [|a p]; [congruence|]. simpl. now rewrite Hre.
Qed.

Lemma invalid_exclude_pattern_rejects_witness :
  process_file re_search_plain lower_plain exclude_unbalanced ["out"] ["src"; "notes.txt"]
               (mkCounters 0 0) (init two_files)
  = (Ok tt, mkCounters 0 0, emit (Log_invalid_regex WARNING "(") (init two_files)).
Proof.
  apply (invalid_exclude_pattern_rejects re_search_plain lower_plain exclude_unbalanced
           ["out"] ["src"; "notes.txt"] "(" (mkCounters 0 0) (init two_files));
    [reflexivity | reflexivity | discriminate | reflexivity].
Defined.

(** The same input through [organize_files]: no file is considered. *)
Example invalid_exclude_pattern_run :
  fst (organize_files re_search_plain lower_plain "/src" "/out" exclude_unbalanced (init two_files))
  = Ok (0%Z, 0%Z).
Proof. reflexivity. Qed.

(** The include filter, by contrast, fails open. *)
Lemma invalid_include_pattern_passes (re_search : string -> string -> option bool)
  (filename p : string) (s : state) :
  p <> EmptyString -> re_search p filename = None ->
  fst (matches_pattern re_search filename (Some p) s) = true.
Proof. intros Hp Hre. now rewrite matches_pattern_invalid. Qed.

(** ** The undo engine *)

Lemma fs_emit (ev : event) (s : state) : fs (emit ev s) = fs s.
Proof. reflexivity. Qed.



(** One step of the live loop on a record with its three fields. *)
Lemma undo_loop_step (r : json) (rest : list json) (count : Z) (s : state)
  (source destination op_type : json) :
  Json.getitem r "source" = Ok source ->
  Json.getitem r "destination" = Ok destination ->
  Json.getitem r "operation" = Ok op_type ->
  undo_loop false (r :: rest) count s
  = undo_loop false rest (fst (undo_record op_type destination source count s))
                         (snd (undo_record op_type destination source count s)).
Proof.
  intros Hs Hd Ho. simpl. rewrite Hs, Hd, Ho.
  now destruct (undo_record op_type destination source count s).
Qed.

(** Moving a regular file back onto a path that is not a directory. *)
Lemma move_back (f : filesystem) (src dst : path) (sz : Z) (d : contents) :
  Fs.node_at f dst = Some (File sz d) ->
  Fs.is_dir f src = false ->
  src <> dst ->
  (forall q, In q (Path.prefixes (Path.parent src)) -> Fs.is_file f q = false) ->
  exists f1, Fs.mkdir_parents (Path.parent src) f = Ok f1
    /\ Fs.shutil_move dst src f1 = Ok (Fs.put src (File sz d) (Fs.remove dst f1))
    /\ Fs.node_at (Fs.put src (File sz d) (Fs.remove dst f1)) src = Some (File sz d)
    /\ Fs.node_at (Fs.put src (File sz d) (Fs.remove dst f1)) dst = None.
Proof.
  intros Hdst Hsrc Hne Hnf.
  destruct (mkdir_parents_ok _ _ Hnf) as (f1 & Hmk & Hdir).
  exists f1. split; [exact Hmk|].
  assert (Hsrc_ne : src <> []) by (intros ->; discriminate).
  assert (Hdst_ne : dst <> []) by (intros ->; discriminate).
  assert (Hdst1 : Fs.node_at f1 dst = Some (File sz d))
    by (eapply mkdir_parents_keeps; eauto).
  assert (Hsrc1 : Fs.is_dir f1 src = false).
  { unfold Fs.is_dir in *. destruct (Fs.node_at f src) as [n|] eqn:E.
    - now rewrite (mkdir_parents_keeps _ _ _ _ _ Hmk E).
    - destruct (mkdir_parents_new _ _ _ src Hmk E) as [->|[Hin _]]; [reflexivity|].
      apply prefixes_length in Hin. exfalso.
      destruct (exists_last Hsrc_ne) as (p0 & c & ->).
      rewrite parent_last, length_app in Hin. simpl in Hin. lia. }
  assert (Hmove : Fs.shutil_move dst src f1
                  = Ok (Fs.put src (File sz d) (Fs.remove dst f1))).
  { unfold Fs.shutil_move, Fs.rename_file. rewrite Hsrc1, Hdst1. cbn [andb].
    rewrite Hsrc1, Hdir.
    assert (Hneq : Path.eqb dst src = false) by (apply path_eqb_neq; congruence).
    now rewrite Hneq. }
  split; [exact Hmove|]. split.
  - now apply node_at_put_eq.
  - rewrite node_at_put_ne by congruence. now apply node_at_remove_eq.
Qed.

(** ** Per-file isolation *)

Section Isolation.

Variable re_search : string -> string -> option bool.
Variable str_lower : string -> string.

Lemma matches_pattern_frame (filename : string) (pat : option string) (s : state) :
  let s' := snd (matches_pattern re_search filename pat s) in
  fs s' = fs s /\ operations_log s' = operations_log s
  /\ file_types s' = file_types s /\ clock s' = clock s.
Proof.
  unfold matches_pattern. destruct pat as [[|a p]|]; simpl; auto.
  destruct (re_search (String a p) filename); simpl; auto.
Qed.

(** The state in which the filters leave the world. *)
Lemma filters_frame (o : options) (file_path : path) (s : state) :
  let s1 := snd (matches_pattern re_search (Path.name file_path) (pattern o) s) in
  let s2 := snd (if truthy (exclude_pattern o)
                 then matches_pattern re_search (Path.name file_path)
                                      (exclude_pattern o) s1
                 else (false, s1)) in
  fs s2 = fs s /\ operations_log s2 = operations_log s
  /\ file_types s2 = file_types s /\ clock s2 = clock s.
Proof.
  intros s1 s2.
  destruct (matches_pattern_frame (Path.name file_path) (pattern o) s)
    as (H1 & H2 & H3 & H4). fold s1 in H1, H2, H3, H4.
  unfold s2. destruct (truthy (exclude_pattern o)).
  - destruct (matches_pattern_frame (Path.name file_path) (exclude_pattern o) s1)
      as (G1 & G2 & G3 & G4). repeat split; congruence.
  - simpl. auto.
Qed.

(** A failed transfer appended nothing and changed no file. *)
Lemma transfer_failure (o : options) (file_path target_dir target_file : path)
  (cat : string) (c c' : counters) (s s' : state) (e : exn) :
  transfer o file_path target_dir target_file cat c s = (Raise e, c', s') ->
  c' = c /\ operations_log s' = operations_log s
  /\ (forall p n, Fs.node_at (fs s) p = Some n -> Fs.node_at (fs s') p = Some n)
  /\ (forall p sz d, Fs.node_at (fs s') p = Some (File sz d) ->
                     Fs.node_at (fs s) p = Some (File sz d)).
Proof.
  unfold transfer.
  destruct (Fs.mkdir_parents target_dir (fs s)) as [f1|e1] eqn:Hmk.
  - destruct (if copy_files o then Fs.shutil_copy2 file_path target_file f1
              else Fs.shutil_move file_path target_file f1) as [f2|e2].
    + simpl. intros [=].
    + intros [= <- <- <-]. simpl. repeat split; auto.
      * intros p n. now apply mkdir_parents_keeps with (p := target_dir).
      * intros p sz d H. destruct (Fs.node_at (fs s) p) as [n|] eqn:E.
        -- rewrite (mkdir_parents_keeps _ _ _ _ _ Hmk E) in H. congruence.
        -- destruct (mkdir_parents_new _ _ _ p Hmk E) as [G|[_ G]]; congruence.
  - intros [= <- <- <-]. repeat split; auto.
Qed.

Lemma process_file_failure (o : options) (dest_path file_path : path)
  (c c' : counters) (s s' : state) (e : exn) :
  process_file re_search str_lower o dest_path file_path c s = (Raise e, c', s') ->
  files_moved c' = files_moved c
  /\ operations_log s' = operations_log s
  /\ (forall p n, Fs.node_at (fs s) p = Some n -> Fs.node_at (fs s') p = Some n)
  /\ (forall p sz d, Fs.node_at (fs s') p = Some (File sz d) ->
                     Fs.node_at (fs s) p = Some (File sz d)).
Proof.
  unfold process_file.
  pose proof (filters_frame o file_path s) as Hframe. cbv zeta in Hframe.
  destruct (matches_pattern re_search (Path.name file_path) (pattern o) s)
    as [m s1]. simpl in Hframe.
  destruct m; simpl; [|intros [=]].
  destruct (if truthy (exclude_pattern o)
            then matches_pattern re_search (Path.name file_path) (exclude_pattern o) s1
            else (false, s1)) as [x s2]. simpl in Hframe.
  destruct Hframe as (Hfs & Hlog & _ & _).
  destruct x; [intros [=]|].
  destruct (check_file_size (fs s2) file_path (min_size o) (max_size o)); simpl;
    [|intros [=]].
  destruct (get_category str_lower (file_types s2) (Path.suffix file_path)) as [cat|e1].
  - destruct (dry_run o); [intros [=]|].
    intros H. apply transfer_failure in H as (-> & Hl & Hk & Hn).
    rewrite Hfs in Hk, Hn. simpl. repeat split; auto; congruence.
  - intros [= <- <- <-]. simpl. rewrite Hfs. repeat split; auto.
Qed.

Lemma organize_step_log_grows (o : options) (dest_path file_path : path)
  (acc : counters * state) :
  exists more,
    operations_log (snd (organize_step re_search str_lower o dest_path acc file_path))
    = operations_log (snd acc) ++ more.
Proof.
  unfold organize_step, process_file.
  pose proof (filters_frame o file_path (snd acc)) as Hframe. cbv zeta in Hframe.
  pose proof (matches_pattern_frame (Path.name file_path) (pattern o) (snd acc))
    as Hfirst. cbv zeta in Hfirst.
  destruct (matches_pattern re_search (Path.name file_path) (pattern o) (snd acc))
    as [m s1]. simpl in Hframe, Hfirst.
  destruct m; simpl.
  2:{ exists []. rewrite app_nil_r. apply Hfirst. }
  destruct (if truthy (exclude_pattern o)
            then matches_pattern re_search (Path.name file_path) (exclude_pattern o) s1
            else (false, s1)) as [x s2]. simpl in Hframe.
  destruct Hframe as (Hfs & Hlog & _ & _).
  destruct x; [exists []; now rewrite app_nil_r|].
  destruct (check_file_size (fs s2) file_path (min_size o) (max_size o)); simpl;
    [|exists []; now rewrite app_nil_r].
  destruct (get_category str_lower (file_types s2) (Path.suffix file_path)) as [cat|e1];
    [|exists []; now rewrite app_nil_r].
  destruct (dry_run o); [exists []; now rewrite app_nil_r|].
  unfold transfer.
  destruct (Fs.mkdir_parents _ (fs s2)) as [f1|e1];
    [|exists []; now rewrite app_nil_r].
  destruct (if copy_files o then _ else _) as [f2|e2];
    [|exists []; now rewrite app_nil_r].
  simpl. rewrite Hlog. eexists. reflexivity.
Qed.

Lemma organize_loop_log_grows (o : options) (dest_path : path) (files : list path)
  (acc : counters * state) :
  exists more,
    operations_log (snd (organize_loop re_search str_lower o dest_path files acc))
    = operations_log (snd acc) ++ more.
Proof.
  unfold organize_loop. revert acc. induction files as [|f files IH]; intros acc; simpl.
  - exists []. now rewrite app_nil_r.
  - destruct (IH (organize_step re_search str_lower o dest_path acc f)) as (m2 & H2).
    destruct (organize_step_log_grows o dest_path f acc) as (m1 & H1).
    exists (m1 ++ m2). rewrite H2, H1. now rewrite app_assoc.
Qed.

End Isolation.

(** C2. An exception raised while one candidate is processed is caught and
    logged, and the loop goes on with the candidates that remain.  The
    failed candidate left the ledger and the transferred counter as they
    were; every entry of the filesystem is still there unchanged and no file
    appeared; and the ledger at the end of the run extends the ledger as it
    stood before the failure. *)
Theorem organize_isolates_failures (re_search : string -> string -> option bool)
  (str_lower : string -> string)
  (o : options) (dest_path : path) (pre post : list path) (file_path : path)
  (acc : counters * state) (e : exn) (c' : counters) (s' : state) :
  let before := organize_loop re_search str_lower o dest_path pre acc in
  let after := (c', emit (Log_error_processing ERROR file_path e) s') in
  process_file re_search str_lower o dest_path file_path (fst before) (snd before)
    = (Raise e, c', s') ->
  organize_loop re_search str_lower o dest_path (pre ++ file_path :: post) acc
    = organize_loop re_search str_lower o dest_path post after
  /\ files_moved c' = files_moved (fst before)
  /\ operations_log (snd after) = operations_log (snd before)
  /\ (forall p n, Fs.node_at (fs (snd before)) p = Some n ->
                  Fs.node_at (fs (snd after)) p = Some n)
  /\ (forall p sz d, Fs.node_at (fs (snd after)) p = Some (File sz d) ->
                     Fs.node_at (fs (snd before)) p = Some (File sz d))
  /\ exists more,
       operations_log
         (snd (organize_loop re_search str_lower o dest_path (pre ++ file_path :: post) acc))
       = operations_log (snd before) ++ more.
Proof.
  intros before after H.
  assert (Hloop : organize_loop re_search str_lower o dest_path (pre ++ file_path :: post) acc
                  = organize_loop re_search str_lower o dest_path post after).
  { unfold organize_loop. rewrite fold_left_app. simpl.
    fold (organize_loop re_search str_lower o dest_path pre acc). fold before.
    unfold organize_step at 2. now rewrite H. }
  destruct (process_file_failure re_search str_lower _ _ _ _ _ _ _ _ H) as (Hm & Hl & Hk & Hn).
  split; [exact Hloop|]. split; [exact Hm|]. split; [exact Hl|].
  split; [exact Hk|]. split; [exact Hn|].
  rewrite Hloop.
  destruct (organize_loop_log_grows re_search str_lower o dest_path post after) as (more & Hmore).
  exists more. rewrite Hmore. simpl. now rewrite Hl.
Qed.

Lemma organize_isolates_failures_witness :
  organize_loop re_search_plain lower_plain default_options ["out"]
                ([] ++ ["src"; "photo.jpg"] :: [["src"; "notes.txt"]])
                (mkCounters 0 0, init blocked_world)
  = organize_loop re_search_plain lower_plain default_options ["out"] [["src"; "notes.txt"]]
      (mkCounters 1 0,
       emit (Log_error_processing ERROR ["src"; "photo.jpg"] FileExistsError)
            (init blocked_world))
  /\ fst (organize_files re_search_plain lower_plain "/src" "/out" default_options
                         (init blocked_world)) = Ok (2%Z, 1%Z).
Proof.
  split; [|reflexivity].
  apply (organize_isolates_failures re_search_plain lower_plain default_options ["out"] []
           [["src"; "notes.txt"]] ["src"; "photo.jpg"]
           (mkCounters 0 0, init blocked_world) FileExistsError
           (mkCounters 1 0) (init blocked_world)).
  reflexivity.
Defined.

(** ** Dry run *)

Section DryRun.

Variable re_search : string -> string -> option bool.
Variable str_lower : string -> string.

Lemma planned_app (a b : list event) : planned (a ++ b) = planned a ++ planned b.
Proof. unfold planned. apply flat_map_app. Qed.

Lemma filters_passes (o : options) (file_path : path) (s : state) :
  let r1 := matches_pattern re_search (Path.name file_path) (pattern o) s in
  let r2 := if truthy (exclude_pattern o)
            then matches_pattern re_search (Path.name file_path)
                                 (exclude_pattern o) (snd r1)
            else (false, snd r1) in
  passes re_search o (fs s) file_path
  = fst r1 && negb (fst r2)
    && check_file_size (fs s) file_path (min_size o) (max_size o)
  /\ planned (console (snd r1)) = planned (console s)
  /\ planned (console (snd r2)) = planned (console s).
Proof.
  unfold passes, matches_pattern, truthy.
  destruct (pattern o) as [[|a p]|]; destruct (exclude_pattern o) as [[|b q]|];
    simpl; auto;
    repeat match goal with
           | |- context [re_search ?p ?n] => destruct (re_search p n); simpl
           end; rewrite ?planned_app; simpl; rewrite ?app_nil_r; auto.
Qed.

(** One dry-run step: the world is untouched and the console gains the
    intended action. *)
Lemma dry_step (o : options) (dest_path file_path : path) (acc : counters * state) :
  dry_run o = true ->
  let acc' := organize_step re_search str_lower o dest_path acc file_path in
  fs (snd acc') = fs (snd acc)
  /\ operations_log (snd acc') = operations_log (snd acc)
  /\ file_types (snd acc') = file_types (snd acc)
  /\ files_moved (fst acc') = files_moved (fst acc)
  /\ planned (console (snd acc'))
     = planned (console (snd acc))
       ++ intended re_search str_lower o (file_types (snd acc)) (fs (snd acc)) dest_path file_path.
Proof.
  intros Hdry. destruct acc as [c s]. unfold organize_step, process_file, intended.
  simpl fst. simpl snd.
  pose proof (filters_frame re_search o file_path s) as Hframe. cbv zeta in Hframe.
  pose proof (matches_pattern_frame re_search (Path.name file_path) (pattern o) s)
    as Hfirst. cbv zeta in Hfirst.
  pose proof (filters_passes o file_path s) as Hpass. cbv zeta in Hpass.
  destruct (matches_pattern re_search (Path.name file_path) (pattern o) s) as [m s1].
  simpl in Hframe, Hfirst, Hpass.
  destruct (if truthy (exclude_pattern o)
            then matches_pattern re_search (Path.name file_path) (exclude_pattern o) s1
            else (false, s1)) as [x s2]. simpl in Hframe, Hpass.
  destruct Hframe as (Hfs & Hlog & Hty & _). destruct Hfirst as (Gfs & Glog & Gty & _).
  destruct Hpass as (-> & Hp1 & Hp2).
  destruct m; simpl.
  2:{ rewrite app_nil_r. auto. }
  destruct x; simpl.
  { rewrite app_nil_r. auto. }
  rewrite Hfs, Hty.
  destruct (check_file_size (fs s) file_path (min_size o) (max_size o)); simpl.
  2:{ rewrite app_nil_r. auto. }
  destruct (get_category str_lower (file_types s) (Path.suffix file_path)) as [cat|e]; simpl.
  - rewrite Hdry. simpl. rewrite !planned_app, Hp2. simpl. rewrite app_nil_r. auto.
  - rewrite planned_app, Hp2. simpl. auto.
Qed.

Lemma dry_loop (o : options) (dest_path : path) (files : list path)
  (acc : counters * state) :
  dry_run o = true ->
  let acc' := organize_loop re_search str_lower o dest_path files acc in
  fs (snd acc') = fs (snd acc)
  /\ operations_log (snd acc') = operations_log (snd acc)
  /\ file_types (snd acc') = file_types (snd acc)
  /\ files_moved (fst acc') = files_moved (fst acc)
  /\ planned (console (snd acc'))
     = planned (console (snd acc))
       ++ flat_map (intended re_search str_lower o (file_types (snd acc)) (fs (snd acc)) dest_path)
                   files.
Proof.
  intros Hdry. unfold organize_loop. revert acc.
  induction files as [|f files IH]; intros acc; simpl.
  - rewrite app_nil_r. auto.
  - destruct (IH (organize_step re_search str_lower o dest_path acc f)) as (H1 & H2 & H3 & H4 & H5).
    destruct (dry_step o dest_path f acc Hdry) as (G1 & G2 & G3 & G4 & G5).
    rewrite H1, H2, H3, H4, H5, G1, G2, G3, G4, G5. rewrite <- app_assoc. auto.
Qed.

(** X7.  The part of the dry-run contract that holds on every input: no
    filesystem mutation, nothing appended to the ledger, no transfer counted,
    and one announcement per candidate that passes the filters, each computed
    against the untouched filesystem. *)
Lemma dry_run_changes_nothing (source destination : string) (o : options) (s : state) :
  dry_run o = true ->
  let r := organize_files re_search str_lower source destination o s in
  fs (snd r) = fs s
  /\ operations_log (snd r) = operations_log s
  /\ (forall processed moved, fst r = Ok (processed, moved) -> moved = 0%Z)
  /\ planned (console (snd r))
     = planned (console s)
       ++ match fst r with
          | Ok _ => flat_map (intended re_search str_lower o (file_types s) (fs s)
                                       (Path.resolve (Path.of_str destination)))
                             (candidates o (Path.resolve (Path.of_str source)) (fs s))
          | Raise _ => []
          end.
Proof.
  intros Hdry. unfold organize_files.
  destruct (Fs.exists_ (fs s) (Path.resolve (Path.of_str source))); simpl.
  2:{ rewrite app_nil_r. repeat split; auto. discriminate. }
  destruct (Fs.is_dir (fs s) (Path.resolve (Path.of_str source))); simpl.
  2:{ rewrite app_nil_r. repeat split; auto. discriminate. }
  set (files := candidates o (Path.resolve (Path.of_str source)) (fs s)).
  set (s0 := emit (Log_found INFO (List.length files)) s).
  destruct (dry_loop o (Path.resolve (Path.of_str destination)) files (mkCounters 0 0, s0) Hdry)
    as (H1 & H2 & H3 & H4 & H5).
  destruct (organize_loop re_search str_lower o (Path.resolve (Path.of_str destination)) files
                          (mkCounters 0 0, s0)) as [c s'].
  simpl in *. repeat split; auto.
  - intros processed moved [= _ <-]. exact H4.
  - rewrite H5. unfold s0. simpl. rewrite planned_app. simpl. now rewrite app_nil_r.
Qed.

(** X8.  What a live step executes is what a dry run started from the same state
    announces for that candidate: the two differ only through the changes
    that earlier transfers of the live run made to the filesystem. *)
Lemma live_step_is_intended (o : options) (dest_path file_path : path)
  (c : counters) (s : state) :
  dry_run o = false ->
  let acc' := organize_step re_search str_lower o dest_path (c, s) file_path in
  operations_log (snd acc') = operations_log s
  \/ exists r,
       operations_log (snd acc') = operations_log s ++ [r]
       /\ map as_text (intended re_search str_lower o (file_types s) (fs s) dest_path file_path)
          = [(field r "source", field r "destination")].
Proof.
  intros Hlive. unfold organize_step, process_file, intended.
  cbn [fst snd].
  pose proof (filters_frame re_search o file_path s) as Hframe. cbv zeta in Hframe.
  pose proof (matches_pattern_frame re_search (Path.name file_path) (pattern o) s)
    as Hfirst. cbv zeta in Hfirst.
  pose proof (filters_passes o file_path s) as Hpass. cbv zeta in Hpass.
  destruct (matches_pattern re_search (Path.name file_path) (pattern o) s) as [m s1].
  cbn [fst snd] in Hframe, Hfirst, Hpass.
  destruct (if truthy (exclude_pattern o)
            then matches_pattern re_search (Path.name file_path) (exclude_pattern o) s1
            else (false, s1)) as [x s2]. cbn [fst snd] in Hframe, Hpass.
  destruct Hframe as (Hfs & Hlog & Hty & _). destruct Hfirst as (Gfs & Glog & Gty & _).
  destruct Hpass as (-> & _ & _).
  destruct m; cbn [negb andb]; [|left; exact Glog].
  destruct x; cbn [negb andb]; [left; exact Hlog|].
  rewrite Hfs, Hty.
  destruct (check_file_size (fs s) file_path (min_size o) (max_size o)); cbn [negb];
    [|left; exact Hlog].
  destruct (get_category str_lower (file_types s) (Path.suffix file_path)) as [cat|e];
    [|left; exact Hlog].
  rewrite Hlive. unfold transfer. rewrite Hfs.
  destruct (Fs.mkdir_parents (Path.join dest_path cat) (fs s)) as [f1|e1];
    [|left; exact Hlog].
  destruct (if copy_files o then _ else _) as [f2|e2]; [|left; exact Hlog].
  right. eexists. cbn. rewrite Hlog. split; reflexivity.
Qed.

End DryRun.

(** C6, at the failing input.  Two candidates named [a.txt] are organised
    recursively into an empty destination.  The dry run announces the target
    [/out/Documents/a.txt] for both; the live run on the same input moves the
    second one to [/out/Documents/a_1.txt], an action the dry run never
    reported. *)
Theorem dry_run_misreports_collisions :
  let dry := organize_files re_search_plain lower_plain "/s" "/out"
                            (set_dry_run true recursive_options) (init same_names) in
  let live := organize_files re_search_plain lower_plain "/s" "/out"
                             (set_dry_run false recursive_options) (init same_names) in
  planned (console (snd dry))
  = [ (["s"; "x"; "a.txt"], ["out"; "Documents"; "a.txt"]);
      (["s"; "y"; "a.txt"], ["out"; "Documents"; "a.txt"]) ]
  /\ executed (operations_log (snd live))
     = [ (JStr "/s/x/a.txt", JStr "/out/Documents/a.txt");
         (JStr "/s/y/a.txt", JStr "/out/Documents/a_1.txt") ]
  /\ ~ In (JStr "/s/y/a.txt", JStr "/out/Documents/a_1.txt")
          (map as_text (planned (console (snd dry))))
  /\ fs (snd dry) = same_names
  /\ operations_log (snd dry) = [].
Proof.
  cbv zeta. split; [reflexivity|]. split; [reflexivity|].
  split; [|split; reflexivity].
  intros [H|[H|[]]]; discriminate.
Qed.

(** ** Round trip *)

(** C1, at the failing input.  The directory [/s] is organised into itself;
    it holds a file named [Images] and a picture.  The file goes to
    [/s/Other/Images], then the picture's category directory [/s/Images] is
    created where the file was.  The undo reports both records undone, yet
    [shutil.move] finds a directory at the original path of the file and
    drops the file inside it: the file ends at [/s/Images/Images], and its
    original path holds a directory. *)
Theorem undo_misplaces_into_category_dir :
  let r := round_trip re_search_plain lower_plain "/s" "/s" "/log.json" default_options
                      (init in_place) in
  fst (organize_files re_search_plain lower_plain "/s" "/s" default_options (init in_place))
    = Ok (2%Z, 2%Z)
  /\ fst r = Ok 2%Z
  /\ Fs.node_at in_place ["s"; "Images"] = Some (File 7 (Text "x"))
  /\ Fs.node_at (fs (snd r)) ["s"; "Images"] = Some Dir
  /\ Fs.node_at (fs (snd r)) ["s"; "Images"; "Images"] = Some (File 7 (Text "x"))
  /\ Fs.node_at (fs (snd r)) ["s"; "a.jpg"] = Some (File 9 (Text "y")).
Proof. cbv zeta. repeat split; reflexivity. Qed.

(** ** Paths and their text *)

Lemma split_slash_cons (s : string) : exists h t, Str.split_slash s = h :: t.
Proof.
  induction s as [|a s (h & t & IH)]; simpl; [now eexists _, _|].
  destruct (Ascii.eqb a "/"%char); [now eexists _, _|]. rewrite IH. now eexists _, _.
Qed.

Lemma split_slash_app (c r : string) :
  no_slash c = true ->
  Str.split_slash (c ++ r)
  = match Str.split_slash r with
    | h :: t => (c ++ h)%string :: t
    | [] => [c]
    end.
Proof.
  destruct (split_slash_cons r) as (h & t & Hr).
  induction c as [|a c IH]; simpl; intros H.
  - now rewrite Hr.
  - apply andb_prop in H as [Ha Hc]. apply negb_true_iff in Ha. rewrite Ha.
    rewrite (IH Hc). now rewrite Hr.
Qed.

Lemma string_app_nil_r (s : string) : (s ++ "")%string = s.
Proof. induction s as [|a s IH]; simpl; [reflexivity | now rewrite IH]. Qed.

Lemma split_slash_slash (r : string) :
  Str.split_slash (String "/"%char r) = EmptyString :: Str.split_slash r.
Proof. reflexivity. Qed.

Lemma split_slash_joined (p : path) :
  forallb no_slash p = true ->
  Str.split_slash (fold_right (fun c acc => ("/" ++ c ++ acc)%string) EmptyString p)
  = EmptyString :: p.
Proof.
  induction p as [|c p IH]; intros H; [reflexivity|].
  cbn [forallb] in H. apply andb_prop in H as [Hc Hp]. cbn [fold_right].
  set (rest := fold_right (fun c acc => ("/" ++ c ++ acc)%string) EmptyString p) in *.
  change ("/" ++ c ++ rest)%string with (String "/"%char (c ++ rest)).
  rewrite split_slash_slash, (split_slash_app c rest Hc), (IH Hp).
  now rewrite string_app_nil_r.
Qed.

Lemma proper_no_slash (p : path) : proper_path p = true -> forallb no_slash p = true.
Proof.
  unfold proper_path. rewrite !forallb_forall. intros H c Hc.
  specialize (H c Hc). unfold proper in H. now apply andb_prop in H as [_ H].
Qed.

Lemma filter_proper (p : path) :
  proper_path p = true ->
  filter (fun c => negb (String.eqb c EmptyString || String.eqb c ".")) p = p.
Proof.
  induction p as [|c p IH]; simpl; intros H; [reflexivity|].
  apply andb_prop in H as [Hc Hp]. unfold proper in Hc.
  apply andb_prop in Hc as [Hc _]. rewrite Hc. now rewrite (IH Hp).
Qed.

(** A path survives the trip through its text. *)
Lemma of_str_to_str (p : path) : proper_path p = true -> Path.of_str (Path.to_str p) = p.
Proof.
  intros H. unfold Path.of_str, Path.parts, Path.to_str.
  destruct p as [|c p]; [reflexivity|].
  rewrite (split_slash_joined (c :: p) (proper_no_slash _ H)).
  change (filter (fun c => negb (String.eqb c EmptyString || String.eqb c "."))
                 (c :: p) = c :: p).
  now apply filter_proper.
Qed.

Lemma split_slash_single (c : string) : no_slash c = true -> Str.split_slash c = [c].
Proof.
  intros H. rewrite <- (string_app_nil_r c) at 1.
  rewrite (split_slash_app c "" H). simpl. now rewrite string_app_nil_r.
Qed.

(** Joining a proper category name appends one component. *)
Lemma join_proper (p : path) (c : string) : proper c = true -> Path.join p c = p ++ [c].
Proof.
  intros H. unfold proper in H. apply andb_prop in H as [Hne Hns].
  unfold Path.join, Path.parts. rewrite (split_slash_single c Hns). simpl. rewrite Hne.
  destruct c as [|a c]; [reflexivity|]. simpl in *.
  apply andb_prop in Hns as [Ha _]. apply negb_true_iff in Ha. now rewrite Ha.
Qed.

Lemma no_slash_app (a b : string) :
  no_slash (a ++ b) = no_slash a && no_slash b.
Proof.
  induction a as [|c a IH]; simpl; [reflexivity|]. now rewrite IH, andb_assoc.
Qed.

Lemma no_slash_substring (s : string) (i n : nat) :
  no_slash s = true -> no_slash (substring i n s) = true.
Proof.
  revert i n. induction s as [|c s IH]; intros i n H.
  - destruct i, n; reflexivity.
  - simpl in H. apply andb_prop in H as [Hc Hs]. destruct i as [|i]; simpl.
    + destruct n as [|n]; [reflexivity|]. simpl. rewrite Hc. now apply IH.
    + now apply IH.
Qed.

Lemma no_slash_of_uint (d : Decimal.uint) :
  no_slash (NilEmpty.string_of_uint d) = true.
Proof. induction d; simpl; auto. Qed.

Lemma no_slash_of_nat (n : nat) : no_slash (Str.of_nat n) = true.
Proof. apply no_slash_of_uint. Qed.

Lemma no_slash_stem (nm : string) :
  no_slash nm = true -> no_slash (Path.stem_of_name nm) = true.
Proof.
  intros H. unfold Path.stem_of_name. destruct (Path.cut nm); [|exact H].
  now apply no_slash_substring.
Qed.

Lemma no_slash_suffix (nm : string) :
  no_slash nm = true -> no_slash (Path.suffix_of_name nm) = true.
Proof.
  intros H. unfold Path.suffix_of_name. destruct (Path.cut nm); [|reflexivity].
  now apply no_slash_substring.
Qed.

(** The numbered names the namer invents are proper names. *)
Lemma proper_numbered_name (nm : string) (n : nat) :
  no_slash nm = true ->
  proper (Path.stem_of_name nm ++ "_" ++ Str.of_nat n ++ Path.suffix_of_name nm)%string
  = true.
Proof.
  intros H. unfold proper. apply andb_true_intro. split.
  - apply negb_true_iff, orb_false_intro.
    + apply String.eqb_neq. destruct (Path.stem_of_name nm); discriminate.
    + apply String.eqb_neq. destruct (Path.stem_of_name nm) as [|a [|b s]]; simpl;
        discriminate.
  - rewrite !no_slash_app. rewrite (no_slash_stem nm H), (no_slash_suffix nm H),
      no_slash_of_nat. reflexivity.
Qed.

Lemma proper_path_app (p q : path) :
  proper_path (p ++ q) = proper_path p && proper_path q.
Proof. apply forallb_app. Qed.

Lemma split_slash_no_slash (s c : string) :
  In c (Str.split_slash s) -> no_slash c = true.
Proof.
  revert c. induction s as [|a s IH]; intros c Hin; simpl in Hin.
  - destruct Hin as [<-|[]]. reflexivity.
  - destruct (Ascii.eqb a "/"%char) eqn:Ea.
    + destruct Hin as [<-|Hin]; [reflexivity | now apply IH].
    + destruct (Str.split_slash s) as [|h t] eqn:Es.
      * destruct Hin as [<-|[]]. simpl. now rewrite Ea.
      * destruct Hin as [<-|Hin].
        -- simpl. rewrite Ea. simpl. apply IH. now left.
        -- apply IH. now right.
Qed.

Lemma proper_parts (s : string) : proper_path (Path.parts s) = true.
Proof.
  unfold Path.parts, proper_path. apply forallb_forall. intros c Hc.
  apply filter_In in Hc as [Hin Hne]. unfold proper. rewrite Hne. simpl.
  now apply (split_slash_no_slash s).
Qed.

(** ** A live move, step by step *)

Lemma unique_shape (f : filesystem) (target_dir : path) (nm : string) :
  exists x,
    get_unique_filename f (target_dir ++ [nm]) = target_dir ++ [x]
    /\ Fs.exists_ f (target_dir ++ [x]) = false
    /\ (proper nm = true -> proper x = true).
Proof.
  unfold get_unique_filename.
  destruct (Fs.exists_ f (target_dir ++ [nm])) eqn:E; cbn [negb].
  - destruct (probe_finds f (target_dir ++ [nm]) 1) as (p & Hp). rewrite Hp.
    destruct (probe_some _ _ _ _ _ Hp) as (N & _ & -> & Hfree & _).
    unfold numbered in *. rewrite parent_last in *.
    unfold Path.stem, Path.suffix in *. rewrite name_last in *.
    eexists. split; [reflexivity|]. split; [exact Hfree|].
    intros H. apply proper_numbered_name. unfold proper in H.
    now apply andb_prop in H as [_ H].
  - exists nm. auto.
Qed.

Lemma prefixes_cases (p q : path) :
  In q (Path.prefixes p) -> q = p \/ In q (Path.prefixes (Path.parent p)).
Proof.
  intros H. destruct (prefixes_shape _ _ H) as (a & b & -> & Ha & ->).
  destruct (list_eq_dec string_dec b []) as [->|Hb].
  - left. now rewrite app_nil_r.
  - right. destruct (exists_last Hb) as (b0 & c & ->).
    rewrite app_assoc, parent_last. now apply prefixes_app.
Qed.

Lemma mkdir_parents_inv (p : path) (f f1 : filesystem) :
  Fs.mkdir_parents p f = Ok f1 ->
  (forall q, In q (Path.prefixes p) -> Fs.is_file f q = false)
  /\ Fs.is_dir f1 p = true.
Proof.
  intros H.
  assert (Hnf : forall q, In q (Path.prefixes p) -> Fs.is_file f q = false).
  { unfold Fs.mkdir_parents in H.
    destruct (existsb (Fs.is_file f) (Path.prefixes (Path.parent p))) eqn:E;
      [discriminate|].
    destruct (Fs.is_file f p) eqn:Ep; [discriminate|].
    intros q Hq. destruct (prefixes_cases _ _ Hq) as [->|Hq']; [exact Ep|].
    apply not_true_is_false. intros Hfile.
    assert (existsb (Fs.is_file f) (Path.prefixes (Path.parent p)) = true)
      by (apply existsb_exists; eauto).
    congruence. }
  split; [exact Hnf|].
  destruct (mkdir_parents_ok p f Hnf) as (f' & Hf' & Hdir). congruence.
Qed.

Lemma exists_false_none (f : filesystem) (p : path) :
  Fs.exists_ f p = false <-> Fs.node_at f p = None.
Proof.
  unfold Fs.exists_. destruct (Fs.node_at f p); split; congruence.
Qed.

(** After the category directory is made, the move of a regular file to a
    free name inside it goes through. *)
Lemma move_into (f f1 : filesystem) (src target_dir : path) (x : string)
  (sz : Z) (d : contents) :
  Fs.node_at f src = Some (File sz d) ->
  Fs.node_at f (target_dir ++ [x]) = None ->
  Fs.mkdir_parents target_dir f = Ok f1 ->
  Fs.shutil_move src (target_dir ++ [x]) f1
  = Ok (Fs.put (target_dir ++ [x]) (File sz d) (Fs.remove src f1)).
Proof.
  intros Hsrc Hfree Hmk.
  destruct (mkdir_parents_inv _ _ _ Hmk) as (_ & Hdir).
  assert (Hsrc1 : Fs.node_at f1 src = Some (File sz d))
    by (eapply mkdir_parents_keeps; eauto).
  assert (Hfree1 : Fs.node_at f1 (target_dir ++ [x]) = None).
  { destruct (mkdir_parents_new _ _ _ _ Hmk Hfree) as [H|[Hin _]]; [exact H|].
    apply prefixes_length in Hin. rewrite length_app in Hin. simpl in Hin. lia. }
  assert (Hne : src <> target_dir ++ [x]) by (intros ->; congruence).
  unfold Fs.shutil_move, Fs.rename_file, Fs.is_dir, Fs.exists_.
  rewrite Hfree1, Hsrc1. simpl. rewrite Hfree1, parent_last.
  apply path_eqb_neq in Hne. rewrite Hne.
  unfold Fs.is_dir in Hdir. destruct (Fs.node_at f1 target_dir) as [[|]|];
    try discriminate. reflexivity.
Qed.

Lemma resolve_proper (str_lower : string -> string) (t : table) (ext : string) :
  simple_table t = true -> proper (resolve str_lower t ext) = true.
Proof.
  intros H. unfold resolve. destruct (List.find (owns str_lower ext) t) as [entry|] eqn:E.
  - apply find_some in E as [Hin _]. unfold simple_table in H.
    rewrite forallb_forall in H. now apply H.
  - reflexivity.
Qed.

Section Live.

Variable re_search : string -> string -> option bool.
Variable str_lower : string -> string.
Variable t : table.
Variable dest_path : path.
Variable o : options.
Hypothesis Hplain : plain_move o.
Hypothesis Hsimple : simple_table t = true.

Lemma live_step (c : counters) (s : state) (file_path : path) (sz : Z) (d : contents) :
  file_types s = json_of_table t ->
  Fs.node_at (fs s) file_path = Some (File sz d) ->
  match Fs.mkdir_parents (category_dir_of str_lower t dest_path file_path) (fs s) with
  | Ok f1 =>
      exists x s',
        organize_step re_search str_lower o dest_path (c, s) file_path
        = (mkCounters (files_processed c + 1) (files_moved c + 1), s')
        /\ Fs.node_at (fs s) (category_dir_of str_lower t dest_path file_path ++ [x]) = None
        /\ (proper (Path.name file_path) = true -> proper x = true)
        /\ fs s' = Fs.put (category_dir_of str_lower t dest_path file_path ++ [x]) (File sz d)
                          (Fs.remove file_path f1)
        /\ operations_log s'
           = operations_log s
             ++ [transfer_record (Str.of_nat (clock s)) false file_path
                   (category_dir_of str_lower t dest_path file_path ++ [x])
                   (resolve str_lower t (Path.suffix file_path))]
        /\ file_types s' = file_types s
  | Raise e =>
      organize_step re_search str_lower o dest_path (c, s) file_path
      = (mkCounters (files_processed c + 1) (files_moved c),
         emit (Log_error_processing ERROR file_path e) s)
  end.
Proof.
  intros Hty Hfile.
  destruct Hplain as (Hdry & Hcopy & Hpat & Hex & Hmin & Hmax).
  unfold organize_step, process_file, matches_pattern, check_file_size, transfer.
  rewrite Hpat, Hex, Hmin, Hmax, Hdry, Hcopy. simpl.
  replace (match Fs.stat_size (fs s) file_path with
           | Some _ => true | None => true end) with true
    by now destruct (Fs.stat_size (fs s) file_path).
  simpl. rewrite Hty.
  rewrite (get_category_resolve str_lower t (Path.suffix file_path)).
  rewrite (join_proper _ _ (resolve_proper str_lower t _ Hsimple)).
  fold (category_dir_of str_lower t dest_path file_path).
  destruct (unique_shape (fs s) (category_dir_of str_lower t dest_path file_path)
                         (Path.name file_path))
    as (x & Hx & Hfree & Hprop).
  rewrite Hx. apply exists_false_none in Hfree.
  destruct (Fs.mkdir_parents (category_dir_of str_lower t dest_path file_path) (fs s))
    as [f1|e] eqn:Hmk.
  - simpl. rewrite (move_into _ _ _ _ _ _ _ Hfile Hfree Hmk). simpl.
    eexists x, _. split; [reflexivity|]. simpl. auto.
  - reflexivity.
Qed.

End Live.

(** ** Filesystems that differ by harmless extras *)

Lemma extends_refl (X : path -> Prop) (f : filesystem) : extends_at X f f.
Proof. intros p. now left. Qed.

Lemma extends_trans (X : path -> Prop) (f g h : filesystem) :
  extends_at X f g -> extends_at X g h -> extends_at X f h.
Proof.
  intros Hfg Hgh p. destruct (Hgh p) as [E|[E HX]], (Hfg p) as [E'|[E' HX']].
  - left. congruence.
  - right. auto.
  - right. split; [congruence | exact HX].
  - right. auto.
Qed.

Lemma extends_weaken (X Y : path -> Prop) (f g : filesystem) :
  (forall p, X p -> Y p) -> extends_at X f g -> extends_at Y f g.
Proof. intros HXY H p. destruct (H p) as [E|[E HX]]; [now left | right; auto]. Qed.

Lemma extends_node (X : path -> Prop) (f g : filesystem) (p : path) (n : node) :
  extends_at X f g -> Fs.node_at f p = Some n -> Fs.node_at g p = Some n.
Proof. intros H Hn. destruct (H p) as [E|[E _]]; congruence. Qed.

Lemma extends_none (X : path -> Prop) (f g : filesystem) (p : path) :
  extends_at X f g -> Fs.node_at f p = None -> ~ X p -> Fs.node_at g p = None.
Proof. intros H Hn HX. destruct (H p) as [E|[_ E]]; [congruence | contradiction]. Qed.

Lemma mkdir_extends (dest_path : path) (c : string) (f f1 : filesystem) :
  Fs.mkdir_parents (dest_path ++ [c]) f = Ok f1 ->
  extends_at (category_dir dest_path) f f1.
Proof.
  intros Hmk p. destruct (Fs.node_at f p) as [n|] eqn:E.
  - left. eapply mkdir_parents_keeps; eauto.
  - destruct (mkdir_parents_new _ _ _ p Hmk E) as [H|[Hin _]]; [left; congruence|].
    right. split; [reflexivity|].
    destruct (prefixes_shape _ _ Hin) as (a & b & Hab & Ha & ->).
    split; [exact Ha|]. exists c, b. exact Hab.
Qed.

Lemma mkdir_fold_noop (qs : list path) (g : filesystem) :
  (forall q, In q qs -> Fs.node_at g q = Some Dir) ->
  fold_left Fs.mkdir_one qs g = g.
Proof.
  induction qs as [|q qs IH]; intros H; simpl; [reflexivity|].
  unfold Fs.mkdir_one at 2. rewrite (H q (or_introl eq_refl)).
  apply IH. intros q' Hq'. apply H. now right.
Qed.

(** Making a directory that is already there, inside directories. *)
Lemma mkdir_parents_noop (p : path) (g : filesystem) :
  (forall q, In q (Path.prefixes p) -> Fs.node_at g q = Some Dir) ->
  Fs.mkdir_parents p g = Ok g /\ Fs.is_dir g p = true.
Proof.
  intros H.
  assert (Hnf : forall q, In q (Path.prefixes p) -> Fs.is_file g q = false).
  { intros q Hq. unfold Fs.is_file. now rewrite (H q Hq). }
  destruct (mkdir_parents_ok p g Hnf) as (g' & Hg' & Hdir).
  assert (g' = g).
  { revert Hg'. unfold Fs.mkdir_parents.
    destruct (existsb _ _); [discriminate|]. destruct (Fs.is_file g p); [discriminate|].
    intros [= <-]. now apply mkdir_fold_noop. }
  subst g'. auto.
Qed.

Section Back.

Variable X : path -> Prop.

(** Undoing one move in a filesystem that carries harmless extras brings
    back the filesystem from before the move, extras apart. *)
Lemma undo_move_back (f f1 : filesystem) (src dst : path) (sz : Z) (d : contents)
  (count : Z) (su : state) :
  extends_at X f f1 ->
  Fs.node_at f src = Some (File sz d) ->
  Fs.node_at f dst = None ->
  ~ X src -> ~ X dst ->
  (forall q, In q (Path.prefixes (Path.parent src)) -> Fs.node_at f q = Some Dir) ->
  proper_path src = true -> proper_path dst = true ->
  extends_at X (Fs.put dst (File sz d) (Fs.remove src f1)) (fs su) ->
  exists su',
    undo_record (JStr "move") (JStr (Path.to_str dst)) (JStr (Path.to_str src)) count su
    = ((count + 1)%Z, su')
    /\ extends_at X f (fs su').
Proof.
  intros Hf1 Hsrc Hdst HXs HXd Hanc Hps Hpd Hsu.
  assert (Hsrc_ne : src <> []) by (intros ->; discriminate).
  assert (Hdst_ne : dst <> []) by (intros ->; discriminate).
  assert (Hne : dst <> src) by (intros ->; congruence).
  set (f2 := Fs.put dst (File sz d) (Fs.remove src f1)) in *.
  assert (Hf2 : forall p, p <> src -> p <> dst -> Fs.node_at f2 p = Fs.node_at f1 p).
  { intros p H1 H2. unfold f2. rewrite node_at_put_ne by congruence.
    now rewrite node_at_remove_ne by congruence. }
  assert (Hg_dst : Fs.node_at (fs su) dst = Some (File sz d)).
  { apply (extends_node X f2); [exact Hsu|]. unfold f2. now apply node_at_put_eq. }
  assert (Hg_src : Fs.node_at (fs su) src = None).
  { apply (extends_none X f2); [exact Hsu | | exact HXs].
    unfold f2. rewrite node_at_put_ne by exact Hne. now apply node_at_remove_eq. }
  assert (Hg_anc : forall q, In q (Path.prefixes (Path.parent src)) ->
                             Fs.node_at (fs su) q = Some Dir).
  { intros q Hq. apply (extends_node X f2); [exact Hsu|].
    assert (Hq_f : Fs.node_at f q = Some Dir) by now apply Hanc.
    rewrite Hf2; [now apply (extends_node X f) | congruence | congruence]. }
  destruct (mkdir_parents_noop _ _ Hg_anc) as (Hmk & Hdir).
  assert (Hmove : Fs.shutil_move dst src (fs su)
                  = Ok (Fs.put src (File sz d) (Fs.remove dst (fs su)))).
  { unfold Fs.shutil_move, Fs.rename_file, Fs.is_dir, Fs.exists_.
    rewrite Hg_src, Hg_dst. simpl. rewrite Hg_src.
    apply path_eqb_neq in Hne. rewrite Hne.
    unfold Fs.is_dir in Hdir. destruct (Fs.node_at (fs su) (Path.parent src)) as [[|]|];
      try discriminate. reflexivity. }
  eexists. split.
  - unfold undo_record, undo_try, destination_exists, undo_move, Json.to_path.
    simpl Json.eqb_str. cbv iota.
    rewrite (of_str_to_str dst Hpd), (of_str_to_str src Hps).
    unfold Fs.exists_. rewrite Hg_dst, Hmk, Hmove. reflexivity.
  - simpl. intros p.
    destruct (list_eq_dec string_dec p src) as [->|Hp1].
    { left. rewrite node_at_put_eq by exact Hsrc_ne. now rewrite Hsrc. }
    destruct (list_eq_dec string_dec p dst) as [->|Hp2].
    { left. rewrite node_at_put_ne by congruence.
      rewrite node_at_remove_eq by exact Hdst_ne. now rewrite Hdst. }
    rewrite node_at_put_ne by congruence. rewrite node_at_remove_ne by congruence.
    destruct (Hsu p) as [E|[E HX]]; rewrite Hf2 in E by assumption.
    + rewrite E. apply Hf1.
    + right. split; [|exact HX]. destruct (Hf1 p) as [E'|[E' _]]; congruence.
Qed.

End Back.

(** ** Round trip of a plain move *)

Lemma undo_loop_app (dry : bool) (a b : list json) (count : Z) (s : state) :
  undo_loop dry (a ++ b) count s
  = match undo_loop dry a count s with
    | (Ok n, s') => undo_loop dry b n s'
    | (Raise e, s') => (Raise e, s')
    end.
Proof.
  revert count s. induction a as [|r a IH]; intros count s; [reflexivity|].
  cbn [app undo_loop].
  destruct (Json.getitem r "source"); [|reflexivity].
  destruct (Json.getitem r "destination"); [|reflexivity].
  destruct (Json.getitem r "operation"); [|reflexivity].
  destruct dry; [apply IH|].
  destruct (undo_record a2 a1 a0 count s). apply IH.
Qed.

Lemma proper_name (p : path) : proper_path p = true -> p <> [] -> proper (Path.name p) = true.
Proof.
  intros H Hp. destruct (exists_last Hp) as (p0 & c & ->). rewrite name_last.
  rewrite proper_path_app in H. apply andb_prop in H as [_ H]. simpl in H.
  now rewrite andb_true_r in H.
Qed.

Section RoundTrip.

Variable re_search : string -> string -> option bool.
Variable str_lower : string -> string.
Variable t : table.
Variable dest_path : path.
Variable o : options.
Variable X : path -> Prop.
Hypothesis Hplain : plain_move o.
Hypothesis Hsimple : simple_table t = true.
Hypothesis Hdest : proper_path dest_path = true.
Hypothesis HXdirs : forall p, category_dir dest_path p -> X p.
Hypothesis HXout : forall p, transferred_path dest_path p -> ~ X p.

Lemma round_trip_loop (files : list path) (c0 : counters) (s0 : state) :
  NoDup files ->
  (forall g, In g files -> candidate_ok X (fs s0) g) ->
  file_types s0 = json_of_table t ->
  exists records,
    let acc' := organize_loop re_search str_lower o dest_path files (c0, s0) in
    operations_log (snd acc') = operations_log s0 ++ records
    /\ files_moved (fst acc') = (files_moved c0 + Z.of_nat (List.length records))%Z
    /\ (forall su count,
          extends_at X (fs (snd acc')) (fs su) ->
          exists su',
            undo_loop false (rev records) count su
            = (Ok (count + Z.of_nat (List.length records))%Z, su')
            /\ extends_at X (fs s0) (fs su'))
    /\ (forall p, Fs.node_at (fs s0) p = Some Dir ->
                  Fs.node_at (fs (snd acc')) p = Some Dir)
    /\ (forall p, Fs.node_at (fs (snd acc')) p <> None ->
                  Fs.node_at (fs s0) p <> None
                  \/ category_dir dest_path p \/ transferred_path dest_path p).
Proof.
  revert c0 s0. induction files as [|f files IH]; intros c0 s0 Hnd Hok Hty.
  - exists []. cbn. rewrite app_nil_r, Z.add_0_r. repeat split; auto.
    intros su count Hsu. exists su. now rewrite Z.add_0_r.
  - destruct (Hok f (or_introl eq_refl)) as ((sz & d & Hfile) & Hpf & Hanc & HXf).
    assert (Hf_ne : f <> []) by (intros ->; discriminate).
    inversion Hnd as [|? ? Hnotin Hnd']; subst.
    pose proof (live_step re_search str_lower t dest_path o Hplain Hsimple c0 s0 f sz d Hty Hfile)
      as Hstep.
    unfold organize_loop. cbn [fold_left].
    fold (organize_loop re_search str_lower o dest_path files
            (organize_step re_search str_lower o dest_path (c0, s0) f)).
    destruct (Fs.mkdir_parents (category_dir_of str_lower t dest_path f) (fs s0)) as [f1|e] eqn:Hmk.
    + (* the file is transferred *)
      destruct Hstep as (x & s' & Hstep & Hfree & Hpx & Hfs & Hlog & Hty').
      rewrite Hstep.
      set (dst := category_dir_of str_lower t dest_path f ++ [x]) in *.
      assert (Hext1 : extends_at X (fs s0) f1).
      { apply (extends_weaken (category_dir dest_path)); [exact HXdirs|].
        eapply mkdir_extends. exact Hmk. }
      assert (Hkeep : forall p n, Fs.node_at (fs s0) p = Some n -> p <> f ->
                                  Fs.node_at (fs s') p = Some n).
      { intros p n Hp Hpf'. rewrite Hfs.
        rewrite node_at_put_ne by (intros ->; congruence).
        rewrite node_at_remove_ne by congruence.
        eapply mkdir_parents_keeps; eauto. }
      assert (Hok' : forall g, In g files -> candidate_ok X (fs s') g).
      { intros g Hg. destruct (Hok g (or_intror Hg)) as ((sz' & d' & Hg1) & Hg2 & Hg3 & Hg4).
        assert (g <> f) by (intros ->; contradiction).
        repeat split; auto.
        - exists sz', d'. now apply Hkeep.
        - intros q Hq. apply Hkeep; [now apply Hg3|]. intros ->.
          rewrite (Hg3 f Hq) in Hfile. discriminate. }
      destruct (IH (mkCounters (files_processed c0 + 1) (files_moved c0 + 1)) s'
                   Hnd' Hok' (eq_trans Hty' Hty))
        as (records & Hrec & Hmoved & Hundo & Hdirs & Hnew).
      cbv zeta in Hrec, Hmoved, Hundo, Hdirs, Hnew.
      set (acc' := organize_loop re_search str_lower o dest_path files
                     (mkCounters (files_processed c0 + 1) (files_moved c0 + 1), s')) in *.
      set (r := transfer_record (Str.of_nat (clock s0)) false f dst
                  (resolve str_lower t (Path.suffix f))) in *.
      exists (r :: records). cbv zeta.
      assert (Hdst_out : transferred_path dest_path dst).
      { exists (resolve str_lower t (Path.suffix f)), x. unfold dst, category_dir_of.
        now rewrite <- app_assoc. }
      assert (Hpd : proper_path dst = true).
      { unfold dst, category_dir_of. rewrite !proper_path_app, Hdest. simpl.
        rewrite (resolve_proper str_lower t _ Hsimple), (Hpx (proper_name f Hpf Hf_ne)).
        reflexivity. }
      split; [|split; [|split; [|split]]].
      * rewrite Hrec, Hlog. now rewrite <- app_assoc.
      * rewrite Hmoved. cbn [files_moved List.length]. lia.
      * intros su count Hsu. cbn [rev]. rewrite undo_loop_app.
        destruct (Hundo su count Hsu) as (su1 & Hloop & Hsu1). rewrite Hloop.
        rewrite Hfs in Hsu1.
        destruct (undo_move_back X (fs s0) f1 f dst sz d
                    (count + Z.of_nat (List.length records)) su1
                    Hext1 Hfile Hfree HXf (HXout dst Hdst_out) Hanc Hpf Hpd Hsu1)
          as (su' & Hrecord & Hsu').
        exists su'. split; [|exact Hsu'].
        rewrite (undo_loop_step r [] _ su1 (JStr (Path.to_str f))
                   (JStr (Path.to_str dst)) (JStr "move") eq_refl eq_refl eq_refl).
        rewrite Hrecord. cbn [fst snd undo_loop List.length]. f_equal. f_equal. lia.
      * intros p Hp. apply Hdirs. apply Hkeep; [exact Hp|]. intros ->. congruence.
      * intros p Hp. destruct (Hnew p Hp) as [H|[H|H]]; auto.
        destruct (list_eq_dec string_dec p dst) as [->|Hpd'].
        { right. now right. }
        rewrite Hfs in H. rewrite node_at_put_ne in H by congruence.
        destruct (list_eq_dec string_dec p f) as [->|Hpf'].
        { rewrite node_at_remove_eq in H by exact Hf_ne. congruence. }
        rewrite node_at_remove_ne in H by congruence.
        destruct (mkdir_extends _ _ _ _ Hmk p) as [E|[_ E]];
          [left; congruence | right; now left].
    + (* the category directory cannot be made *)
      rewrite Hstep.
      set (s' := emit (Log_error_processing ERROR f e) s0).
      assert (Hok' : forall g, In g files -> candidate_ok X (fs s') g)
        by (intros g Hg; apply Hok; now right).
      destruct (IH (mkCounters (files_processed c0 + 1) (files_moved c0)) s'
                   Hnd' Hok' Hty) as (records & H).
      exists records. exact H.
Qed.

End RoundTrip.

(** ** The candidates of a well-formed filesystem *)

Lemma is_prefix_app (p rest : path) : Path.is_prefix p (p ++ rest) = true.
Proof.
  induction p as [|c p IH]; simpl; [reflexivity|]. now rewrite String.eqb_refl.
Qed.

Lemma is_prefix_ancestor (q p : path) : Path.is_prefix q p = true -> ancestor_of q p.
Proof.
  revert p. induction q as [|a q IH]; intros p H.
  - now exists p.
  - destruct p as [|b p]; [discriminate|]. simpl in H.
    apply andb_prop in H as [Hab H]. apply String.eqb_eq in Hab. subst b.
    destruct (IH p H) as (rest & ->). now exists rest.
Qed.

Lemma distinct_NoDup (l : list path) : distinct l = true -> NoDup l.
Proof.
  induction l as [|p l IH]; simpl; intros H; [constructor|].
  apply andb_prop in H as [Hp Hl]. constructor; [|now apply IH].
  intros Hin. apply negb_true_iff in Hp.
  assert (existsb (Path.eqb p) l = true); [|congruence].
  apply existsb_exists. exists p. split; [exact Hin | apply path_eqb_refl].
Qed.

Lemma NoDup_map_filter {A B : Type} (g : A -> B) (P : A -> bool) (l : list A) :
  NoDup (map g l) -> NoDup (map g (filter P l)).
Proof.
  induction l as [|a l IH]; simpl; intros H; [constructor|].
  inversion H as [|? ? Hnotin Hnd]; subst. destruct (P a); [|now apply IH].
  simpl. constructor; [|now apply IH].
  intros Hin. apply Hnotin. apply in_map_iff in Hin as (b & Hb & Hin).
  apply filter_In in Hin as [Hin _]. apply in_map_iff. eauto.
Qed.

Lemma candidates_NoDup (o : options) (src : path) (f : filesystem) :
  NoDup (map fst f) -> NoDup (candidates o src f).
Proof.
  intros H. unfold candidates. apply NoDup_filter.
  destruct (recursive o); unfold Fs.rglob, Fs.iterdir; now apply NoDup_map_filter.
Qed.

(** A candidate is a regular file, listed by the filesystem, strictly below
    the source. *)
Lemma candidates_below (o : options) (src : path) (f : filesystem) (g : path) :
  In g (candidates o src f) ->
  Fs.is_file f g = true /\ In g (map fst f)
  /\ exists rest, rest <> [] /\ g = src ++ rest.
Proof.
  unfold candidates. intros H. apply filter_In in H as [Hin Hfile].
  split; [exact Hfile|].
  destruct (recursive o); unfold Fs.rglob, Fs.iterdir in Hin;
    apply in_map_iff in Hin as ([g' n] & <- & Hin); apply filter_In in Hin as [Hin Hsel];
    cbn [fst] in *; (split; [apply in_map_iff; exists (g', n); auto|]).
  - apply andb_prop in Hsel as [Hpre Hne]. apply negb_true_iff, path_eqb_neq in Hne.
    destruct (is_prefix_ancestor _ _ Hpre) as (rest & E). exists rest. split; [|exact E].
    intros ->. apply Hne. now rewrite app_nil_r in E.
  - destruct (list_eq_dec string_dec g' []) as [->|Hne]; [discriminate|].
    assert (Hpar : Path.eqb (Path.parent g') src = true)
      by (destruct g'; [congruence | exact Hsel]).
    apply path_eqb_eq in Hpar.
    destruct (exists_last Hne) as (p0 & c & E). rewrite E in Hpar |- *.
    rewrite parent_last in Hpar. subst p0. exists [c]. split; [discriminate | reflexivity].
Qed.

Lemma well_formed_entry (f : filesystem) (g : path) :
  well_formed f = true -> In g (map fst f) ->
  proper_path g = true
  /\ forall q, In q (Path.prefixes (Path.parent g)) -> Fs.node_at f q = Some Dir.
Proof.
  unfold well_formed. intros H Hin. apply andb_prop in H as [_ H].
  rewrite forallb_forall in H. apply in_map_iff in Hin as (e & <- & He).
  specialize (H e He). apply andb_prop in H as [H Hdirs]. apply andb_prop in H as [_ Hp].
  split; [exact Hp|]. intros q Hq. rewrite forallb_forall in Hdirs.
  specialize (Hdirs q Hq). unfold Fs.is_dir in Hdirs.
  destruct (Fs.node_at f q) as [[|]|]; congruence.
Qed.

Lemma well_formed_NoDup (f : filesystem) : well_formed f = true -> NoDup (map fst f).
Proof.
  unfold well_formed. intros H. apply andb_prop in H as [H _]. now apply distinct_NoDup.
Qed.

(** Below a source that is neither the destination nor above it, nothing
    is a category directory or an ancestor of one. *)
Lemma below_source_clear (src dest_path rest : path) :
  Path.is_prefix src dest_path = false -> rest <> [] ->
  ~ category_dir dest_path (src ++ rest).
Proof.
  intros Hpre Hrest (_ & c & more & E).
  assert (Hsplit : exists r', dest_path = src ++ r').
  { rewrite <- app_assoc in E.
    assert (Hne : rest ++ more <> []) by (destruct rest; [congruence | discriminate]).
    destruct (exists_last Hne) as (r0 & z & Ez). rewrite Ez, app_assoc in E.
    apply app_inj_tail in E as [E _]. now exists r0. }
  destruct Hsplit as (r' & ->). rewrite is_prefix_app in Hpre. discriminate.
Qed.

Lemma transferred_not_category_dir (dest_path p : path) :
  transferred_path dest_path p -> ~ category_dir dest_path p.
Proof.
  intros (c & x & ->) (_ & c' & more & E).
  apply (f_equal (@List.length string)) in E. rewrite !length_app in E. simpl in E. lia.
Qed.

Lemma find_in_some (f : filesystem) (p : path) :
  In p (map fst f) -> exists n, Fs.find f p = Some n.
Proof.
  induction f as [|[q m] f IH]; simpl; [tauto|].
  destruct (Path.eqb q p) eqn:E; [now exists m|].
  intros [->|H]; [now rewrite path_eqb_refl in E | now apply IH].
Qed.

(** In a well-formed filesystem, the ancestors of a directory are
    directories. *)
Lemma well_formed_dir_ancestors (f : filesystem) (p q : path) :
  well_formed f = true -> Fs.is_dir f p = true ->
  In q (Path.prefixes p) -> Fs.node_at f q = Some Dir.
Proof.
  intros Hwf Hdir Hq.
  destruct (prefixes_cases _ _ Hq) as [->|Hq'].
  - unfold Fs.is_dir in Hdir. destruct (Fs.node_at f p) as [[|]|]; congruence.
  - assert (Hp : p <> []) by (intros ->; destruct Hq').
    assert (Hin : In p (map fst f)).
    { apply exists_in; [exact Hp|]. unfold Fs.exists_, Fs.is_dir in *.
      now destruct (Fs.node_at f p). }
    now apply (well_formed_entry f p Hwf Hin).
Qed.

(** ** The round trip of a whole run *)

Lemma is_dir_exists (f : filesystem) (p : path) :
  Fs.is_dir f p = true -> Fs.exists_ f p = true.
Proof. unfold Fs.is_dir, Fs.exists_. now destruct (Fs.node_at f p) as [[|]|]. Qed.

Lemma is_dir_node (f : filesystem) (p : path) :
  Fs.is_dir f p = true <-> Fs.node_at f p = Some Dir.
Proof.
  unfold Fs.is_dir. destruct (Fs.node_at f p) as [[|]|]; split; congruence.
Qed.

(** Resolving a path only drops components. *)
Lemma forallb_removelast {A : Type} (P : A -> bool) (l : list A) :
  forallb P l = true -> forallb P (removelast l) = true.
Proof.
  induction l as [|a l IH]; [reflexivity|]. intros H. cbn [forallb] in H.
  apply andb_true_iff in H. destruct H as [Ha Hl].
  destruct l as [|b l]; [reflexivity|].
  change (removelast (a :: b :: l)) with (a :: removelast (b :: l)).
  cbn [forallb]. now rewrite Ha, (IH Hl).
Qed.

Lemma resolve_from_forallb (P : string -> bool) (base p : path) :
  forallb P base = true -> forallb P p = true ->
  forallb P (Path.resolve_from base p) = true.
Proof.
  revert base. induction p as [|c p IH]; intros base Hb Hp; simpl; [exact Hb|].
  cbn [forallb] in Hp. apply andb_true_iff in Hp. destruct Hp as [Hc Hp].
  destruct (String.eqb c "..").
  - apply IH; [now apply forallb_removelast | exact Hp].
  - apply IH; [|exact Hp]. rewrite forallb_app. cbn [forallb]. now rewrite Hb, Hc.
Qed.

Lemma proper_resolve (s : string) : proper_path (Path.resolve (Path.of_str s)) = true.
Proof.
  unfold proper_path, Path.resolve. apply resolve_from_forallb; [reflexivity|].
  apply proper_parts.
Qed.

(** A non-empty ledger saved to a free path inside a directory. *)
Lemma save_undo_log_writes (log_file : string) (s : state) (r : json)
  (records : list json) :
  operations_log s = r :: records ->
  Fs.node_at (fs s) (Path.of_str log_file) = None ->
  Fs.is_dir (fs s) (Path.parent (Path.of_str log_file)) = true ->
  exists session,
    Fs.read (fs (snd (save_undo_log log_file s))) (Path.of_str log_file)
    = Ok (Doc (JObj [("session_info", session); ("operations", JArr (r :: records))]))
    /\ forall p, p <> Path.of_str log_file ->
                 Fs.node_at (fs (snd (save_undo_log log_file s))) p
                 = Fs.node_at (fs s) p.
Proof.
  intros Hlog Hfree Hpar. unfold save_undo_log. rewrite Hlog.
  cbn [now_isoformat]. unfold write_doc. cbn [fs].
  assert (Hnd : Fs.is_dir (fs s) (Path.of_str log_file) = false)
    by (unfold Fs.is_dir; now rewrite Hfree).
  rewrite Hpar, Hnd. cbn [snd fs emit set_fs].
  assert (Hne : Path.of_str log_file <> []) by (intros E; rewrite E in Hfree; discriminate).
  eexists. split.
  - unfold Fs.read.
    match goal with
    | |- context [Fs.node_at (Fs.put ?p ?n ?f) ?p] =>
        rewrite (node_at_put_eq f p n Hne)
    end. reflexivity.
  - intros p Hp. now rewrite node_at_put_ne by congruence.
Qed.

(** [undo_operations] on a log that holds a ledger document. *)
Lemma undo_operations_replays (log_file : string) (s s' : state)
  (session : json) (records : list json) (n : Z) :
  Fs.read (fs s) (Path.of_str log_file)
  = Ok (Doc (JObj [("session_info", session); ("operations", JArr records)])) ->
  undo_loop false (rev records) 0%Z s = (Ok n, s') ->
  undo_operations log_file false s = (Ok n, emit (Log_undone_total INFO n) s').
Proof.
  intros Hread Hloop. unfold undo_operations, undo_body. rewrite Hread.
  cbn [json_load get_operations Json.get]. change (String.eqb "operations" "session_info") with false.
  change (String.eqb "operations" "operations") with true. cbv iota.
  unfold Json.reversed, Json.iter. now rewrite Hloop.
Qed.

(** The round trip of a plain move, where it holds.  A fresh organizer with a typed category
    table moves, without filters, the files of a source that is neither the
    destination nor above it, in a well-formed filesystem; the ledger is
    saved to a free path outside the destination and undone.  Then the undo
    counts every transfer of the run, and every path other than the log and
    the category directories holds exactly what it held before the run:
    each transferred file is back at its source and no destination keeps it. *)
Lemma plain_move_round_trip (re_search : string -> string -> option bool)
  (str_lower : string -> string)
  (t : table) (source destination log_file : string) (o : options) (s : state) :
  plain_move o ->
  simple_table t = true ->
  file_types s = json_of_table t ->
  operations_log s = [] ->
  well_formed (fs s) = true ->
  Fs.is_dir (fs s) (Path.resolve (Path.of_str source)) = true ->
  Path.is_prefix (Path.resolve (Path.of_str source))
                 (Path.resolve (Path.of_str destination)) = false ->
  Fs.node_at (fs s) (Path.of_str log_file) = None ->
  Fs.is_dir (fs s) (Path.parent (Path.of_str log_file)) = true ->
  ~ category_dir (Path.resolve (Path.of_str destination)) (Path.of_str log_file) ->
  Path.is_prefix (Path.resolve (Path.of_str destination)) (Path.of_str log_file) = false ->
  exists processed moved,
    fst (organize_files re_search str_lower source destination o s) = Ok (processed, moved)
    /\ fst (round_trip re_search str_lower source destination log_file o s) = Ok moved
    /\ forall p, p <> Path.of_str log_file ->
                 ~ category_dir (Path.resolve (Path.of_str destination)) p ->
                 Fs.node_at (fs (snd (round_trip re_search str_lower source destination
                                                 log_file o s))) p
                 = Fs.node_at (fs s) p.
Proof.
  intros Hplain Hsimple Hty Hlog0 Hwf Hsrc Hsep HLfree HLpar HLcat HLout.
  set (src := Path.resolve (Path.of_str source)) in *.
  set (dest := Path.resolve (Path.of_str destination)) in *.
  set (L := Path.of_str log_file) in *.
  set (X := fun p => category_dir dest p \/ p = L).
  assert (HXdirs : forall p, category_dir dest p -> X p) by (intros p H; now left).
  assert (HXout : forall p, transferred_path dest p -> ~ X p).
  { intros p Hp [H| ->]; [now apply (transferred_not_category_dir dest p)|].
    destruct Hp as (c & x & E). unfold L in E. fold L in E.
    rewrite E, is_prefix_app in HLout. discriminate. }
  set (files := candidates o src (fs s)).
  set (s0 := emit (Log_found INFO (List.length files)) s).
  assert (Hnd : NoDup files) by (apply candidates_NoDup; now apply well_formed_NoDup).
  assert (Hok : forall g, In g files -> candidate_ok X (fs s0) g).
  { intros g Hg. destruct (candidates_below _ _ _ _ Hg) as (Hfile & Hin & rest & Hrest & ->).
    destruct (well_formed_entry _ _ Hwf Hin) as (Hp & Hanc).
    unfold Fs.is_file in Hfile. cbn [s0 fs emit].
    destruct (Fs.node_at (fs s) (src ++ rest)) as [[sz d|]|] eqn:E; try discriminate.
    repeat split; eauto.
    intros [H|H]; [now apply (below_source_clear src dest rest Hsep Hrest)|].
    rewrite H in E. congruence. }
  destruct (round_trip_loop re_search str_lower t dest o X Hplain Hsimple (proper_resolve destination)
              HXdirs HXout files (mkCounters 0 0) s0 Hnd Hok Hty)
    as (records & Hrec & Hmoved & Hundo & Hdirs & Hnew).
  cbv zeta in Hrec, Hmoved, Hundo, Hdirs, Hnew.
  unfold round_trip, organize_files. fold src dest.
  rewrite (is_dir_exists _ _ Hsrc), Hsrc. cbn [negb]. fold files. fold s0.
  destruct (organize_loop re_search str_lower o dest files (mkCounters 0 0, s0)) as [c s1].
  cbn [fst snd] in *. change (operations_log s0) with (operations_log s) in Hrec.
  rewrite Hlog0 in Hrec. cbn [app] in Hrec.
  change (fs s0) with (fs s) in *.
  exists (files_processed c), (files_moved c). split; [reflexivity|].
  assert (HL1 : Fs.node_at (fs s1) L = None).
  { destruct (Fs.node_at (fs s1) L) eqn:E; [|reflexivity]. exfalso.
    destruct (Hnew L) as [H|[H|H]]; [congruence | congruence | contradiction |].
    apply (HXout L H). now right. }
  assert (HLanc1 : forall q, In q (Path.prefixes (Path.parent L)) ->
                             Fs.node_at (fs s1) q = Some Dir).
  { intros q Hq. apply Hdirs. now apply (well_formed_dir_ancestors (fs s) (Path.parent L)). }
  assert (HLpar1 : Fs.is_dir (fs s1) (Path.parent L) = true).
  { apply is_dir_node, Hdirs. now apply is_dir_node. }
  destruct records as [|r records].
  - (* nothing was transferred: no log is written, the undo finds none *)
    unfold save_undo_log. rewrite Hrec. cbn [snd].
    unfold undo_operations, undo_body, Fs.read. fold L. rewrite HL1.
    replace (existsb (Fs.is_file (fs s1)) (Path.prefixes (Path.parent L))) with false.
    2:{ symmetry. apply not_true_is_false. intros H.
        apply existsb_exists in H as (q & Hq & Hfile).
        unfold Fs.is_file in Hfile. rewrite (HLanc1 q Hq) in Hfile. discriminate. }
    cbn. split; [now rewrite Hmoved|].
    intros p HpL Hpc.
    destruct (Hundo s1 0%Z (extends_refl X (fs s1))) as (su' & Hloop & Hext).
    cbn in Hloop. injection Hloop as <-.
    destruct (Hext p) as [E|[_ [H|H]]]; [exact E | contradiction | contradiction].
  - (* the ledger is written to the log and replayed *)
    destruct (save_undo_log_writes log_file s1 r records Hrec HL1 HLpar1)
      as (session & Hread & Hsame).
    fold L in Hread, Hsame.
    set (s2 := snd (save_undo_log log_file s1)) in *.
    assert (Hext2 : extends_at X (fs s1) (fs s2)).
    { intros p. destruct (list_eq_dec string_dec p L) as [->|Hp].
      - right. split; [exact HL1 | now right].
      - left. now apply Hsame. }
    destruct (Hundo s2 0%Z Hext2) as (su' & Hloop & Hext).
    rewrite (undo_operations_replays log_file s2 su' session (r :: records) _
               Hread Hloop).
    cbn [fst snd fs emit].
    split; [rewrite Hmoved; f_equal; cbn [files_moved]; lia|].
    intros p HpL Hpc.
    destruct (Hext p) as [E|[_ [H|H]]]; [exact E | contradiction | contradiction].
Qed.

(** The scenario of the specification satisfies every assumption. *)
Lemma plain_move_round_trip_witness :
  exists processed moved,
    fst (organize_files re_search_plain lower_plain "/src" "/out" default_options (init two_files))
    = Ok (processed, moved)
    /\ fst (round_trip re_search_plain lower_plain "/src" "/out" "/log.json" default_options
                       (init two_files)) = Ok moved
    /\ forall p, p <> Path.of_str "/log.json" ->
                 ~ category_dir (Path.of_str "/out") p ->
                 Fs.node_at (fs (snd (round_trip re_search_plain lower_plain "/src" "/out" "/log.json"
                                                 default_options (init two_files)))) p
                 = Fs.node_at (fs (init two_files)) p.
Proof.
  apply (plain_move_round_trip re_search_plain lower_plain DEFAULT_FILE_TYPES);
    try reflexivity.
  - repeat split.
  - intros (_ & c & rest & E). discriminate E.
Defined.

Example round_trip_scenario_count :
  fst (round_trip re_search_plain lower_plain "/src" "/out" "/log.json" default_options
                  (init two_files)) = Ok 2%Z.
Proof. reflexivity. Qed.

(** ** The undo engine, record by record *)







(** Creating the parents of a path leaves each of them a directory. *)
Lemma mkdir_parents_dirs (p : path) (f f1 : filesystem) (q : path) :
  Fs.mkdir_parents p f = Ok f1 -> In q (Path.prefixes p) ->
  Fs.node_at f1 q = Some Dir.
Proof.
  intros Hmk Hq. destruct (mkdir_parents_inv _ _ _ Hmk) as (Hnf & _).
  unfold Fs.mkdir_parents in Hmk.
  destruct (existsb _ _); [discriminate|]. destruct (Fs.is_file f p); [discriminate|].
  injection Hmk as <-. apply mkdir_fold_dir; [exact Hq | | exact Hnf].
  now apply (prefixes_nonroot p).
Qed.

(** A regular file on the way blocks the creation of the parents. *)
Lemma mkdir_parents_blocked (p : path) (f : filesystem) (q : path) :
  In q (Path.prefixes p) -> Fs.is_file f q = true ->
  exists e, Fs.mkdir_parents p f = Raise e.
Proof.
  intros Hq Hfile. destruct (Fs.mkdir_parents p f) as [f1|e] eqn:Hmk; [|eauto].
  destruct (mkdir_parents_inv _ _ _ Hmk) as (Hnf & _).
  rewrite (Hnf q Hq) in Hfile. discriminate.
Qed.

(** What moving a regular file back does to the filesystem. *)
Lemma move_back_effect (f : filesystem) (src dst : path) (sz : Z) (d : contents) :
  Fs.node_at f dst = Some (File sz d) ->
  Fs.is_dir f src = false ->
  (forall q, In q (Path.prefixes (Path.parent src)) -> Fs.is_file f q = false) ->
  exists f1 f2,
    Fs.mkdir_parents (Path.parent src) f = Ok f1
    /\ Fs.shutil_move dst src f1 = Ok f2
    /\ Fs.node_at f2 src = Some (File sz d)
    /\ (src <> dst -> Fs.node_at f2 dst = None)
    /\ (forall q, In q (Path.prefixes (Path.parent src)) -> Fs.node_at f2 q = Some Dir)
    /\ (forall p, p <> src -> p <> dst -> ~ In p (Path.prefixes (Path.parent src)) ->
                  Fs.node_at f2 p = Fs.node_at f p).
Proof.
  intros Hdst Hsrc Hnf.
  assert (Hsrc_ne : src <> []) by (intros ->; discriminate).
  assert (Hshort : forall q, In q (Path.prefixes (Path.parent src)) -> q <> src).
  { intros q Hq ->. apply prefixes_length in Hq.
    destruct (exists_last Hsrc_ne) as (p0 & c & E). rewrite E in Hq.
    rewrite parent_last, length_app in Hq. simpl in Hq. lia. }
  assert (Hnotdst : forall q, In q (Path.prefixes (Path.parent src)) -> q <> dst).
  { intros q Hq ->. specialize (Hnf _ Hq). unfold Fs.is_file in Hnf.
    rewrite Hdst in Hnf. discriminate. }
  assert (Hother : forall f1 p, Fs.mkdir_parents (Path.parent src) f = Ok f1 ->
            ~ In p (Path.prefixes (Path.parent src)) ->
            Fs.node_at f1 p = Fs.node_at f p).
  { intros f1 p Hmk Hp. destruct (Fs.node_at f p) as [n|] eqn:E.
    - eapply mkdir_parents_keeps; eauto.
    - destruct (mkdir_parents_new _ _ _ p Hmk E) as [H|[H _]]; [exact H | contradiction]. }
  destruct (list_eq_dec string_dec src dst) as [<-|Hne].
  - (* the record's source is its destination: the file stays *)
    destruct (mkdir_parents_ok _ _ Hnf) as (f1 & Hmk & Hdir).
    assert (Hsrc1 : Fs.node_at f1 src = Some (File sz d))
      by (eapply mkdir_parents_keeps; eauto).
    exists f1, f1. split; [exact Hmk|]. split.
    { unfold Fs.shutil_move, Fs.rename_file, Fs.is_dir. rewrite Hsrc1. cbn [andb].
      rewrite Hsrc1. now rewrite path_eqb_refl. }
    split; [exact Hsrc1|]. split; [congruence|]. split.
    + intros q Hq. now apply (mkdir_parents_dirs _ _ _ _ Hmk).
    + intros p _ _ Hp. now apply Hother.
  - destruct (move_back f src dst sz d Hdst Hsrc Hne Hnf) as (f1 & Hmk & Hmv & Hat & Hgone).
    exists f1, (Fs.put src (File sz d) (Fs.remove dst f1)).
    split; [exact Hmk|]. split; [exact Hmv|]. split; [exact Hat|].
    split; [intros _; exact Hgone|]. split.
    + intros q Hq. rewrite node_at_put_ne by (apply not_eq_sym; now apply Hshort).
      rewrite node_at_remove_ne by (apply not_eq_sym; now apply Hnotdst).
      now apply (mkdir_parents_dirs _ _ _ _ Hmk).
    + intros p Hps Hpd Hp. rewrite node_at_put_ne by congruence.
      rewrite node_at_remove_ne by congruence. now apply Hother.
Qed.

(** C5, as stated, fails: here the destination of the move record exists,
    but a regular file has taken the place of the source's parent.  The
    parent cannot be recreated, the error is logged, and the file is not
    moved back: it stays at the destination and the run returns 0. *)
Lemma undo_blocked_move_stays :
  Fs.exists_ (fs (init source_taken)) ["out"; "Images"; "photo.jpg"] = true
  /\ fst (undo_operations "/log.json" false (init source_taken)) = Ok 0%Z
  /\ Fs.node_at (fs (snd (undo_operations "/log.json" false (init source_taken))))
                ["src"; "photo.jpg"] = None
  /\ Fs.node_at (fs (snd (undo_operations "/log.json" false (init source_taken))))
                ["out"; "Images"; "photo.jpg"] = Some (File 2000 (Text "photo"))
  /\ console (snd (undo_operations "/log.json" false (init source_taken)))
     = [ Log_undo_error ERROR FileExistsError; Log_undone_total INFO 0 ].
Proof. vm_compute. repeat split. Qed.

(** C5, amended.  [undo_operations] visits the records of the ledger last
    first: the record appended last is undone from the state the call starts
    in, then the earlier ones.  For a record whose destination no longer
    exists nothing happens: the state and the count are those before the
    record.  For a move whose destination is a regular file, whose source
    path is not a directory, and with no regular file on the way to the
    source's parent, the parents of the source are made directories, the
    file lands at the source path, the destination path is left empty, no
    other path changes, and the record is counted; with a regular file on
    the way the error is logged, nothing changes and the record is not
    counted.  For a copy whose destination is a regular file the destination
    is removed, nothing else changes, and the record is counted; a
    destination that is a directory is left where it is, with a logged
    error.  In every case the loop goes on with the remaining records. *)
Theorem undo_replays_in_reverse (log_file : string) (s : state)
  (r : json) (rest : list json) (count : Z) (src dst op : string) :
  Json.getitem r "source" = Ok (JStr src) ->
  Json.getitem r "destination" = Ok (JStr dst) ->
  Json.getitem r "operation" = Ok (JStr op) ->
  (forall fields records,
     Fs.read (fs s) (Path.of_str log_file) = Ok (Doc (JObj fields)) ->
     Json.get "operations" fields = Some (JArr (records ++ [r])) ->
     undo_body log_file false s
     = match undo_loop false (rev records)
               (fst (undo_record (JStr op) (JStr dst) (JStr src) 0%Z s))
               (snd (undo_record (JStr op) (JStr dst) (JStr src) 0%Z s)) with
       | (Ok m, s') => (Ok m, emit (Log_undone_total INFO m) s')
       | (Raise e, s') => (Raise e, s')
       end)
  /\ (Fs.exists_ (fs s) (Path.of_str dst) = false ->
      undo_loop false (r :: rest) count s = undo_loop false rest count s)
  /\ (op = "move" ->
      forall sz d,
        Fs.node_at (fs s) (Path.of_str dst) = Some (File sz d) ->
        Fs.is_dir (fs s) (Path.of_str src) = false ->
        (forall q, In q (Path.prefixes (Path.parent (Path.of_str src))) ->
                   Fs.is_file (fs s) q = false) ->
        exists s',
          undo_loop false (r :: rest) count s = undo_loop false rest (count + 1) s'
          /\ Fs.node_at (fs s') (Path.of_str src) = Some (File sz d)
          /\ (Path.of_str src <> Path.of_str dst ->
              Fs.node_at (fs s') (Path.of_str dst) = None)
          /\ (forall q, In q (Path.prefixes (Path.parent (Path.of_str src))) ->
                        Fs.node_at (fs s') q = Some Dir)
          /\ (forall p, p <> Path.of_str src -> p <> Path.of_str dst ->
                        ~ In p (Path.prefixes (Path.parent (Path.of_str src))) ->
                        Fs.node_at (fs s') p = Fs.node_at (fs s) p)
          /\ operations_log s' = operations_log s)
  /\ (op = "move" ->
      Fs.exists_ (fs s) (Path.of_str dst) = true ->
      (exists q, In q (Path.prefixes (Path.parent (Path.of_str src)))
                 /\ Fs.is_file (fs s) q = true) ->
      exists e,
        undo_loop false (r :: rest) count s
        = undo_loop false rest count (emit (Log_undo_error ERROR e) s))
  /\ (op = "copy" ->
      forall sz d,
        Fs.node_at (fs s) (Path.of_str dst) = Some (File sz d) ->
        exists s',
          undo_loop false (r :: rest) count s = undo_loop false rest (count + 1) s'
          /\ Fs.node_at (fs s') (Path.of_str dst) = None
          /\ (forall p, p <> Path.of_str dst ->
                        Fs.node_at (fs s') p = Fs.node_at (fs s) p)
          /\ operations_log s' = operations_log s)
  /\ (op = "copy" ->
      Fs.is_dir (fs s) (Path.of_str dst) = true ->
      undo_loop false (r :: rest) count s
      = undo_loop false rest count (emit (Log_undo_error ERROR IsADirectoryError) s)).
Proof.
  intros Hs Hd Ho.
  assert (Hstep : forall l c, undo_loop false (r :: l) c s
            = undo_loop false l (fst (undo_record (JStr op) (JStr dst) (JStr src) c s))
                                (snd (undo_record (JStr op) (JStr dst) (JStr src) c s)))
    by (intros l c; now apply undo_loop_step).
  split; [|split; [|split; [|split; [|split]]]].
  - intros fields records Hread Hget.
    unfold undo_body. rewrite Hread. cbn [json_load]. unfold get_operations.
    rewrite Hget. unfold Json.reversed, Json.iter. rewrite rev_app_distr.
    change (rev [r] ++ rev records) with (r :: rev records).
    now rewrite Hstep.
  - intros He. rewrite Hstep.
    unfold undo_record, undo_try, destination_exists. cbn [Json.to_path Json.eqb_str].
    rewrite He. destruct (String.eqb op "move"), (String.eqb op "copy"); reflexivity.
  - intros -> sz d Hdst Hsrc Hnf.
    destruct (move_back_effect _ _ _ sz d Hdst Hsrc Hnf)
      as (f1 & f2 & Hmk & Hmv & Hat & Hgone & Hdirs & Hsame).
    assert (He : Fs.exists_ (fs s) (Path.of_str dst) = true)
      by (unfold Fs.exists_; now rewrite Hdst).
    exists (emit (Print_undone (Path.name (Path.of_str dst))
                               (Path.parent (Path.of_str src))) (set_fs f2 s)).
    split; [|cbn [fs emit set_fs operations_log]; auto 6].
    rewrite Hstep. unfold undo_record, undo_try, destination_exists, undo_move.
    cbn [Json.to_path Json.eqb_str String.eqb Ascii.eqb Bool.eqb]. cbv iota.
    now rewrite He, Hmk, Hmv.
  - intros -> He (q & Hq & Hfile).
    destruct (mkdir_parents_blocked _ _ _ Hq Hfile) as (e & Hmk).
    exists e. rewrite Hstep. unfold undo_record, undo_try, destination_exists, undo_move.
    cbn [Json.to_path Json.eqb_str String.eqb Ascii.eqb Bool.eqb]. cbv iota.
    now rewrite He, Hmk.
  - intros -> sz d Hdst.
    assert (He : Fs.exists_ (fs s) (Path.of_str dst) = true)
      by (unfold Fs.exists_; now rewrite Hdst).
    assert (Hne : Path.of_str dst <> []) by (intros E; rewrite E in Hdst; discriminate).
    exists (emit (Print_removed_copy (JStr dst))
                 (set_fs (Fs.remove (Path.of_str dst) (fs s)) s)).
    split; [|cbn [fs emit set_fs operations_log]; split; [|split; [|reflexivity]]].
    + rewrite Hstep. unfold undo_record, undo_try, destination_exists, undo_copy, Fs.unlink.
      cbn [Json.to_path Json.eqb_str String.eqb Ascii.eqb Bool.eqb]. cbv iota.
      now rewrite He, Hdst.
    + now apply node_at_remove_eq.
    + intros p Hp. apply node_at_remove_ne. congruence.
  - intros -> Hdir.
    assert (He : Fs.exists_ (fs s) (Path.of_str dst) = true).
    { unfold Fs.exists_, Fs.is_dir in *.
      now destruct (Fs.node_at (fs s) (Path.of_str dst)) as [[|]|]. }
    assert (Hn : Fs.node_at (fs s) (Path.of_str dst) = Some Dir).
    { unfold Fs.is_dir in Hdir.
      now destruct (Fs.node_at (fs s) (Path.of_str dst)) as [[|]|]. }
    rewrite Hstep. unfold undo_record, undo_try, destination_exists, undo_copy, Fs.unlink.
    cbn [Json.to_path Json.eqb_str String.eqb Ascii.eqb Bool.eqb]. cbv iota.
    now rewrite He, Hn.
Qed.

Lemma undo_replays_in_reverse_witness :
  (exists s',
     undo_loop false [photo_record] 0%Z (init moved_world) = undo_loop false [] 1%Z s'
     /\ Fs.node_at (fs s') ["src"; "photo.jpg"] = Some (File 2000 (Text "photo"))
     /\ Fs.node_at (fs s') ["out"; "Images"; "photo.jpg"] = None)
  /\ (exists s',
        undo_loop false [notes_copy_record] 0%Z (init copied_world)
        = undo_loop false [] 1%Z s'
        /\ Fs.node_at (fs s') ["out"; "Documents"; "notes.txt"] = None
        /\ Fs.node_at (fs s') ["src"; "notes.txt"] = Some (File 500 (Text "notes"))).
Proof.
  split.
  - destruct (undo_replays_in_reverse "/log.json" (init moved_world) photo_record []
                0%Z "/src/photo.jpg" "/out/Images/photo.jpg" "move"
                eq_refl eq_refl eq_refl) as (_ & _ & Hmove & _).
    destruct (Hmove eq_refl 2000%Z (Text "photo") eq_refl eq_refl) as (s' & H1 & H2 & H3 & _).
    { intros q [<-|[]]. reflexivity. }
    exists s'. split; [exact H1|]. split; [exact H2|]. apply H3. discriminate.
  - destruct (undo_replays_in_reverse "/log.json" (init copied_world) notes_copy_record []
                0%Z "/src/notes.txt" "/out/Documents/notes.txt" "copy"
                eq_refl eq_refl eq_refl) as (_ & _ & _ & _ & Hcopy & _).
    destruct (Hcopy eq_refl 500%Z (Text "notes") eq_refl) as (s' & H1 & H2 & H3 & _).
    exists s'. split; [exact H1|]. split; [exact H2|]. rewrite H3; [reflexivity | discriminate].
Defined.

(** * Further properties of the engine *)

(** ** Size filter *)

(** X1. The size filter is inclusive at both ends: a file passes exactly
    when its size is at least [min_size] and at most [max_size], each bound
    counting only when it is given; a path whose size cannot be read
    passes. *)
Theorem check_file_size_inclusive (f : filesystem) (file_path : path)
  (min max : option Z) :
  check_file_size f file_path min max = true
  <-> (Fs.stat_size f file_path = None
       \/ exists size, Fs.stat_size f file_path = Some size
            /\ (forall m, min = Some m -> (m <= size)%Z)
            /\ (forall m, max = Some m -> (size <= m)%Z)).
Proof.
  unfold check_file_size. destruct (Fs.stat_size f file_path) as [size|].
  - split.
    + intros H. right. exists size. split; [reflexivity|].
      destruct min as [lo|], max as [hi|];
        repeat match type of H with
               | context [(?a <? ?b)%Z] => destruct (Z.ltb_spec a b)
               | context [(?a >? ?b)%Z] => destruct (Z.gtb_spec a b)
               end; try discriminate; split; intros m [= <-]; lia.
    + intros [H|(sz & [= <-] & Hlo & Hhi)]; [discriminate|].
      destruct min as [lo|], max as [hi|];
        repeat match goal with
               | |- context [(?a <? ?b)%Z] => destruct (Z.ltb_spec a b)
               | |- context [(?a >? ?b)%Z] => destruct (Z.gtb_spec a b)
               end; try reflexivity;
        try (specialize (Hlo _ eq_refl)); try (specialize (Hhi _ eq_refl)); lia.
  - split; auto.
Qed.

(** ** The namer *)

(** X2. Whatever the filesystem holds, the path [get_unique_filename]
    returns is free, lies in the directory of the path asked for, and is a
    fixed point: asking again for the returned path returns it. *)
Theorem get_unique_filename_fresh (f : filesystem) (target_path : path) :
  Fs.exists_ f (get_unique_filename f target_path) = false
  /\ Path.parent (get_unique_filename f target_path) = Path.parent target_path
  /\ get_unique_filename f (get_unique_filename f target_path)
     = get_unique_filename f target_path.
Proof.
  assert (Hfree : Fs.exists_ f (get_unique_filename f target_path) = false
                  /\ Path.parent (get_unique_filename f target_path)
                     = Path.parent target_path).
  { unfold get_unique_filename.
    destruct (Fs.exists_ f target_path) eqn:E; cbn [negb]; [|auto].
    destruct (probe_finds f target_path 1) as (p & Hp). rewrite Hp.
    destruct (probe_some _ _ _ _ _ Hp) as (N & _ & -> & Hfree & _).
    split; [exact Hfree|]. unfold numbered. apply parent_last. }
  destruct Hfree as (Hfree & Hpar). split; [exact Hfree|]. split; [exact Hpar|].
  unfold get_unique_filename at 1. now rewrite Hfree.
Qed.

(** ** Saving the ledger and loading the configuration *)






(** X5. [load_config] on a file holding a category table installs it: the
    call returns [True], the filesystem and the ledger are untouched, and
    from then on [get_category] resolves every extension against the loaded
    table, first match in its order, case-insensitively. *)
Theorem load_config_installs_table (str_lower : string -> string)
  (config_file : string) (s : state) (t : table) :
  Fs.read (fs s) (Path.of_str config_file) = Ok (Doc (json_of_table t)) ->
  let r := load_config config_file s in
  fst r = Ok true
  /\ fs (snd r) = fs s
  /\ operations_log (snd r) = operations_log s
  /\ forall ext, get_category str_lower (file_types (snd r)) ext = Ok (resolve str_lower t ext).
Proof.
  intros Hread. cbv zeta. unfold load_config, load_config_body.
  assert (He : Fs.exists_ (fs s) (Path.of_str config_file) = true).
  { unfold Fs.read in Hread. unfold Fs.exists_.
    destruct (Fs.node_at (fs s) (Path.of_str config_file)) as [[|]|];
      [reflexivity | reflexivity |].
    destruct (existsb _ _); discriminate. }
  rewrite He, Hread. cbn. repeat split. intros ext. apply get_category_resolve.
Qed.

Lemma load_config_installs_table_witness :
  fst (load_config "/cfg.json" (init configured_world)) = Ok true
  /\ get_category lower_plain
       (file_types (snd (load_config "/cfg.json" (init configured_world)))) ".jpg"
     = Ok "Pictures".
Proof.
  destruct (load_config_installs_table lower_plain "/cfg.json" (init configured_world)
              custom_table
              eq_refl) as (Hok & _ & _ & Hcat).
  split; [exact Hok|]. rewrite Hcat. reflexivity.
Defined.

Lemma dry_run_changes_nothing_witness :
  fs (snd (organize_files re_search_plain lower_plain "/src" "/out" dry_options (init two_files)))
  = two_files
  /\ operations_log
       (snd (organize_files re_search_plain lower_plain "/src" "/out" dry_options (init two_files)))
     = []
  /\ planned
       (console (snd (organize_files re_search_plain lower_plain "/src" "/out" dry_options
                                     (init two_files))))
     = [ (["src"; "photo.jpg"], ["out"; "Images"; "photo.jpg"]);
         (["src"; "notes.txt"], ["out"; "Documents"; "notes.txt"]) ].
Proof.
  destruct (dry_run_changes_nothing re_search_plain lower_plain "/src" "/out" dry_options
              (init two_files) eq_refl) as (Hfs & Hlog & _ & Hplan).
  split; [exact Hfs|]. split; [exact Hlog|]. rewrite Hplan. reflexivity.
Defined.

Lemma live_step_is_intended_witness :
  exists r,
    operations_log
      (snd (organize_step re_search_plain lower_plain default_options ["out"]
                          (mkCounters 0 0, init two_files) ["src"; "photo.jpg"]))
    = [] ++ [r]
    /\ map as_text (intended re_search_plain lower_plain default_options
                             (json_of_table DEFAULT_FILE_TYPES) two_files ["out"]
                             ["src"; "photo.jpg"])
       = [(field r "source", field r "destination")].
Proof.
  destruct (live_step_is_intended re_search_plain lower_plain default_options ["out"]
              ["src"; "photo.jpg"] (mkCounters 0 0) (init two_files) eq_refl)
    as [H|H]; [discriminate H | exact H].
Defined.

(** ** One step of a run, in any mode *)

(** After the category directory is made, the copy of a regular file to a
    free name inside it goes through. *)
Lemma copy_into (f f1 : filesystem) (src target_dir : path) (x : string)
  (sz : Z) (d : contents) :
  Fs.node_at f src = Some (File sz d) ->
  Fs.node_at f (target_dir ++ [x]) = None ->
  Fs.mkdir_parents target_dir f = Ok f1 ->
  Fs.shutil_copy2 src (target_dir ++ [x]) f1
  = Ok (Fs.put (target_dir ++ [x]) (File sz d) f1).
Proof.
  intros Hsrc Hfree Hmk.
  destruct (mkdir_parents_inv _ _ _ Hmk) as (_ & Hdir).
  assert (Hsrc1 : Fs.node_at f1 src = Some (File sz d))
    by (eapply mkdir_parents_keeps; eauto).
  assert (Hfree1 : Fs.node_at f1 (target_dir ++ [x]) = None).
  { destruct (mkdir_parents_new _ _ _ _ Hmk Hfree) as [H|[Hin _]]; [exact H|].
    apply prefixes_length in Hin. rewrite length_app in Hin. simpl in Hin. lia. }
  assert (Hne : Path.eqb src (target_dir ++ [x]) = false)
    by (apply path_eqb_neq; intros ->; congruence).
  assert (Hnd : Fs.is_dir f1 (target_dir ++ [x]) = false)
    by (unfold Fs.is_dir; now rewrite Hfree1).
  unfold Fs.shutil_copy2. rewrite Hnd, Hsrc1, Hne, Hnd, parent_last, Hdir. reflexivity.
Qed.

Lemma passes_fs (re_search : string -> string -> option bool) (o : options)
  (f g : filesystem) (file_path : path) :
  Fs.node_at g file_path = Fs.node_at f file_path ->
  passes re_search o g file_path = passes re_search o f file_path.
Proof.
  intros H. unfold passes, check_file_size, Fs.stat_size. now rewrite H.
Qed.


Section Step.

Variable re_search : string -> string -> option bool.
Variable str_lower : string -> string.

Lemma transfer_effect (o : options) (dest_path g : path) (x cat : string)
  (c : counters) (s : state) (sz : Z) (d : contents) :
  dry_run o = false ->
  Fs.node_at (fs s) g = Some (File sz d) ->
  get_category str_lower (file_types s) (Path.suffix g) = Ok cat ->
  (proper (Path.name g) = true -> proper x = true) ->
  Fs.node_at (fs s) (Path.join dest_path cat ++ [x]) = None ->
  forall res c' s',
    transfer o g (Path.join dest_path cat) (Path.join dest_path cat ++ [x]) cat c s
    = (res, c', s') ->
    file_types s' = file_types s
    /\ files_processed c' = files_processed c
    /\ step_outcome str_lower o dest_path g sz d (files_moved c) s (files_moved c') s'.
Proof.
  intros Hlive Hg Hcat Hprop Hfree res c' s'. unfold transfer.
  set (target_dir := Path.join dest_path cat) in *.
  set (target := target_dir ++ [x]) in *.
  assert (Hg_ne : g <> []) by (intros ->; discriminate).
  assert (Ht_ne : target <> []) by (intros E; apply app_eq_nil in E as [_ E]; discriminate).
  assert (Hne : g <> target) by (intros ->; congruence).
  destruct (Fs.mkdir_parents target_dir (fs s)) as [f1|e] eqn:Hmk.
  - assert (Hkeep : forall p n, Fs.node_at (fs s) p = Some n -> Fs.node_at f1 p = Some n)
      by (intros p n; eapply mkdir_parents_keeps; eauto).
    assert (Hnew : forall p, Fs.node_at (fs s) p = None ->
                             Fs.node_at f1 p = None \/ Fs.node_at f1 p = Some Dir).
    { intros p Hnone.
      destruct (mkdir_parents_new _ _ _ p Hmk Hnone) as [H|[_ H]]; auto. }
    destruct (copy_files o) eqn:Hcopy.
    + unfold target. rewrite (copy_into _ _ _ _ _ _ _ Hg Hfree Hmk). fold target.
      intros [= <- <- <-]. cbn. split; [reflexivity|]. split; [reflexivity|].
      apply (step_transferred str_lower o dest_path g sz d _ s _ _
               (transfer_record (Str.of_nat (clock s)) true g target cat) target);
        rewrite ?Hcopy; try reflexivity; try assumption;
        cbn [fs emit append_operation].
      * now apply node_at_put_eq.
      * rewrite node_at_put_ne by congruence. now apply Hkeep.
      * intros p n Hp Hn. rewrite node_at_put_ne by (intros ->; congruence).
        now apply Hkeep.
      * intros p Hp Hnone. rewrite node_at_put_ne by congruence. now apply Hnew.
      * exists cat, x, f1. auto.
    + unfold target. rewrite (move_into _ _ _ _ _ _ _ Hg Hfree Hmk). fold target.
      intros [= <- <- <-]. cbn. split; [reflexivity|]. split; [reflexivity|].
      apply (step_transferred str_lower o dest_path g sz d _ s _ _
               (transfer_record (Str.of_nat (clock s)) false g target cat) target);
        rewrite ?Hcopy; try reflexivity; try assumption;
        cbn [fs emit append_operation].
      * now apply node_at_put_eq.
      * rewrite node_at_put_ne by congruence. now apply node_at_remove_eq.
      * intros p n Hp Hn. rewrite node_at_put_ne by (intros ->; congruence).
        rewrite node_at_remove_ne by congruence. now apply Hkeep.
      * intros p Hp Hnone. rewrite node_at_put_ne by congruence.
        rewrite node_at_remove_ne by (intros ->; congruence). now apply Hnew.
      * exists cat, x, f1. auto.
  - intros [= <- <- <-]. split; [reflexivity|]. split; [reflexivity|].
    apply step_kept; auto.
Qed.

End Step.

Lemma step_outcome_from (str_lower : string -> string) (o : options) (dest_path g : path) (sz : Z) (d : contents)
  (m m' : Z) (s s2 s' : state) :
  fs s2 = fs s -> operations_log s2 = operations_log s -> file_types s2 = file_types s ->
  step_outcome str_lower o dest_path g sz d m s2 m' s' -> step_outcome str_lower o dest_path g sz d m s m' s'.
Proof.
  intros Hfs Hlog Hty
    [H1 H2 H3 H4 H5 | r target H1 H2 H3 H4 H5 H6 H7 H8 H9 H10 H11 H12];
    rewrite ?Hfs in *; rewrite ?Hlog in *; rewrite ?Hty in *.
  - now apply step_kept.
  - now apply (step_transferred str_lower o dest_path g sz d m s m' s' r target).
Qed.

Lemma step_outcome_emit (str_lower : string -> string) (o : options) (dest_path g : path) (sz : Z) (d : contents)
  (m m' : Z) (s s' : state) (ev : event) :
  step_outcome str_lower o dest_path g sz d m s m' s' ->
  step_outcome str_lower o dest_path g sz d m s m' (emit ev s').
Proof.
  intros [H1 H2 H3 H4 H5 | r target H1 H2 H3 H4 H5 H6 H7 H8 H9 H10 H11 H12].
  - now apply step_kept.
  - now apply (step_transferred str_lower o dest_path g sz d m s m' _ r target).
Qed.

Section StepEffect.

Variable re_search : string -> string -> option bool.
Variable str_lower : string -> string.

Lemma organize_step_effect (o : options) (dest_path : path) (c : counters) (s : state)
  (g : path) (sz : Z) (d : contents) :
  Fs.node_at (fs s) g = Some (File sz d) ->
  let acc' := organize_step re_search str_lower o dest_path (c, s) g in
  file_types (snd acc') = file_types s
  /\ files_processed (fst acc')
     = (files_processed c + (if passes re_search o (fs s) g then 1 else 0))%Z
  /\ step_outcome str_lower o dest_path g sz d (files_moved c) s (files_moved (fst acc')) (snd acc')
  /\ (files_moved (fst acc') = files_moved c \/ passes re_search o (fs s) g = true).
Proof.
  intros Hg. unfold organize_step, process_file. cbn [fst snd].
  pose proof (filters_frame re_search o g s) as Hframe. cbv zeta in Hframe.
  pose proof (matches_pattern_frame re_search (Path.name g) (pattern o) s)
    as Hfirst. cbv zeta in Hfirst.
  pose proof (filters_passes re_search o g s) as Hpass. cbv zeta in Hpass.
  destruct (matches_pattern re_search (Path.name g) (pattern o) s) as [m s1].
  cbn [fst snd] in Hframe, Hfirst, Hpass.
  destruct (if truthy (exclude_pattern o)
            then matches_pattern re_search (Path.name g) (exclude_pattern o) s1
            else (false, s1)) as [x s2]. cbn [fst snd] in Hframe, Hpass.
  destruct Hframe as (Hfs & Hlog & Hty & _). destruct Hfirst as (Gfs & Glog & Gty & _).
  destruct Hpass as (-> & _ & _).
  assert (Hkept : forall s', fs s' = fs s -> operations_log s' = operations_log s ->
              step_outcome str_lower o dest_path g sz d (files_moved c) s (files_moved c) s').
  { intros s' E1 E2. apply step_kept; [exact E2 | reflexivity | | | exact E1].
    - intros p n Hp. now rewrite E1.
    - intros p Hp. left. now rewrite E1. }
  destruct m; cbn [negb andb].
  2:{ cbn. rewrite Z.add_0_r. auto. }
  destruct x; cbn [negb andb].
  { cbn. rewrite Z.add_0_r. auto. }
  rewrite Hfs.
  destruct (check_file_size (fs s) g (min_size o) (max_size o)); cbn [negb].
  2:{ cbn. rewrite Z.add_0_r. auto. }
  destruct (get_category str_lower (file_types s2) (Path.suffix g)) as [cat|e] eqn:Hcat.
  2:{ cbn. rewrite Hty. repeat split; auto. }
  destruct (unique_shape (fs s) (Path.join dest_path cat) (Path.name g))
    as (x & Hx & Hfree & Hprop).
  rewrite Hx. apply exists_false_none in Hfree.
  destruct (dry_run o) eqn:Hdry.
  { cbn. rewrite Hty. repeat split; auto. }
  rewrite <- Hfs in Hg, Hfree.
  pose proof (transfer_effect str_lower o dest_path g x cat
                (mkCounters (files_processed c + 1) (files_moved c)) s2 sz d
                Hdry Hg Hcat Hprop Hfree) as Ht.
  destruct (transfer o g (Path.join dest_path cat) (Path.join dest_path cat ++ [x]) cat
                     (mkCounters (files_processed c + 1) (files_moved c)) s2)
    as [[res c'] s'].
  destruct (Ht res c' s' eq_refl) as (T1 & T2 & T3). cbn [files_processed files_moved] in *.
  assert (Hout : step_outcome str_lower o dest_path g sz d (files_moved c) s (files_moved c') s')
    by exact (step_outcome_from str_lower o dest_path g sz d _ _ s s2 s' Hfs Hlog Hty T3).
  destruct res as [[]|e]; cbn [fst snd file_types emit];
    (split; [congruence|]); (split; [exact T2|]); (split; [|now right]).
  - exact Hout.
  - now apply step_outcome_emit.
Qed.

End StepEffect.

(** ** A whole run, in any mode *)

Lemma executed_app (a b : list json) : executed (a ++ b) = executed a ++ executed b.
Proof. unfold executed. apply map_app. Qed.

Section Run.

Variable re_search : string -> string -> option bool.
Variable str_lower : string -> string.
Variable o : options.
Variable dest_path : path.

(** The transfers of a run over distinct regular files: which candidate
    went where.  The ledger grows by exactly these, the counters count them
    and the candidates that pass the filters; nothing but a moved candidate
    is changed; every destination was not there before (or was a candidate)
    and holds at the end what its source held at the start. *)
Lemma organize_loop_effect (files : list path) (c0 : counters) (s0 : state) :
  NoDup files ->
  (forall g, In g files -> Fs.is_file (fs s0) g = true) ->
  let acc' := organize_loop re_search str_lower o dest_path files (c0, s0) in
  exists (records : list json) (moves : list (path * path)),
    operations_log (snd acc') = operations_log s0 ++ records
    /\ executed records = map as_text moves
    /\ files_moved (fst acc') = (files_moved c0 + Z.of_nat (List.length moves))%Z
    /\ files_processed (fst acc')
       = (files_processed c0
          + Z.of_nat (List.length (filter (passes re_search o (fs s0)) files)))%Z
    /\ List.length moves <= List.length (filter (passes re_search o (fs s0)) files)
    /\ file_types (snd acc') = file_types s0
    /\ (forall p n, Fs.node_at (fs s0) p = Some n ->
          Fs.node_at (fs (snd acc')) p = Some n
          \/ (In p (map fst moves) /\ copy_files o = false))
    /\ (forall g t, In (g, t) moves ->
          In g files
          /\ (Fs.node_at (fs s0) t = None \/ In t files)
          /\ exists sz d, Fs.node_at (fs s0) g = Some (File sz d)
                          /\ Fs.node_at (fs (snd acc')) t = Some (File sz d))
    /\ NoDup (map snd moves)
    /\ (dry_run o = true -> moves = []).
Proof.
  unfold organize_loop. revert c0 s0.
  induction files as [|g files IH]; intros c0 s0 Hnd Hfiles.
  - exists [], []. cbn. rewrite app_nil_r, !Z.add_0_r.
    split; [reflexivity|]. split; [reflexivity|]. split; [reflexivity|].
    split; [reflexivity|]. split; [lia|]. split; [reflexivity|].
    split; [intros p n Hp; now left|]. split; [intros h t []|].
    split; [constructor | reflexivity].
  - inversion Hnd as [|? ? Hnotin Hnd']; subst.
    assert (Hg : exists sz d, Fs.node_at (fs s0) g = Some (File sz d)).
    { specialize (Hfiles g (or_introl eq_refl)). unfold Fs.is_file in Hfiles.
      destruct (Fs.node_at (fs s0) g) as [[sz d|]|]; try discriminate. eauto. }
    destruct Hg as (sz & d & Hg).
    destruct (organize_step_effect re_search str_lower o dest_path c0 s0 g sz d Hg)
      as (Hty & Hproc & Hout & Hpassed).
    cbn [fold_left].
    set (acc1 := organize_step re_search str_lower o dest_path (c0, s0) g) in *.
    destruct acc1 as [c1 s1]. cbn [fst snd] in *.
    assert (Hsame : forall p, p <> g -> forall n, Fs.node_at (fs s0) p = Some n ->
                                                  Fs.node_at (fs s1) p = Some n).
    { intros p Hp n Hn. destruct Hout; auto. }
    assert (Hrest : forall h, In h files -> Fs.node_at (fs s1) h = Fs.node_at (fs s0) h).
    { intros h Hh. assert (h <> g) by (intros ->; contradiction).
      specialize (Hfiles h (or_intror Hh)). unfold Fs.is_file in Hfiles.
      destruct (Fs.node_at (fs s0) h) as [n|] eqn:E; [|discriminate]. now apply Hsame. }
    assert (Hfiles1 : forall h, In h files -> Fs.is_file (fs s1) h = true).
    { intros h Hh. unfold Fs.is_file. rewrite (Hrest h Hh). now apply (Hfiles h (or_intror Hh)). }
    assert (Hfilter : filter (passes re_search o (fs s1)) files
                      = filter (passes re_search o (fs s0)) files).
    { apply filter_ext_in. intros h Hh. apply passes_fs. now apply Hrest. }
    destruct (IH c1 s1 Hnd' Hfiles1)
      as (records & moves & Hlog & Hexec & Hmoved & Hprocessed & Hle & Hty1 & Hkeep
          & Hmoves & Hdist & Hdry).
    rewrite Hfilter in Hprocessed, Hle.
    set (acc' := fold_left (organize_step re_search str_lower o dest_path) files (c1, s1)) in *.
    cbn [filter].
    assert (Hback : forall p, Fs.node_at (fs s1) p = None ->
                              Fs.node_at (fs s0) p = None \/ p = g).
    { intros p Hp. destruct (list_eq_dec string_dec p g) as [->|Hpg]; [now right|].
      left. destruct (Fs.node_at (fs s0) p) as [n|] eqn:E; [|reflexivity].
      rewrite (Hsame p Hpg n E) in Hp. discriminate. }
    assert (Hmoves0 : forall h t, In (h, t) moves ->
              In h (g :: files)
              /\ (Fs.node_at (fs s0) t = None \/ In t (g :: files))
              /\ exists sz' d', Fs.node_at (fs s0) h = Some (File sz' d')
                                /\ Fs.node_at (fs (snd acc')) t = Some (File sz' d')).
    { intros h t Hin. destruct (Hmoves h t Hin) as (Hh & Ht & sz' & d' & Hh1 & Ht1).
      split; [now right|]. split.
      - destruct Ht as [Ht|Ht]; [|right; now right].
        destruct (Hback t Ht) as [?| ->]; [now left | right; now left].
      - exists sz', d'. split; [|exact Ht1]. now rewrite <- (Hrest h Hh). }
    destruct Hout as [H1 H2 H3 H4 _ | r target Hlive H1 H2 H3 H4 H5 H6 H7 H8 H9 H10 _].
    + (* nothing transferred at this step *)
      exists records, moves.
      split; [now rewrite Hlog, H1|]. split; [exact Hexec|].
      split; [rewrite Hmoved, H2; reflexivity|].
      split.
      { rewrite Hprocessed, Hproc.
        destruct (passes re_search o (fs s0) g); cbn [List.length]; lia. }
      split.
      { destruct (passes re_search o (fs s0) g); cbn [List.length]; lia. }
      split; [congruence|]. split.
      { intros p n Hp. apply Hkeep. now apply H3. }
      split; [exact Hmoves0|]. split; [exact Hdist | exact Hdry].
    + (* the candidate is transferred to [target] *)
      assert (Hpass : passes re_search o (fs s0) g = true).
      { destruct Hpassed as [E|E]; [lia | exact E]. }
      assert (Htarget_kept : Fs.node_at (fs (snd acc')) target = Some (File sz d)).
      { destruct (Hkeep target _ H7) as [E|[Hin _]]; [exact E|]. exfalso.
        apply in_map_iff in Hin as ([h t] & <- & Hin).
        destruct (Hmoves h t Hin) as (Hh & _). cbn [fst] in *.
        specialize (Hfiles h (or_intror Hh)). unfold Fs.is_file in Hfiles.
        now rewrite H6 in Hfiles. }
      exists (r :: records), ((g, target) :: moves).
      split; [rewrite Hlog, H1; now rewrite <- app_assoc|].
      split.
      { change (r :: records) with ([r] ++ records). rewrite executed_app, Hexec.
        cbn. unfold as_text at 1. cbn [fst snd]. now rewrite H3, H4. }
      split; [rewrite Hmoved, H2; cbn [List.length]; lia|].
      rewrite Hpass. cbn [List.length].
      split; [rewrite Hprocessed, Hproc, Hpass; lia|].
      split; [lia|]. split; [congruence|]. split.
      { intros p n Hp. destruct (list_eq_dec string_dec p g) as [->|Hpg].
        - destruct (copy_files o) eqn:Hcopy.
          + rewrite Hg in Hp. injection Hp as <-.
            destruct (Hkeep g _ H8) as [E|[_ E]]; [now left | discriminate].
          + right. split; [now left | reflexivity].
        - destruct (Hkeep p n (H9 p n Hpg Hp)) as [E|[Hin Hcopy]]; [now left|].
          right. split; [now right | exact Hcopy]. }
      split.
      { intros h t [[= <- <-]|Hin]; [|now apply Hmoves0].
        split; [now left|]. split; [now left|]. exists sz, d. auto. }
      split.
      { cbn [map snd]. constructor; [|exact Hdist].
        intros Hin. apply in_map_iff in Hin as ([h t] & Ht & Hin). cbn [snd] in Ht. subst t.
        destruct (Hmoves h target Hin) as (_ & [Hnone|Hcand] & _).
        - rewrite H7 in Hnone. discriminate.
        - specialize (Hfiles target (or_intror Hcand)). unfold Fs.is_file in Hfiles.
          now rewrite H6 in Hfiles. }
      intros Hd. congruence.
Qed.

End Run.

(** ** What a run of [organize_files] guarantees in every mode *)

Lemma organize_files_run (re_search : string -> string -> option bool)
  (str_lower : string -> string)
  (source destination : string) (o : options) (s : state) :
  Fs.is_dir (fs s) (Path.resolve (Path.of_str source)) = true ->
  organize_files re_search str_lower source destination o s
  = (Ok (files_processed
           (fst (organize_loop re_search str_lower o (Path.resolve (Path.of_str destination))
                   (candidates o (Path.resolve (Path.of_str source)) (fs s))
                   (mkCounters 0 0,
                    emit (Log_found INFO
                            (List.length (candidates o (Path.resolve (Path.of_str source)) (fs s)))) s))),
         files_moved
           (fst (organize_loop re_search str_lower o (Path.resolve (Path.of_str destination))
                   (candidates o (Path.resolve (Path.of_str source)) (fs s))
                   (mkCounters 0 0,
                    emit (Log_found INFO
                            (List.length (candidates o (Path.resolve (Path.of_str source)) (fs s)))) s)))),
     snd (organize_loop re_search str_lower o (Path.resolve (Path.of_str destination))
            (candidates o (Path.resolve (Path.of_str source)) (fs s))
            (mkCounters 0 0,
             emit (Log_found INFO
                     (List.length (candidates o (Path.resolve (Path.of_str source)) (fs s)))) s))).
Proof.
  intros Hdir. unfold organize_files. rewrite (is_dir_exists _ _ Hdir), Hdir. cbn [negb].
  now destruct (organize_loop _ _ _ _ _).
Qed.

Lemma organize_files_not_run (re_search : string -> string -> option bool)
  (str_lower : string -> string)
  (source destination : string) (o : options) (s : state) :
  Fs.is_dir (fs s) (Path.resolve (Path.of_str source)) = false ->
  snd (organize_files re_search str_lower source destination o s) = s
  /\ exists e, fst (organize_files re_search str_lower source destination o s) = Raise e.
Proof.
  intros Hdir. unfold organize_files.
  destruct (Fs.exists_ (fs s) (Path.resolve (Path.of_str source))); cbn [negb].
  - rewrite Hdir. cbn. eauto.
  - cbn. eauto.
Qed.

Lemma candidates_are_files (o : options) (src : path) (f : filesystem) (g : path) :
  In g (candidates o src f) -> Fs.is_file f g = true.
Proof. unfold candidates. intros H. now apply filter_In in H as [_ H]. Qed.

(** X9. A run never overwrites and never removes anything but the files it
    moves: in a filesystem that lists each path once, every entry present
    before the run is present and unchanged after it, unless it is a
    candidate of a live run that moves.  A run that copies, a dry run, and a
    run refused for its source change no entry at all. *)
Theorem organize_files_spares_the_rest (re_search : string -> string -> option bool)
  (str_lower : string -> string)
  (source destination : string) (o : options) (s : state) :
  NoDup (map fst (fs s)) ->
  forall p n,
    Fs.node_at (fs s) p = Some n ->
    Fs.node_at (fs (snd (organize_files re_search str_lower source destination o s))) p = Some n
    \/ (In p (candidates o (Path.resolve (Path.of_str source)) (fs s))
        /\ dry_run o = false /\ copy_files o = false).
Proof.
  intros Hnd p n Hp.
  destruct (Fs.is_dir (fs s) (Path.resolve (Path.of_str source))) eqn:Hdir.
  - rewrite (organize_files_run re_search str_lower source destination o s Hdir). cbn [snd].
    set (files := candidates o (Path.resolve (Path.of_str source)) (fs s)).
    destruct (organize_loop_effect re_search str_lower o (Path.resolve (Path.of_str destination)) files
                (mkCounters 0 0) (emit (Log_found INFO (List.length files)) s)
                (candidates_NoDup o _ _ Hnd)
                (fun g Hg => candidates_are_files o _ _ g Hg))
      as (records & moves & _ & _ & _ & _ & _ & _ & Hkeep & Hmoves & _ & Hdry).
    cbv zeta in Hkeep, Hmoves. destruct (Hkeep p n Hp) as [E|[Hin Hcopy]]; [now left|].
    right. apply in_map_iff in Hin as ([g t] & <- & Hin).
    destruct (Hmoves g t Hin) as (Hg & _). split; [exact Hg|]. split; [|exact Hcopy].
    destruct (dry_run o); [|reflexivity]. rewrite (Hdry eq_refl) in Hin. destruct Hin.
  - left. destruct (organize_files_not_run re_search str_lower source destination o s Hdir)
      as (-> & _). exact Hp.
Qed.

Lemma organize_files_spares_the_rest_witness :
  Fs.node_at (fs (snd (organize_files re_search_plain lower_plain "/src" "/out" copy_options
                                      (init two_files)))) ["src"; "photo.jpg"]
  = Some (File 2000 (Text "photo")).
Proof.
  destruct (organize_files_spares_the_rest re_search_plain lower_plain "/src" "/out" copy_options
              (init two_files)
              (distinct_NoDup (map fst (fs (init two_files))) eq_refl)
              ["src"; "photo.jpg"] (File 2000 (Text "photo")) eq_refl)
    as [H|(_ & _ & H)]; [exact H | discriminate H].
Defined.

(** X10. The ledger tells the truth about the run that wrote it.  In a
    filesystem that lists each path once, the records a run appends name, in
    order, transfers of candidates to pairwise distinct destinations; each
    destination held nothing before the run unless it was itself a
    candidate, and holds at the end of the run exactly what its source held
    at the start. *)
Theorem ledger_is_truthful (re_search : string -> string -> option bool)
  (str_lower : string -> string)
  (source destination : string) (o : options) (s : state) :
  NoDup (map fst (fs s)) ->
  let s' := snd (organize_files re_search str_lower source destination o s) in
  exists (records : list json) (moves : list (path * path)),
    operations_log s' = operations_log s ++ records
    /\ executed records = map as_text moves
    /\ NoDup (map snd moves)
    /\ forall g t, In (g, t) moves ->
         In g (candidates o (Path.resolve (Path.of_str source)) (fs s))
         /\ (Fs.node_at (fs s) t = None
             \/ In t (candidates o (Path.resolve (Path.of_str source)) (fs s)))
         /\ exists sz d, Fs.node_at (fs s) g = Some (File sz d)
                         /\ Fs.node_at (fs s') t = Some (File sz d).
Proof.
  intros Hnd. cbv zeta.
  destruct (Fs.is_dir (fs s) (Path.resolve (Path.of_str source))) eqn:Hdir.
  - rewrite (organize_files_run re_search str_lower source destination o s Hdir). cbn [snd].
    set (files := candidates o (Path.resolve (Path.of_str source)) (fs s)).
    destruct (organize_loop_effect re_search str_lower o (Path.resolve (Path.of_str destination)) files
                (mkCounters 0 0) (emit (Log_found INFO (List.length files)) s)
                (candidates_NoDup o _ _ Hnd)
                (fun g Hg => candidates_are_files o _ _ g Hg))
      as (records & moves & Hlog & Hexec & _ & _ & _ & _ & _ & Hmoves & Hdist & _).
    exists records, moves. auto.
  - destruct (organize_files_not_run re_search str_lower source destination o s Hdir) as (-> & _).
    exists [], []. rewrite app_nil_r.
    split; [reflexivity|]. split; [reflexivity|]. split; [constructor|].
    intros g t [].
Qed.

Lemma ledger_is_truthful_witness :
  exists (records : list json) (moves : list (path * path)),
    operations_log
      (snd (organize_files re_search_plain lower_plain "/src" "/out" default_options (init two_files)))
    = operations_log (init two_files) ++ records
    /\ executed records = map as_text moves
    /\ NoDup (map snd moves)
    /\ forall g t, In (g, t) moves ->
         In g (candidates default_options (Path.of_str "/src") (fs (init two_files)))
         /\ (Fs.node_at (fs (init two_files)) t = None
             \/ In t (candidates default_options (Path.of_str "/src")
                                 (fs (init two_files))))
         /\ exists sz d,
              Fs.node_at (fs (init two_files)) g = Some (File sz d)
              /\ Fs.node_at
                   (fs (snd (organize_files re_search_plain lower_plain "/src" "/out"
                                            default_options (init two_files)))) t
                 = Some (File sz d).
Proof.
  exact (ledger_is_truthful re_search_plain lower_plain "/src" "/out" default_options
           (init two_files) (distinct_NoDup (map fst (fs (init two_files))) eq_refl)).
Defined.

(** X11. The two numbers [organize_files] returns.  In a filesystem that
    lists each path once, [files_processed] is the number of candidates that
    pass the three filters, judged on the filesystem as the run found it,
    and [files_moved] is the number of records the run appended to the
    ledger; so moved is at most processed, processed at most the number of
    candidates, and a dry run moves none. *)
Theorem counters_count (re_search : string -> string -> option bool)
  (str_lower : string -> string)
  (source destination : string) (o : options) (s : state) (processed moved : Z) :
  NoDup (map fst (fs s)) ->
  fst (organize_files re_search str_lower source destination o s) = Ok (processed, moved) ->
  let files := candidates o (Path.resolve (Path.of_str source)) (fs s) in
  let s' := snd (organize_files re_search str_lower source destination o s) in
  processed = Z.of_nat (List.length (filter (passes re_search o (fs s)) files))
  /\ Z.of_nat (List.length (operations_log s'))
     = (Z.of_nat (List.length (operations_log s)) + moved)%Z
  /\ (0 <= moved <= processed)%Z
  /\ (processed <= Z.of_nat (List.length files))%Z
  /\ (dry_run o = true -> moved = 0%Z).
Proof.
  intros Hnd Hres. cbv zeta.
  destruct (Fs.is_dir (fs s) (Path.resolve (Path.of_str source))) eqn:Hdir.
  - rewrite (organize_files_run re_search str_lower source destination o s Hdir) in Hres |- *.
    cbn [fst snd] in *.
    set (files := candidates o (Path.resolve (Path.of_str source)) (fs s)) in *.
    destruct (organize_loop_effect re_search str_lower o (Path.resolve (Path.of_str destination)) files
                (mkCounters 0 0) (emit (Log_found INFO (List.length files)) s)
                (candidates_NoDup o _ _ Hnd)
                (fun g Hg => candidates_are_files o _ _ g Hg))
      as (records & moves & Hlog & Hexec & Hmoved & Hproc & Hle & _ & _ & _ & _ & Hdry).
    cbv zeta in Hlog, Hmoved, Hproc. cbn [fs emit files_processed files_moved] in *.
    injection Hres as Hp Hm. rewrite Hproc in Hp. rewrite Hmoved in Hm. subst.
    assert (Hlen : List.length records = List.length moves).
    { apply (f_equal (@List.length _)) in Hexec. unfold executed in Hexec.
      now rewrite !length_map in Hexec. }
    pose proof (filter_length_le (passes re_search o (fs s)) files) as Hfl.
    rewrite Hlog. cbn [operations_log emit]. rewrite length_app, Hlen.
    split; [lia|]. split; [lia|]. split; [lia|]. split; [lia|].
    intros Hd. now rewrite (Hdry Hd).
  - destruct (organize_files_not_run re_search str_lower source destination o s Hdir)
      as (_ & e & He). congruence.
Qed.

Lemma counters_count_witness :
  2%Z = Z.of_nat (List.length (filter (passes re_search_plain default_options two_files)
                                      (candidates default_options ["src"] two_files)))
  /\ (0 <= 2 <= 2)%Z.
Proof.
  destruct (counters_count re_search_plain lower_plain "/src" "/out" default_options (init two_files)
              2%Z 2%Z (distinct_NoDup (map fst (fs (init two_files))) eq_refl) eq_refl)
    as (H1 & _ & H3 & _).
  split; [exact H1 | exact H3].
Defined.

(** ** Round trip of any live run *)


Section BackCopy.

Variable X : path -> Prop.


End BackCopy.

Section LiveRoundTrip.

Variable re_search : string -> string -> option bool.
Variable str_lower : string -> string.
Variable t : table.
Variable dest_path : path.
Variable o : options.
Variable X : path -> Prop.
Hypothesis Hsimple : simple_table t = true.
Hypothesis Hdest : proper_path dest_path = true.
Hypothesis HXdirs : forall p, category_dir dest_path p -> X p.
Hypothesis HXout : forall p, transferred_path dest_path p -> ~ X p.


End LiveRoundTrip.

(** ** The round trip of any run *)



(** ** A ledger with a damaged record *)

(** The incomplete ledger entries: objects that lack one of the three keys
    the undo reads. *)
Lemma incomplete_record_raises (bad : json) (rest : list json) (dry : bool)
  (count : Z) (s : state) :
  is_record bad = true -> complete_record bad = false ->
  undo_loop dry (bad :: rest) count s = (Raise KeyError, s).
Proof.
  intros Hrec Hinc. destruct bad as [| | | | |fields]; try discriminate.
  unfold complete_record in Hinc. cbn [undo_loop]. unfold Json.getitem in *.
  destruct (Json.get "source" fields); [|reflexivity].
  destruct (Json.get "destination" fields); [|reflexivity].
  destruct (Json.get "operation" fields); [discriminate | reflexivity].
Qed.

(** X12. An object in the ledger that lacks [source], [destination] or
    [operation] stops the undo where it stands, in either mode: the records
    appended after it have been undone by then and stay undone, the records
    appended before it are never visited, and the call returns 0 whatever
    number of records it undid. *)
Theorem undo_stops_at_incomplete_record (log_file : string) (dry : bool) (s s' : state)
  (fields : list (string * json)) (earlier later : list json) (bad : json) (n : Z) :
  Fs.read (fs s) (Path.of_str log_file) = Ok (Doc (JObj fields)) ->
  Json.get "operations" fields = Some (JArr (earlier ++ bad :: later)) ->
  is_record bad = true -> complete_record bad = false ->
  undo_loop dry (rev later) 0%Z s = (Ok n, s') ->
  undo_operations log_file dry s = (Ok 0%Z, emit (Log_read_error ERROR KeyError) s').
Proof.
  intros Hread Hget Hrec Hinc Hlater.
  unfold undo_operations, undo_body. rewrite Hread. cbn [json_load].
  unfold get_operations. rewrite Hget. unfold Json.reversed, Json.iter.
  rewrite rev_app_distr. cbn [rev]. rewrite <- !app_assoc. cbn [app].
  rewrite undo_loop_app, Hlater.
  now rewrite (incomplete_record_raises bad (rev earlier) dry n s' Hrec Hinc).
Qed.

(** The photo is moved back, then the damaged record is met: the call
    reports 0 although the file is at its source again. *)
Lemma undo_stops_at_incomplete_record_witness :
  fst (undo_operations "/log.json" false (init damaged_world)) = Ok 0%Z
  /\ Fs.node_at (fs (snd (undo_operations "/log.json" false (init damaged_world))))
                ["src"; "photo.jpg"] = Some (File 2000 (Text "photo"))
  /\ Fs.node_at (fs (snd (undo_operations "/log.json" false (init damaged_world))))
                ["out"; "Documents"; "notes.txt"] = Some (File 500 (Text "notes")).
Proof.
  rewrite (undo_stops_at_incomplete_record "/log.json" false (init damaged_world)
             (snd (undo_loop false [photo_record] 0%Z (init damaged_world)))
             _ [notes_copy_record] [photo_record] damaged_record 1%Z
             eq_refl eq_refl eq_refl eq_refl eq_refl).
  repeat split.
Defined.
